(** * Chat-message classifier and streak bookkeeping of the expense tracker

    A shallow embedding of [backend/server.js]: the three chat paths
    ([handleEvent] behind the first [/webhook] route, the [/api/simulate-line]
    route and the second [/webhook] route), the helpers they call and the
    schema declarations of [models.js] they rely on.

    JavaScript strings are sequences of UTF-16 code units and every string
    primitive used by the handlers ([trim], [includes], [match], [replace],
    [===]) works on code units, so strings are modelled as lists of code
    units.  Literals of the source are written as UTF-8 text and decoded by
    [utf16]. *)

From Stdlib Require Import List NArith ZArith QArith Qreduction Bool Lia.
From Stdlib Require Import Strings.String Strings.Ascii Numbers.DecimalString.
Import ListNotations.
Close Scope Q_scope.

Set Implicit Arguments.

(** ** JavaScript strings *)

Module Js.

Definition codeunit := N.
Definition jsstring := list codeunit.

(** Decoding of a UTF-8 literal into UTF-16 code units.  A code point above
    the basic plane becomes a surrogate pair, as in a JavaScript source text. *)

Definition cont (b : ascii) : N := N.land (N_of_ascii b) 63.

Definition surrogates (cp : N) : jsstring :=
  let v := (cp - 65536)%N in
  [ (55296 + N.shiftr v 10)%N ; (56320 + N.land v 1023)%N ].

Fixpoint utf16 (s : string) : jsstring :=
  match s with
  | EmptyString => []
  | String b1 r1 =>
    let n1 := N_of_ascii b1 in
    if (n1 <? 128)%N then n1 :: utf16 r1
    else if (n1 <? 224)%N then
      match r1 with
      | String b2 r2 => (N.land n1 31 * 64 + cont b2)%N :: utf16 r2
      | EmptyString => [n1]
      end
    else if (n1 <? 240)%N then
      match r1 with
      | String b2 (String b3 r3) =>
          (N.land n1 15 * 4096 + cont b2 * 64 + cont b3)%N :: utf16 r3
      | _ => [n1]
      end
    else
      match r1 with
      | String b2 (String b3 (String b4 r4)) =>
          surrogates (N.land n1 7 * 262144 + cont b2 * 4096
                      + cont b3 * 64 + cont b4)%N ++ utf16 r4
      | _ => [n1]
      end
  end.

(** [===] on strings. *)
Fixpoint str_eqb (a b : jsstring) : bool :=
  match a, b with
  | [], [] => true
  | x :: a', y :: b' => (x =? y)%N && str_eqb a' b'
  | _, _ => false
  end.

(** Character classes of the regular expressions of the source.
    [\d] is ASCII digits; [\s] and [trim] share the WhiteSpace and
    LineTerminator code units; [.] (without the [s] flag) excludes the four
    line terminators. *)

Definition isDigit (c : codeunit) : bool := ((48 <=? c) && (c <=? 57))%N.

Definition isLineTerminator (c : codeunit) : bool :=
  ((c =? 10) || (c =? 13) || (c =? 8232) || (c =? 8233))%N.

Definition isWhiteSpace (c : codeunit) : bool :=
  (((9 <=? c) && (c <=? 13)) || (c =? 32) || (c =? 160) || (c =? 5760)
   || ((8192 <=? c) && (c <=? 8202)) || (c =? 8232) || (c =? 8233)
   || (c =? 8239) || (c =? 8287) || (c =? 12288) || (c =? 65279))%N.

Definition isDot (c : codeunit) : bool := negb (isLineTerminator c).

(** [span p s]: the longest prefix of [s] whose code units satisfy [p], and
    the rest; what a greedy [p+] or [p*] consumes first. *)
Fixpoint span (p : codeunit -> bool) (s : jsstring) : jsstring * jsstring :=
  match s with
  | [] => ([], [])
  | c :: s' => if p c then let (a, r) := span p s' in (c :: a, r)
               else ([], s)
  end.

Definition dropWhile (p : codeunit -> bool) (s : jsstring) : jsstring :=
  snd (span p s).

(** [String.prototype.trim]. *)
Definition trimStart (s : jsstring) : jsstring := dropWhile isWhiteSpace s.
Definition trimEnd (s : jsstring) : jsstring := rev (trimStart (rev s)).
Definition trim (s : jsstring) : jsstring := trimEnd (trimStart s).

(** [startsWith] and [String.prototype.includes]. *)
Fixpoint isPrefix (p s : jsstring) : bool :=
  match p, s with
  | [], _ => true
  | x :: p', y :: s' => (x =? y)%N && isPrefix p' s'
  | _ :: _, [] => false
  end.

Fixpoint includes (s k : jsstring) : bool :=
  isPrefix k s || match s with [] => false | _ :: s' => includes s' k end.

(** [s.replace(new RegExp(k, 'g'), '')] for a pattern [k] that is a plain
    non-empty word: every occurrence found scanning from the left is
    removed, the scan resuming after the removed occurrence.  [skip] counts
    the code units of the current occurrence still to be dropped. *)
Fixpoint removeAllFrom (k : jsstring) (skip : nat) (s : jsstring) : jsstring :=
  match s with
  | [] => []
  | c :: s' =>
    match skip with
    | S n => removeAllFrom k n s'
    | O => if isPrefix k s then removeAllFrom k (List.length k - 1) s'
           else c :: removeAllFrom k 0 s'
    end
  end.

Definition removeAll (k s : jsstring) : jsstring :=
  match k with [] => s | _ => removeAllFrom k 0 s end.

(** The syntax characters of ECMAScript regular expressions. *)
Definition isSyntaxChar (c : codeunit) : bool :=
  existsb (N.eqb c) (utf16 "^$\.*+?()[]{}|").

Definition isEmpty (s : jsstring) : bool :=
  match s with [] => true | _ => false end.

(** [a || b] on strings: the empty string is falsy. *)
Definition orElse (a b : jsstring) : jsstring :=
  if isEmpty a then b else a.

(** [names.join(sep)]. *)
Fixpoint join (sep : jsstring) (l : list jsstring) : jsstring :=
  match l with
  | [] => []
  | [x] => x
  | x :: l' => x ++ sep ++ join sep l'
  end.

(** *** Backtracking matchers

    The regular expressions of the source are rendered with a few
    combinators in continuation-passing style: the continuation is the rest
    of the pattern, and a combinator tries its alternatives in the order of
    the ECMAScript backtracking matcher, keeping the first success. *)

Section Regex.
Variable A : Type.

Definition matcher := jsstring -> option A.

(** [$] (no [m] flag): end of input. *)
Definition eos (x : A) : matcher :=
  fun s => match s with [] => Some x | _ => None end.

(** End of an unanchored pattern: succeeds wherever it is reached. *)
Definition accept (f : jsstring -> A) : matcher := fun s => Some (f s).

(** [a|b]: the left alternative first. *)
Definition alt (a b : matcher) : matcher :=
  fun s => match a s with Some x => Some x | None => b s end.

(** A literal word; [eqc] compares a pattern code unit with an input one. *)
Definition lit (eqc : codeunit -> codeunit -> bool) (w : jsstring)
    (k : matcher) : matcher :=
  fun s =>
    if (List.length w <=? List.length s)%nat
       && forallb (fun xy => eqc (fst xy) (snd xy)) (combine w s)
    then k (skipn (List.length w) s) else None.

(** One code unit of a class, as in [(\d)]. *)
Definition one (p : codeunit -> bool) (k : codeunit -> matcher) : matcher :=
  fun s =>
    match s with
    | c :: s' => if p c then k c s' else None
    | [] => None
    end.

(** Greedy [p{min,}]: the longest run first, then one code unit less at a
    time, never fewer than [min]. *)
Fixpoint tryLongest (min n : nat) (k : jsstring -> matcher) (s : jsstring)
    : option A :=
  match k (firstn n s) (skipn n s) with
  | Some x => Some x
  | None =>
    match n with
    | O => None
    | S n' => if (n' <? min)%nat then None else tryLongest min n' k s
    end
  end.

Definition greedy (p : codeunit -> bool) (min : nat)
    (k : jsstring -> matcher) : matcher :=
  fun s =>
    let n := List.length (fst (span p s)) in
    if (n <? min)%nat then None else tryLongest min n k s.

(** Lazy [p+?]: the shortest run first, one code unit more at a time. *)
Fixpoint tryShortest (p : codeunit -> bool) (k : jsstring -> matcher)
    (pre s : jsstring) : option A :=
  match k pre s with
  | Some x => Some x
  | None =>
    match s with
    | c :: s' => if p c then tryShortest p k (pre ++ [c]) s' else None
    | [] => None
    end
  end.

Definition lazyPlus (p : codeunit -> bool) (k : jsstring -> matcher)
    : matcher :=
  fun s =>
    match s with
    | c :: s' => if p c then tryShortest p k [c] s' else None
    | [] => None
    end.

(** An unanchored pattern is tried at every start index from the left; the
    result carries the text before the match. *)
Fixpoint search (m : matcher) (s : jsstring) : option (jsstring * A) :=
  match m s with
  | Some x => Some ([], x)
  | None =>
    match s with
    | [] => None
    | c :: s' =>
      match search m s' with
      | Some (before, x) => Some (c :: before, x)
      | None => None
      end
    end
  end.

End Regex.

(** Comparison of code units in a pattern without and with the [i] flag.
    The patterns of the source hold ASCII letters and Thai letters only; an
    ASCII letter matches its two cases and a Thai letter matches itself. *)
Definition exact (a b : codeunit) : bool := (a =? b)%N.

Definition canonicalize (c : codeunit) : codeunit :=
  if ((97 <=? c) && (c <=? 122))%N then (c - 32)%N else c.

Definition ignoreCase (a b : codeunit) : bool :=
  (canonicalize a =? canonicalize b)%N.

(** [parseFloat] on the strings the handlers pass to it, which hold digits
    and at most one dot: the longest prefix [digits* (. digits* )?] is read;
    no digit at all gives [NaN], modelled by [None].  The value is kept as
    an exact rational in lowest terms; the rounding of the IEEE double that
    JavaScript stores is not modelled. *)
Definition digitValue (c : codeunit) : N := (c - 48)%N.

Definition digitsValue (s : jsstring) : N :=
  fold_left (fun acc c => (acc * 10 + digitValue c)%N) s 0%N.

Fixpoint pow10 (n : nat) : positive :=
  match n with O => 1%positive | S n' => (10 * pow10 n')%positive end.

Definition parseFloat (s : jsstring) : option Q :=
  let (ip, r) := span isDigit s in
  let fp := match r with
            | c :: r' => if (c =? 46)%N then fst (span isDigit r') else []
            | [] => []
            end in
  if isEmpty ip && isEmpty fp then None
  else Some (Qred (Z.of_N (digitsValue (ip ++ fp))
                   # pow10 (List.length fp))).

End Js.

Import Js.

(** ** The run-time outside the repository

    Two library functions decide branches of the handlers and are not code
    of the repository: [String.prototype.toLowerCase] and the evaluation of
    a case-insensitive regular expression built from user text
    ([new RegExp(source, 'i')] handed to the store as a [$regex] filter).
    [regexSearch source] is [None] when the constructor throws a
    [SyntaxError] and otherwise the test applied to a category name. *)

Class Runtime := {
  toLowerCase : jsstring -> jsstring;
  regexSearch : jsstring -> option (jsstring -> bool)
}.

(** ** Documents ([models.js]) *)

Definition ObjectId := N.

Inductive TxType := expense | income.

Definition TxType_eqb (a b : TxType) : bool :=
  match a, b with
  | expense, expense | income, income => true
  | _, _ => false
  end.

Inductive GroupType := personal | family.

(** [streak] is a JavaScript number; it starts at 0 and is only ever set
    to 1 or to its value plus 1, so it holds small integers and [Z] is
    exact for it.  The [_id] and the timestamps of the documents play no
    part in the chat paths and are left out, except the identifiers of
    groups and categories, which other documents refer to. *)
Record User := mkUser {
  lineUserId : jsstring;
  displayName : jsstring;
  pictureUrl : jsstring;
  currentGroupId : option ObjectId;
  streak : Z;
  lastRecordDate : option jsstring;
  achievements : list jsstring;
  totalSaved : Q
}.

Record Group := mkGroup {
  group_id : ObjectId;
  group_name : jsstring;
  group_type : GroupType;
  members : list jsstring;
  createdBy : jsstring
}.

Record Category := mkCategory {
  cat_id : ObjectId;
  cat_groupId : ObjectId;
  cat_name : jsstring;
  cat_icon : jsstring;
  cat_type : TxType;
  cat_color : jsstring;
  budgetLimit : Q
}.

(** A transaction document as built by [new Transaction({...})]; the
    fields the schema requires may still be missing ([None]) and the amount
    may be [NaN] ([None]) until [save] validates the document. *)
Record Transaction := mkTransaction {
  tx_groupId : option ObjectId;
  tx_userId : jsstring;
  tx_type : TxType;
  tx_amount : option Q;
  tx_categoryId : ObjectId;
  tx_date : Z;
  tx_monthStr : jsstring;
  tx_note : jsstring
}.

Record Db := mkDb {
  users : list User;
  groups : list Group;
  categories : list Category;
  transactions : list Transaction;
  nextObjectId : ObjectId
}.

(** The local calendar fields of a [Date]; [month] counts from 0. *)
Record LocalDate := mkLocalDate {
  year : Z;
  month : Z;
  day : Z
}.

(** What one request reads from the clock: the instant, its local calendar
    day and the UTC month key [toISOString().slice(0, 7)]; and the local
    calendar day of the later reading from which the streak blocks take
    yesterday's key, a [new Date()] made after [transaction.save()] has been
    awaited, whereas today's key is read before the save. *)
Record Clock := mkClock {
  nowMs : Z;
  today : LocalDate;
  dayAfterSave : LocalDate;
  utcMonthStr : jsstring
}.

(** [String(n)] for an integer. *)
Definition numToString (n : Z) : jsstring :=
  utf16 (DecimalString.NilEmpty.string_of_int (Z.to_int n)).

(** [String(n).padStart(2, '0')]. *)
Definition pad2 (n : Z) : jsstring :=
  let s := numToString n in
  match s with
  | [] => [48; 48]%N
  | [c] => [48%N; c]
  | _ => s
  end.

Definition monthStrOf (d : LocalDate) : jsstring :=
  numToString (year d) ++ utf16 "-" ++ pad2 (month d + 1).

Definition dateStrOf (d : LocalDate) : jsstring :=
  monthStrOf d ++ utf16 "-" ++ pad2 (day d).

(** [getTodayStr] and [getCurrentMonthStr]. *)
Definition getTodayStr (clk : Clock) : jsstring := dateStrOf (today clk).
Definition getCurrentMonthStr (clk : Clock) : jsstring := monthStrOf (today clk).

Definition isLeapYear (y : Z) : bool :=
  ((y mod 4 =? 0) && negb (y mod 100 =? 0) || (y mod 400 =? 0))%Z.

Definition daysInMonth (y m : Z) : Z :=
  if (m =? 1)%Z then (if isLeapYear y then 29 else 28)
  else if ((m =? 3) || (m =? 5) || (m =? 8) || (m =? 10))%Z then 30
  else 31.

(** [d.setDate(d.getDate() - 1)]: day 0 of a month is the last day of the
    month before. *)
Definition setDateToPrevious (d : LocalDate) : LocalDate :=
  if (1 <? day d)%Z then mkLocalDate (year d) (month d) (day d - 1)
  else if (0 <? month d)%Z
       then mkLocalDate (year d) (month d - 1) (daysInMonth (year d) (month d - 1))
       else mkLocalDate (year d - 1) 11 31.

Definition yesterdayStr (clk : Clock) : jsstring :=
  dateStrOf (setDateToPrevious (dayAfterSave clk)).


(** ** Exceptions *)

Inductive Exn := SyntaxError | ValidationError.

Inductive result (A : Type) : Type :=
| Ok (a : A)
| Throw (e : Exn).

Arguments Ok {A} a.
Arguments Throw {A} e.

Definition bind {A B : Type} (r : result A) (k : A -> result B) : result B :=
  match r with
  | Ok a => k a
  | Throw e => Throw e
  end.

Notation "x <- r ;; k" := (bind r (fun x => k))
  (at level 61, r at next level, right associativity).

(** ** Tables of the source *)

(** [defaultCategories] of [models.js]: name, icon and colour. *)
Definition defaultCategories_expense : list (string * string * string) :=
  [ ("อาหาร", "🍜", "#FF6B35"); ("ชานม/กาแฟ", "🧋", "#8B4513");
    ("เดลิเวอรี่", "🛵", "#00D4AA"); ("ช้อปปิ้ง", "🛍️", "#FF3366");
    ("ของออนไลน์", "📦", "#FF9500"); ("Skincare", "💄", "#FFB6C1");
    ("บันเทิง", "🎬", "#9B5DE5"); ("เกม", "🎮", "#00FF88");
    ("สตรีมมิ่ง", "📺", "#E50914"); ("คอนเสิร์ต", "🎤", "#FF1493");
    ("เดินทาง", "🚗", "#00BFFF"); ("Grab/Bolt", "🚕", "#00D46A");
    ("ค่าเน็ต/โทร", "📱", "#007AFF"); ("ค่าบ้าน", "🏠", "#FFEB00");
    ("ค่าน้ำ-ไฟ", "💡", "#FFB800"); ("สุขภาพ", "💊", "#00CED1");
    ("การศึกษา", "📚", "#4169E1"); ("สัตว์เลี้ยง", "🐱", "#DEB887");
    ("Merch/Idol", "👕", "#FF69B4"); ("อื่นๆ", "✨", "#888888") ]%string.

Definition defaultCategories_income : list (string * string * string) :=
  [ ("เงินเดือน", "💰", "#00FF88"); ("โบนัส", "🎁", "#FFEB00");
    ("Freelance", "💻", "#00BFFF"); ("ขายของ", "🏪", "#FF3366");
    ("ลงทุน/Crypto", "₿", "#F7931A"); ("รายได้เสริม", "💵", "#9B5DE5");
    ("เงินพ่อแม่", "👨‍👩‍👧", "#FF6B6B"); ("อื่นๆ", "✨", "#888888") ]%string.

(** The keyword lists of [handleEvent]. *)
Definition expenseKeywords : list jsstring :=
  map utf16 ["จ่าย"; "ซื้อ"; "ค่า"; "กิน"; "ดื่ม"; "เสีย"; "หมด"; "เติม";
             "โอน"; "จอง"]%string.

Definition incomeKeywords : list jsstring :=
  map utf16 ["รับ"; "ได้"; "เงินเดือน"; "โบนัส"; "ขาย"; "หารายได้"; "+"]%string.

(** ** Store operations *)

Definition option_eqb {A : Type} (eqb : A -> A -> bool) (a b : option A) : bool :=
  match a, b with
  | Some x, Some y => eqb x y
  | None, None => true
  | _, _ => false
  end.

(** [User.findOne({ lineUserId })]. *)
Definition findUser (db : Db) (userId : jsstring) : option User :=
  find (fun u => str_eqb (lineUserId u) userId) (users db).

(** [Category.find({ groupId })], in storage order. *)
Definition findCategories (db : Db) (groupId : option ObjectId) : list Category :=
  filter (fun c => option_eqb N.eqb (Some (cat_groupId c)) groupId) (categories db).

(** [transaction.save()]: the schema requires the group and a castable,
    non-negative amount ([NaN] fails the cast to [Number]); the [pre('save')]
    hook then derives [monthStr] from the local month of [date], which is
    the instant of the request. *)
Definition saveTransaction (db : Db) (clk : Clock) (t : Transaction) : result Db :=
  match tx_groupId t, tx_amount t with
  | Some _, Some q =>
    if Qle_bool 0%Q q then
      let stored := mkTransaction (tx_groupId t) (tx_userId t) (tx_type t)
                      (tx_amount t) (tx_categoryId t) (tx_date t)
                      (getCurrentMonthStr clk) (tx_note t) in
      Ok (mkDb (users db) (groups db) (categories db)
               (transactions db ++ [stored]) (nextObjectId db))
    else Throw ValidationError
  | _, _ => Throw ValidationError
  end.

(** [user.save()] of a user found by [findUser]: the stored document of
    that user is replaced. *)
Fixpoint replaceUser (u' : User) (l : list User) : list User :=
  match l with
  | [] => []
  | u :: l' => if str_eqb (lineUserId u) (lineUserId u') then u' :: l'
               else u :: replaceUser u' l'
  end.

Definition saveUser (db : Db) (u' : User) : Db :=
  mkDb (replaceUser u' (users db)) (groups db) (categories db)
       (transactions db) (nextObjectId db).

(** [createDefaultCategories(groupId)]: the expense seeds, then the income
    seeds, inserted with fresh identifiers. *)
Definition seedCategory (groupId : ObjectId) (ty : TxType)
    (idx : nat) (seed : string * string * string) (first : ObjectId) : Category :=
  let '(name, icon, color) := seed in
  mkCategory (first + N.of_nat idx)%N groupId (utf16 name) (utf16 icon) ty
             (utf16 color) 0%Q.

Fixpoint seedCategories (groupId : ObjectId) (ty : TxType) (first : ObjectId)
    (idx : nat) (seeds : list (string * string * string)) : list Category :=
  match seeds with
  | [] => []
  | seed :: seeds' =>
      seedCategory groupId ty idx seed first
      :: seedCategories groupId ty first (S idx) seeds'
  end.

Definition createDefaultCategories (groupId first : ObjectId) : list Category :=
  seedCategories groupId expense first 0 defaultCategories_expense
  ++ seedCategories groupId income first
       (List.length defaultCategories_expense) defaultCategories_income.

(** ** [handleEvent]: the handler of the first [/webhook] route *)

Record Profile := mkProfile {
  profile_displayName : jsstring;
  profile_pictureUrl : jsstring
}.

Record Event := mkEvent {
  event_type : jsstring;
  message_type : jsstring;
  source_userId : jsstring;
  message_text : jsstring
}.

Definition isTextMessage (event : Event) : bool :=
  str_eqb (event_type event) (utf16 "message")
  && str_eqb (message_type event) (utf16 "text").

(** The replies of [handleEvent].  A text message is its text; a flex
    message is kept by the values interpolated into its template. *)
Inductive Reply :=
| TextMessage (text : jsstring)
| SummaryFlex (totalIncome totalExpense : option Q) (transactionCount : nat)
| RecordedFlex (type : TxType) (rawAmount : option Q)
    (heroName categoryName footerName : jsstring).

Definition errorReply : Reply :=
  TextMessage (utf16 "❌ เกิดข้อผิดพลาดในการบันทึก").

Definition categoryMissingReply : Reply :=
  TextMessage (utf16 "❌ ไม่พบหมวดหมู่และไม่สามารถบันทึกได้ กรุณาลองใหม่").

(** First contact: the user, a personal group and the default categories
    are created.  [profile] is the answer of the messaging platform, [None]
    when the call failed. *)
Definition registerUser (db : Db) (profile : option Profile) (userId : jsstring)
    : Db * User :=
  let p := match profile with
           | Some p => p
           | None => mkProfile (utf16 "ผู้ใช้") []
           end in
  let groupId := nextObjectId db in
  let personalGroup :=
    mkGroup groupId (utf16 "กระเป๋าส่วนตัว") personal [userId] userId in
  let cats := createDefaultCategories groupId (groupId + 1)%N in
  let user := mkUser userId (orElse (profile_displayName p) (utf16 "ผู้ใช้"))
                (orElse (profile_pictureUrl p) []) (Some groupId)
                0%Z None [] 0%Q in
  (mkDb (users db ++ [user]) (groups db ++ [personalGroup])
        (categories db ++ cats) (transactions db)
        (groupId + 1 + N.of_nat (List.length cats))%N,
   user).

(** [/[\d,]+(\.\d+)?/]: the text before the first match, the match and the
    text after it. *)
Definition isAmountChar (c : codeunit) : bool := isDigit c || (c =? 44)%N.

Definition numberPattern : jsstring -> option (jsstring * (jsstring * jsstring)) :=
  search
    (greedy isAmountChar 1 (fun a =>
       alt (lit exact (utf16 ".")
              (greedy isDigit 1 (fun f =>
                 accept (fun rest => (a ++ utf16 "." ++ f, rest)))))
           (accept (fun rest => (a, rest))))).

(** [itemName.replace(new RegExp(keyword, 'g'), '').trim()] for a keyword
    of the two lists.  The keywords are plain words, except ["+"], a
    quantifier with nothing to repeat, on which the [RegExp] constructor
    throws. *)
Definition stripKeyword (keyword itemName : jsstring) : result jsstring :=
  if existsb isSyntaxChar keyword then Throw SyntaxError
  else Ok (trim (removeAll keyword itemName)).

(** The two keyword loops: the first income keyword the text includes sets
    the type to income; otherwise the first expense keyword is stripped. *)
Definition detectKeyword (text itemName : jsstring) : result (TxType * jsstring) :=
  match find (includes text) incomeKeywords with
  | Some keyword =>
      itemName' <- stripKeyword keyword itemName ;; Ok (income, itemName')
  | None =>
    match find (includes text) expenseKeywords with
    | Some keyword =>
        itemName' <- stripKeyword keyword itemName ;; Ok (expense, itemName')
    | None => Ok (expense, itemName)
    end
  end.

(** [itemName.replace(/^(ค่า|เงิน|ของ)/g, '')]: anchored at the start, so
    at most one removal. *)
Definition stripCommonPrefix (s : jsstring) : jsstring :=
  match alt (lit exact (utf16 "ค่า") (accept (fun r => r)))
            (alt (lit exact (utf16 "เงิน") (accept (fun r => r)))
                 (lit exact (utf16 "ของ") (accept (fun r => r)))) s with
  | Some rest => rest
  | None => s
  end.

Definition isFallbackName (n : jsstring) : bool :=
  str_eqb n (utf16 "อื่นๆ") || str_eqb n (utf16 "Others")
  || str_eqb n (utf16 "General").

Section HandleEvent.
Context {R : Runtime}.

(** Case-insensitive equality of a category name and a label. *)
Definition sameName (label : jsstring) (c : Category) : bool :=
  str_eqb (toLowerCase (cat_name c)) (toLowerCase label).

(** "Find best match", the fallbacks and the [exactNameMatch] override. *)
Definition resolveCategory (cats : list Category)
    (categoryName textWithoutNumber : jsstring) (type : TxType)
    : option Category * TxType :=
  let category :=
    match find (sameName categoryName) cats with
    | Some c => Some c
    | None =>
      match find (fun c => TxType_eqb (cat_type c) type
                           && isFallbackName (cat_name c)) cats with
      | Some c => Some c
      | None => find (fun c => TxType_eqb (cat_type c) type) cats
      end
    end in
  match find (fun c => negb (isEmpty textWithoutNumber)
                       && sameName textWithoutNumber c) cats with
  | Some exactNameMatch => (Some exactNameMatch, cat_type exactNameMatch)
  | None => (category, type)
  end.

Definition sumAmounts (ty : TxType) (l : list Transaction) : option Q :=
  fold_left (fun acc t =>
               if TxType_eqb (tx_type t) ty then
                 match acc, tx_amount t with
                 | Some a, Some q => Some (Qred (a + q))
                 | _, _ => None
                 end
               else acc) l (Some 0%Q).

(** The summary command: totals of the group's transactions of the
    current (UTC) month; every transaction that is not an income counts as
    an expense. *)
Definition summaryReply (db : Db) (clk : Clock) (user : User) : Reply :=
  let txs := filter (fun t =>
                 option_eqb N.eqb (tx_groupId t) (currentGroupId user)
                 && str_eqb (tx_monthStr t) (utcMonthStr clk))
               (transactions db) in
  SummaryFlex (sumAmounts income txs) (sumAmounts expense txs) (List.length txs).

(** The body of [handleEvent] once the user is resolved: the summary
    command, then the transaction parser. *)
Definition classify (db : Db) (clk : Clock) (user : User) (userId text : jsstring)
    : result (Db * option Reply) :=
  let lowerText := toLowerCase text in
  if str_eqb lowerText (utf16 "สรุป") || str_eqb lowerText (utf16 "summary")
  then Ok (db, Some (summaryReply db clk user))
  else
    match numberPattern text with
    | None => Ok (db, None)
    | Some (before, (amountMatch, after)) =>
      let rawAmount := parseFloat (removeAll (utf16 ",") amountMatch) in
      let textWithoutNumber := trim (before ++ after) in
      ti <- detectKeyword text textWithoutNumber ;;
      let itemName := trim (stripCommonPrefix (snd ti)) in
      let categoryName := orElse itemName (utf16 "อื่นๆ") in
      let cats := findCategories db (currentGroupId user) in
      match resolveCategory cats categoryName textWithoutNumber (fst ti) with
      | (None, _) => Ok (db, Some categoryMissingReply)
      | (Some category, type) =>
        let transaction :=
          mkTransaction (currentGroupId user) userId type rawAmount
            (cat_id category) (nowMs clk) (utcMonthStr clk) text in
        db' <- saveTransaction db clk transaction ;;
        Ok (db', Some (RecordedFlex type rawAmount
                         (orElse itemName (cat_name category))
                         (cat_name category)
                         (orElse textWithoutNumber (cat_name category))))
      end
    end.

(** [handleEvent]: anything but a text message is ignored; the user is
    found or registered; every exception raised afterwards is caught and
    answered with the error text. *)
Definition handleEvent (db : Db) (clk : Clock) (profile : option Profile)
    (event : Event) : Db * option Reply :=
  if negb (isTextMessage event) then (db, None)
  else
    let userId := source_userId event in
    let text := trim (message_text event) in
    let (db1, user) :=
      match findUser db userId with
      | Some user => (db, user)
      | None => registerUser db profile userId
      end in
    match classify db1 clk user userId text with
    | Ok r => r
    | Throw _ => (db1, Some errorReply)
    end.

End HandleEvent.

(** ** Streak and achievements *)

(** [if (!user.achievements.includes(id)) user.achievements.push(id)]. *)
Definition unlock (id : jsstring) (unlocked : list jsstring) : list jsstring :=
  if existsb (str_eqb id) unlocked then unlocked else unlocked ++ [id].

Definition withGamification (user : User) (streak' : Z) (date : jsstring)
    (unlocked : list jsstring) : User :=
  mkUser (lineUserId user) (displayName user) (pictureUrl user)
         (currentGroupId user) streak' (Some date) unlocked (totalSaved user).

Definition nextStreak (clk : Clock) (user : User) : Z :=
  if option_eqb str_eqb (lastRecordDate user) (Some (yesterdayStr clk))
  then streak user + 1 else 1.

(** "Update streak" of the second [/webhook] handler.  [None]: the block is
    skipped and the user is not saved. *)
Definition updateStreak_webhook (clk : Clock) (user : User) : option User :=
  let todayStr := getTodayStr clk in
  if option_eqb str_eqb (lastRecordDate user) (Some todayStr) then None
  else
    let streak' := nextStreak clk user in
    let a1 := if (streak' =? 7)%Z
              then unlock (utf16 "week_streak") (achievements user)
              else achievements user in
    let a2 := if (streak' =? 30)%Z
              then unlock (utf16 "month_streak") a1 else a1 in
    let a3 := unlock (utf16 "first_record") a2 in
    Some (withGamification user streak' todayStr a3).

(** "Update streak" of [/api/simulate-line]. *)
Definition updateStreak_simulate (clk : Clock) (user : User) : option User :=
  let todayStr := getTodayStr clk in
  if option_eqb str_eqb (lastRecordDate user) (Some todayStr) then None
  else
    let streak' := nextStreak clk user in
    let a1 := if (streak' =? 7)%Z
              then unlock (utf16 "week_streak") (achievements user)
              else achievements user in
    let a2 := unlock (utf16 "first_record") a1 in
    Some (withGamification user streak' todayStr a2).

(** ** Smart Input of the second [/webhook] handler and of the simulator *)

(** [/^(.+?)\s+(\d+(?:\.\d+)?)(?:\s+(.* ))?$/] (a space added before
    the closing parenthesis of the third group): category name, amount and
    note; the note is [None] when its group does not take part. *)
Definition noteTail (categoryName amountStr : jsstring)
    : jsstring -> option (jsstring * jsstring * option jsstring) :=
  alt (greedy isWhiteSpace 1 (fun _ =>
         greedy isDot 0 (fun note =>
           eos (categoryName, amountStr, Some note))))
      (eos (categoryName, amountStr, None)).

Definition amountAndNote (categoryName : jsstring)
    : jsstring -> option (jsstring * jsstring * option jsstring) :=
  greedy isDigit 1 (fun ip =>
    alt (lit exact (utf16 ".")
           (greedy isDigit 1 (fun fp =>
              noteTail categoryName (ip ++ utf16 "." ++ fp))))
        (noteTail categoryName ip)).

Definition smartInputPattern
    : jsstring -> option (jsstring * jsstring * option jsstring) :=
  lazyPlus isDot (fun categoryName =>
    greedy isWhiteSpace 1 (fun _ => amountAndNote categoryName)).

Definition noteOrEmpty (note : option jsstring) : jsstring :=
  match note with Some n => n | None => [] end.

(** The text of the "category not found" reply of the second handler. *)
Definition notFoundText (categoryName : jsstring) (names : list jsstring) : jsstring :=
  utf16 "❌ ไม่พบหมวดหมู่ " ++ [34%N] ++ categoryName ++ [34; 10; 10]%N
  ++ utf16 "💡 ลองใช้:" ++ [10%N] ++ join (utf16 ", ") names.

Definition notRegisteredText : jsstring :=
  utf16 "❌ กรุณาลงทะเบียนในแอปก่อนใช้งาน" ++ [10; 10]%N
  ++ utf16 "🔗 เปิดแอป: [ลิงก์แอป]".

(** The messages handed to [replyToLine] by the second handler. *)
Inductive Reply2 :=
| Text2 (text : jsstring)
| SmartInputFlex (category : Category) (amount : option Q) (note : jsstring)
    (streak : Z) (badges : nat).

(** [Category.find({ groupId, type: 'expense' }).limit(8)], names only. *)
Definition suggestions (db : Db) (groupId : ObjectId) : list jsstring :=
  map cat_name
    (firstn 8 (filter (fun c => (cat_groupId c =? groupId)%N
                                && TxType_eqb (cat_type c) expense)
                      (categories db))).

Section SmartInput.
Context {R : Runtime}.

(** [Category.findOne({ groupId, name: { $regex: new RegExp(categoryName, 'i') } })]:
    the first category of the group, in storage order, whose name the
    expression matches. *)
Definition findCategoryByRegex (db : Db) (groupId : ObjectId)
    (categoryName : jsstring) : result (option Category) :=
  match regexSearch categoryName with
  | None => Throw SyntaxError
  | Some test =>
      Ok (find (fun c => (cat_groupId c =? groupId)%N && test (cat_name c))
               (categories db))
  end.

(** The Smart Input block of the second [/webhook] handler. *)
Definition smartInput (db : Db) (clk : Clock) (user : User) (groupId : ObjectId)
    (lineUserId originalText : jsstring) : result (Db * option Reply2) :=
  match smartInputPattern originalText with
  | None => Ok (db, None)
  | Some (categoryName, amountStr, note) =>
    let amount := parseFloat amountStr in
    found <- findCategoryByRegex db groupId categoryName ;;
    match found with
    | None =>
        Ok (db, Some (Text2 (notFoundText categoryName (suggestions db groupId))))
    | Some category =>
      let transaction :=
        mkTransaction (Some groupId) lineUserId (cat_type category) amount
          (cat_id category) (nowMs clk) (getCurrentMonthStr clk)
          (noteOrEmpty note) in
      db1 <- saveTransaction db clk transaction ;;
      let (db2, user') :=
        match updateStreak_webhook clk user with
        | Some user' => (saveUser db1 user', user')
        | None => (db1, user)
        end in
      Ok (db2, Some (SmartInputFlex category amount (noteOrEmpty note)
                       (streak user') (List.length (achievements user'))))
    end
  end.

End SmartInput.
(** ** The command dispatcher of the second [/webhook] handler *)

(** The branches that take a text before Smart Input; a branch with a
    regular expression carries its captures.  What a branch does with the
    store is outside this development. *)
Inductive Command :=
| IncomeMenu | IncomeHowTo | ExpenseMenu | ExpenseHowTo | Recurring
| BudgetMenu | BudgetStatus
| SetBudget (catName limitStr : jsstring)
| CategoryTop
| MonthSummary | TodaySummary | CategoryBreakdown | Balance | Spent
| Goals
| CreateGoal (goalName targetStr : jsstring)
| AddToGoal (goalName addAmountStr : jsstring)
| Achievements
| Mood (digit : codeunit)
| Note (noteText : jsstring)
| JournalToday | Recent | CategoryList | Stats | Help.

Definition isOneOf (text : jsstring) (phrases : list string) : bool :=
  existsb (fun w => str_eqb text (utf16 w)) phrases.

Definition literal (text : jsstring) (phrases : list string) (c : Command)
    : option Command :=
  if isOneOf text phrases then Some c else None.

(** [/^VERB\s+(.+?)\s+(\d+)$/i]. *)
Definition verbNameAmount (verb : string) : jsstring -> option (jsstring * jsstring) :=
  lit ignoreCase (utf16 verb)
    (greedy isWhiteSpace 1 (fun _ =>
       lazyPlus isDot (fun name =>
         greedy isWhiteSpace 1 (fun _ =>
           greedy isDigit 1 (fun digits => eos (name, digits)))))).

(** [/^(?:อารมณ์|mood)\s*(\d)$/]. *)
Definition moodPattern : jsstring -> option codeunit :=
  let rest := greedy isWhiteSpace 0 (fun _ => one isDigit (fun d => eos d)) in
  alt (lit exact (utf16 "อารมณ์") rest) (lit exact (utf16 "mood") rest).

(** [/^(?:จด|บันทึก|note)\s+(.+)$/i]. *)
Definition notePattern : jsstring -> option jsstring :=
  let rest := greedy isWhiteSpace 1 (fun _ =>
                greedy isDot 1 (fun noteText => eos noteText)) in
  alt (lit ignoreCase (utf16 "จด") rest)
      (alt (lit ignoreCase (utf16 "บันทึก") rest)
           (lit ignoreCase (utf16 "note") rest)).

Fixpoint firstSome {A : Type} (l : list (option A)) : option A :=
  match l with
  | [] => None
  | Some x :: _ => Some x
  | None :: l' => firstSome l'
  end.

(** The chain of [if (...) { ...; continue; }] blocks, in source order.
    [text] is the trimmed, lower-cased message and [originalText] the
    trimmed one. *)
Definition dispatchCommand (text originalText : jsstring) : option Command :=
  firstSome
    [ literal text ["รายรับ"; "income"; "+"]%string IncomeMenu;
      literal text ["วิธีบันทึกรายรับ"]%string IncomeHowTo;
      literal text ["รายจ่าย"; "expense"; "-"]%string ExpenseMenu;
      literal text ["วิธีบันทึกรายจ่าย"]%string ExpenseHowTo;
      literal text ["ประจำ"; "recurring"]%string Recurring;
      literal text ["งบ"; "budget"; "งบประมาณ"]%string BudgetMenu;
      literal text ["สถานะงบ"]%string BudgetStatus;
      option_map (fun m => SetBudget (fst m) (snd m))
                 (verbNameAmount "ตั้งงบ" originalText);
      literal text ["หมวด"]%string CategoryTop;
      literal text ["สรุป"; "สรุปเดือน"]%string MonthSummary;
      literal text ["สรุปวัน"; "วันนี้"]%string TodaySummary;
      literal text ["ดูหมวด"; "หมวดหมู่"]%string CategoryBreakdown;
      literal text ["เหลือเท่าไหร่"; "ยอดคงเหลือ"; "balance"]%string Balance;
      literal text ["ใช้ไปเท่าไหร่"; "ใช้จ่าย"]%string Spent;
      literal text ["เป้าหมาย"; "ดูเป้าหมาย"; "goals"]%string Goals;
      option_map (fun m => CreateGoal (fst m) (snd m))
                 (verbNameAmount "ตั้งเป้า" originalText);
      option_map (fun m => AddToGoal (fst m) (snd m))
                 (verbNameAmount "ออม" originalText);
      literal text ["ความสำเร็จ"; "achievements"; "badge"; "แบดจ์"]%string
              Achievements;
      option_map Mood (moodPattern text);
      option_map Note (notePattern originalText);
      literal text ["journal"; "ดูบันทึก"; "บันทึกวันนี้"]%string JournalToday;
      literal text ["ล่าสุด"; "รายการล่าสุด"; "recent"]%string Recent;
      literal text ["รายการหมวด"; "หมวดทั้งหมด"; "categories"]%string CategoryList;
      literal text ["สถิติ"; "stats"; "ข้อมูล"]%string Stats;
      literal text ["help"; "ช่วย"; "ช่วยเหลือ"; "คำสั่ง"]%string Help ].

(** What the loop body of the second handler does with one event. *)
Inductive Outcome :=
| Continue (db : Db) (reply : option Reply2)
| CommandBranch (c : Command)
| Crash (e : Exn).

(** [User.findOne(...).populate('currentGroupId')]: the identifier of the
    current group when the group document exists. *)
Definition populatedGroupId (db : Db) (user : User) : option ObjectId :=
  match currentGroupId user with
  | Some g => if existsb (fun gr => (group_id gr =? g)%N) (groups db)
              then Some g else None
  | None => None
  end.

Section Webhook.
Context {R : Runtime}.

Definition webhookEvent (db : Db) (clk : Clock) (event : Event) : Outcome :=
  if negb (isTextMessage event) then Continue db None
  else
    let text := toLowerCase (trim (message_text event)) in
    let originalText := trim (message_text event) in
    let lineUserId := source_userId event in
    match findUser db lineUserId with
    | None => Continue db (Some (Text2 notRegisteredText))
    | Some user =>
      match populatedGroupId db user with
      | None => Continue db (Some (Text2 notRegisteredText))
      | Some groupId =>
        match dispatchCommand text originalText with
        | Some c => CommandBranch c
        | None =>
          match smartInput db clk user groupId lineUserId originalText with
          | Ok (db', reply) => Continue db' reply
          | Throw e => Crash e
          end
        end
      end
    end.

End Webhook.
(** ** [/api/simulate-line] *)

(** The [response] object of the simulator, by its [type]. *)
Inductive SimResponse :=
| SimText (text : jsstring)
| SimCommand (c : Command)
| SimError (message : jsstring) (suggested : list jsstring)
| SimTransaction (category : Category) (amount : option Q) (note : jsstring)
    (streak : Z) (badges : nat)
| SimUnknown (message : jsstring).

Inductive SimOutcome :=
| Http400
| Http200 (db : Db) (response : SimResponse)
| Http500.

Definition simulateCommand (text : jsstring) : option Command :=
  firstSome
    [ literal text ["สรุป"; "สรุปเดือน"]%string MonthSummary;
      literal text ["สรุปวัน"; "วันนี้"]%string TodaySummary;
      literal text ["ดูหมวด"; "หมวด"; "หมวดหมู่"]%string CategoryBreakdown;
      literal text ["เป้าหมาย"; "goals"]%string Goals;
      literal text ["ความสำเร็จ"; "achievements"; "badge"]%string Achievements;
      literal text ["สถิติ"; "stats"]%string Stats;
      literal text ["help"; "ช่วย"; "ช่วยเหลือ"; "คำสั่ง"]%string Help ].

Definition simNotFoundMessage (categoryName : jsstring) : jsstring :=
  utf16 "ไม่พบ " ++ [34%N] ++ categoryName ++ [34%N].

Definition simUnknownMessage (originalText : jsstring) : jsstring :=
  [34%N] ++ originalText ++ [34%N].

Section Simulator.
Context {R : Runtime}.

(** The final [else] of the simulator: its Smart Input. *)
Definition simulateSmartInput (db : Db) (clk : Clock) (user : User)
    (groupId : ObjectId) (lineUserId originalText : jsstring)
    : result (Db * SimResponse) :=
  match smartInputPattern originalText with
  | None => Ok (db, SimUnknown (simUnknownMessage originalText))
  | Some (categoryName, amountStr, note) =>
    let amount := parseFloat amountStr in
    found <- findCategoryByRegex db groupId categoryName ;;
    match found with
    | None =>
        Ok (db, SimError (simNotFoundMessage categoryName) (suggestions db groupId))
    | Some category =>
      let transaction :=
        mkTransaction (Some groupId) lineUserId (cat_type category) amount
          (cat_id category) (nowMs clk) (getCurrentMonthStr clk)
          (noteOrEmpty note) in
      db1 <- saveTransaction db clk transaction ;;
      let (db2, user') :=
        match updateStreak_simulate clk user with
        | Some user' => (saveUser db1 user', user')
        | None => (db1, user)
        end in
      Ok (db2, SimTransaction category amount (noteOrEmpty note)
                 (streak user') (List.length (achievements user')))
    end
  end.

(** The handler behind [requireAuth], for the authenticated [lineUserId]. *)
Definition simulateLine (db : Db) (clk : Clock) (lineUserId message : jsstring)
    : SimOutcome :=
  if isEmpty message then Http400
  else
    let text := toLowerCase (trim message) in
    let originalText := trim message in
    match findUser db lineUserId with
    | None => Http200 db (SimText (utf16 "❌ กรุณาลงทะเบียนในแอปก่อนใช้งาน"))
    | Some user =>
      match populatedGroupId db user with
      | None => Http200 db (SimText (utf16 "❌ กรุณาลงทะเบียนในแอปก่อนใช้งาน"))
      | Some groupId =>
        match simulateCommand text with
        | Some c => Http200 db (SimCommand c)
        | None =>
          match simulateSmartInput db clk user groupId lineUserId originalText with
          | Ok (db', response) => Http200 db' response
          | Throw _ => Http500
          end
        end
      end
    end.

End Simulator.

(** ** Route registration

    The [POST] routes in the order [server.js] registers them.  Every
    handler ends the response itself and none calls [next], so a request is
    served by the first route registered for its path. *)

Inductive Handler :=
| WebhookHandleEvent
| AuthLogin | TransactionsCreate | GoalsCreate | RecurringCreate | GroupsSwitch
| SimulateLine
| WebhookCommands.

Definition postRoutes : list (string * Handler) :=
  [ ("/webhook", WebhookHandleEvent);
    ("/api/auth/login", AuthLogin);
    ("/api/transactions", TransactionsCreate);
    ("/api/goals", GoalsCreate);
    ("/api/recurring", RecurringCreate);
    ("/api/groups/switch", GroupsSwitch);
    ("/api/simulate-line", SimulateLine);
    ("/webhook", WebhookCommands) ]%string.

Definition routePost (path : string) : option Handler :=
  option_map snd (find (fun r => String.eqb (fst r) path) postRoutes).

(** ** The resolution order of the specification

    Written from the specification (section 4.2, step 3), to be compared
    with [resolveCategory]: (a) the category whose name equals the label,
    ignoring case; (b) the category whose name contains the label, ignoring
    case; (c) the "Others" category of the inferred type. *)

Section SpecResolution.
Context {R : Runtime}.

Definition spec_resolveCategory (cats : list Category) (label : jsstring)
    (type : TxType) : option Category :=
  match find (sameName label) cats with
  | Some c => Some c
  | None =>
    match find (fun c => includes (toLowerCase (cat_name c)) (toLowerCase label))
               cats with
    | Some c => Some c
    | None => find (fun c => TxType_eqb (cat_type c) type
                             && isFallbackName (cat_name c)) cats
    end
  end.

End SpecResolution.

(** ** A concrete run-time for evaluation

    [toLowerCase] restricted to the ASCII letters and a regular expression
    search for sources that are plain words (no syntax character), which
    then is case-insensitive containment.  On texts and category names
    made of ASCII and Thai characters, and on sources that are plain words,
    this is what the JavaScript run-time and the store compute. *)

Definition asciiToLower (c : codeunit) : codeunit :=
  if ((65 <=? c) && (c <=? 90))%N then (c + 32)%N else c.

Definition plainRuntime : Runtime := {|
  toLowerCase := map asciiToLower;
  regexSearch := fun source =>
    if existsb isSyntaxChar source then None
    else Some (fun name =>
                 includes (map asciiToLower name) (map asciiToLower source))
|}.

(** ** Auxiliary definitions of the proofs and sample data *)

Definition jsstring_dec : forall a b : jsstring, {a = b} + {a <> b} :=
  list_eq_dec N.eq_dec.


(** The user document a message writes ([None]: none) applied to the
    collection. *)
Definition applySaved (saved : option User) (l : list User) : list User :=
  match saved with
  | Some u' => replaceUser u' l
  | None => l
  end.



(** A user with a personal wallet holding the default categories, on
    1 January 2026. *)
Definition demoUserId : jsstring := utf16 "U4af4980629".
Definition demoGroupId : ObjectId := 100%N.

Definition demoUser : User :=
  mkUser demoUserId (utf16 "Mali") [] (Some demoGroupId) 0%Z None [] 0%Q.

Definition demoGroup : Group :=
  mkGroup demoGroupId (utf16 "กระเป๋าส่วนตัว") personal [demoUserId] demoUserId.

Definition demoDb : Db :=
  mkDb [demoUser] [demoGroup] (createDefaultCategories demoGroupId 101%N) [] 129%N.

Definition demoClock : Clock :=
  mkClock 1767243600000%Z (mkLocalDate 2026 0 1) (mkLocalDate 2026 0 1)
          (utf16 "2026-01").

Definition textEvent (text : string) : Event :=
  mkEvent (utf16 "message") (utf16 "text") demoUserId (utf16 text).

Definition withUser (u : User) : Db :=
  mkDb [u] [demoGroup] (createDefaultCategories demoGroupId 101%N) [] 129%N.

(** The same user on the 30th consecutive day, both streak badges of the
    simulator already earned. *)
Definition day29User : User :=
  mkUser demoUserId (utf16 "Mali") [] (Some demoGroupId) 29%Z
         (Some (utf16 "2025-12-31"))
         [utf16 "first_record"; utf16 "week_streak"] 0%Q.

(** The wallet with one more expense category, named after a streaming
    service. *)
Definition plusCategory : Category :=
  mkCategory 129%N demoGroupId (utf16 "Disney+") (utf16 "📺") expense
             (utf16 "#113CCF") 0%Q.

Definition plusDb : Db :=
  mkDb [demoUser] [demoGroup]
       (createDefaultCategories demoGroupId 101%N ++ [plusCategory]) [] 130%N.

(** [c0] is the first element of [l], in list order, that satisfies [f];
    no element of [l] satisfies [f]. *)
Definition firstWith {X : Type} (f : X -> bool) (l : list X) (c0 : X) : Prop :=
  exists l1 l2, l = l1 ++ c0 :: l2 /\ f c0 = true
                /\ forall x, In x l1 -> f x = false.

Definition noneWith {X : Type} (f : X -> bool) (l : list X) : Prop :=
  forall x, In x l -> f x = false.

Definition ofType (ty : TxType) (c : Category) : bool :=
  TxType_eqb (cat_type c) ty.

Definition fallbackOf (ty : TxType) (c : Category) : bool :=
  TxType_eqb (cat_type c) ty && isFallbackName (cat_name c).

Definition inGroupMatching (groupId : ObjectId) (test : jsstring -> bool)
    (c : Category) : bool :=
  (cat_groupId c =? groupId)%N && test (cat_name c).

Section ResolutionOrder.
Context {R : Runtime}.

(** The order in which [handleEvent] resolves a category, for the cleaned
    label [categoryName], the whole text without the number
    [textWithoutNumber] and the inferred type [ty]. *)
Definition resolvedBy (cats : list Category)
    (categoryName textWithoutNumber : jsstring) (ty : TxType)
    (r : option Category * TxType) : Prop :=
  (textWithoutNumber <> []
   /\ exists c0, firstWith (sameName textWithoutNumber) cats c0
                 /\ r = (Some c0, cat_type c0))
  \/ ((textWithoutNumber = [] \/ noneWith (sameName textWithoutNumber) cats)
      /\ snd r = ty
      /\ ((exists c0, firstWith (sameName categoryName) cats c0
                      /\ fst r = Some c0)
          \/ (noneWith (sameName categoryName) cats
              /\ ((exists c0, firstWith (fallbackOf ty) cats c0
                              /\ fst r = Some c0)
                  \/ (noneWith (fallbackOf ty) cats
                      /\ ((exists c0, firstWith (ofType ty) cats c0
                                      /\ fst r = Some c0)
                          \/ (noneWith (ofType ty) cats
                              /\ fst r = None))))))).

End ResolutionOrder.

(** A wallet in which a longer category name precedes the name it
    contains. *)
Definition supplementDb : Db :=
  mkDb [demoUser] [demoGroup]
       [ mkCategory 1%N demoGroupId (utf16 "อาหารเสริม") (utf16 "💊") expense
                    (utf16 "#00CED1") 0%Q;
         mkCategory 2%N demoGroupId (utf16 "อาหาร") (utf16 "🍜") expense
                    (utf16 "#FF6B35") 0%Q;
         mkCategory 3%N demoGroupId (utf16 "อื่นๆ") (utf16 "✨") expense
                    (utf16 "#888888") 0%Q ]
       [] 4%N.

(** A wallet that holds income categories only. *)
Definition incomeOnlyDb : Db :=
  mkDb [demoUser] [demoGroup]
       (seedCategories demoGroupId income 101%N 0 defaultCategories_income)
       [] 109%N.

(** A wallet that holds expense categories only. *)
Definition expenseOnlyDb : Db :=
  mkDb [demoUser] [demoGroup]
       (seedCategories demoGroupId expense 101%N 0 defaultCategories_expense)
       [] 121%N.

(** The names of the first [n] categories of a type, in storage order. *)
Definition firstNamesOfType (n : nat) (ty : TxType) (cats : list Category)
    : list jsstring :=
  map cat_name (firstn n (filter (ofType ty) cats)).

(** The tokens of [LABEL AMOUNT [NOTE]] as the second handler reads them:
    a label is non-empty text on one line, without a digit and not ending
    in white space; a separator is a non-empty run of white space; an
    amount is digits with an optional decimal part; a note is text on one
    line that does not start with white space. *)
Definition endsWith (p : codeunit -> bool) (s : jsstring) : bool :=
  match rev s with c :: _ => p c | [] => false end.

Definition isLabel (label : jsstring) : bool :=
  forallb isDot label && forallb (fun c => negb (isDigit c)) label
  && endsWith (fun c => negb (isWhiteSpace c)) label.

Definition isSeparator (w : jsstring) : bool :=
  negb (isEmpty w) && forallb isWhiteSpace w.

Definition isPlainAmount (a : jsstring) : bool :=
  let (ip, r) := span isDigit a in
  negb (isEmpty ip)
  && match r with
     | [] => true
     | c :: fp => (c =? 46)%N && negb (isEmpty fp) && forallb isDigit fp
     end.

Definition isNote (note : jsstring) : bool :=
  forallb isDot note
  && match note with [] => true | c :: _ => negb (isWhiteSpace c) end.

(** One transaction has been appended, with these fields. *)
Definition recorded (before after : Db) (ty : TxType) (amount : option Q)
    (categoryId : ObjectId) (note : jsstring) : Prop :=
  exists stored,
    transactions after = transactions before ++ [stored]
    /\ tx_type stored = ty /\ tx_amount stored = amount
    /\ tx_categoryId stored = categoryId /\ tx_note stored = note.

(** The command verbs that take a final amount, and the two spellings of
    the mood verb. *)
Definition amountVerbs : list string := ["ตั้งงบ"; "ตั้งเป้า"; "ออม"]%string.
Definition moodVerbs : list string := ["อารมณ์"; "mood"]%string.

(** The text ends with white space followed by a run of digits: the shape
    of the final amount of a command. *)
Definition endsWithAmountToken (s : jsstring) : bool :=
  let (d, r) := span isDigit (rev s) in
  negb (isEmpty d) && match r with c :: _ => isWhiteSpace c | [] => false end.

(** What the second handler does with a text that no command takes. *)
Definition smartInputOutcome {R : Runtime} (db : Db) (clk : Clock) (user : User)
    (groupId : ObjectId) (lineUserId originalText : jsstring) : Outcome :=
  match smartInput db clk user groupId lineUserId originalText with
  | Ok (db', reply) => Continue db' reply
  | Throw e => Crash e
  end.

(** ** Further auxiliary definitions *)

(** The number pattern at one start index, and what it amounts to without
    backtracking: the longest run of digits and commas, then a dot with
    the longest run of digits after it when there is at least one. *)
Definition numberAt : jsstring -> option (jsstring * jsstring) :=
  greedy isAmountChar 1 (fun a =>
    alt (lit exact (utf16 ".")
           (greedy isDigit 1 (fun f =>
              accept (fun rest => (a ++ utf16 "." ++ f, rest)))))
        (accept (fun rest => (a, rest)))).

Definition longestNumber (s : jsstring) : option (jsstring * jsstring) :=
  let (ip, r) := span isAmountChar s in
  if isEmpty ip then None
  else
    match r with
    | c :: r' =>
      if (c =? 46)%N then
        let (fp, r'') := span isDigit r' in
        if isEmpty fp then Some (ip, r) else Some (ip ++ utf16 "." ++ fp, r'')
      else Some (ip, r)
    | [] => Some (ip, r)
    end.

Definition startsWith (p : codeunit -> bool) (s : jsstring) : bool :=
  match s with c :: _ => p c | [] => false end.

(** The reply of the second handler and the response of the simulator
    say the same thing. *)
Definition sameAnswer (originalText : jsstring) (reply : option Reply2)
    (response : SimResponse) : Prop :=
  match reply, response with
  | None, SimUnknown message => message = simUnknownMessage originalText
  | Some (Text2 text), SimError message names =>
      exists categoryName,
        text = notFoundText categoryName names
        /\ message = simNotFoundMessage categoryName
  | Some (SmartInputFlex c a n s b), SimTransaction c' a' n' s' b' =>
      c = c' /\ a = a' /\ n = n' /\ s = s' /\ b = b'
  | _, _ => False
  end.

Definition streakBadges : list jsstring :=
  [utf16 "first_record"; utf16 "week_streak"; utf16 "month_streak"].

(** What both versions of the update do to the badge list. *)
Definition badgesKept (user u' : User) : Prop :=
  In (utf16 "first_record") (achievements u')
  /\ incl (achievements user) (achievements u')
  /\ (forall id, In id (achievements u') ->
                 In id (achievements user) \/ In id streakBadges)
  /\ (NoDup (achievements user) -> NoDup (achievements u')).

(** ** [requireAuth], [/api/auth/login] and [/api/groups/switch]

    The header and the fields of a JSON body are kept as what the handlers
    tell apart: absent ([None]) or a string; a wallet identifier of a body
    is absent or well-formed. *)

(** The projection [lineUserId], for the places where a handler has a
    local variable of that name. *)
Definition userIdOf (user : User) : jsstring := lineUserId user.

Inductive AuthOutcome :=
| Unauthorized (message : jsstring)
| Authorized (user : User) (lineUserId : jsstring).

(** [requireAuth]: the [x-line-user-id] header must name a stored user. *)
Definition requireAuth (db : Db) (header : option jsstring) : AuthOutcome :=
  match header with
  | None =>
      Unauthorized (utf16 "ไม่พบข้อมูลการยืนยันตัวตน กรุณาเข้าสู่ระบบอีกครั้ง")
  | Some lineUserId =>
    if isEmpty lineUserId
    then Unauthorized (utf16 "ไม่พบข้อมูลการยืนยันตัวตน กรุณาเข้าสู่ระบบอีกครั้ง")
    else
      match findUser db lineUserId with
      | None => Unauthorized (utf16 "ไม่พบบัญชีผู้ใช้ กรุณาลงทะเบียนก่อนใช้งาน")
      | Some user => Authorized user lineUserId
      end
  end.

Record LoginBody := mkLoginBody {
  body_lineUserId : option jsstring;
  body_displayName : option jsstring;
  body_pictureUrl : option jsstring
}.

(** A field that is present and not the empty string. *)
Definition truthy (field : option jsstring) : option jsstring :=
  match field with
  | Some s => if isEmpty s then None else Some s
  | None => None
  end.

(** [user.populate('currentGroupId')]: the group document, when there is
    one. *)
Definition populateGroup (db : Db) (groupId : option ObjectId) : option Group :=
  match groupId with
  | Some g => find (fun gr => (group_id gr =? g)%N) (groups db)
  | None => None
  end.

Inductive LoginOutcome :=
| Login400
| Login200 (db : Db) (user : User) (currentGroup : option Group).

(** [POST /api/auth/login]. *)
Definition login (db : Db) (body : LoginBody) : LoginOutcome :=
  match truthy (body_lineUserId body), truthy (body_displayName body) with
  | Some lineUserId, Some displayName =>
    let (db', user) :=
      match findUser db lineUserId with
      | None =>
        let groupId := nextObjectId db in
        let personalGroup :=
          mkGroup groupId (utf16 "กระเป๋าส่วนตัว") personal [lineUserId]
                  lineUserId in
        let cats := createDefaultCategories groupId (groupId + 1)%N in
        let user :=
          mkUser lineUserId displayName
                 (match truthy (body_pictureUrl body) with
                  | Some p => p
                  | None => []
                  end)
                 (Some groupId) 0%Z None [] 0%Q in
        (mkDb (users db ++ [user]) (groups db ++ [personalGroup])
              (categories db ++ cats) (transactions db)
              (groupId + 1 + N.of_nat (List.length cats))%N,
         user)
      | Some user =>
        let user' :=
          mkUser (userIdOf user) displayName
                 (match truthy (body_pictureUrl body) with
                  | Some p => p
                  | None => pictureUrl user
                  end)
                 (currentGroupId user) (streak user) (lastRecordDate user)
                 (achievements user) (totalSaved user) in
        (saveUser db user', user')
      end in
    Login200 db' user (populateGroup db' (currentGroupId user))
  | _, _ => Login400
  end.

Inductive SwitchOutcome :=
| Switch401
| Switch400
| Switch404
| Switch200 (db : Db) (group : Group).

(** [POST /api/groups/switch], behind [requireAuth]. *)
Definition groupsSwitch (db : Db) (header : option jsstring)
    (groupId : option ObjectId) : SwitchOutcome :=
  match requireAuth db header with
  | Unauthorized _ => Switch401
  | Authorized user lineUserId =>
    match groupId with
    | None => Switch400
    | Some gid =>
      match find (fun g => (group_id g =? gid)%N
                           && existsb (str_eqb lineUserId) (members g))
                 (groups db) with
      | None => Switch404
      | Some group =>
        let user' :=
          mkUser (userIdOf user) (displayName user) (pictureUrl user)
                 (Some (group_id group)) (streak user) (lastRecordDate user)
                 (achievements user) (totalSaved user) in
        Switch200 (saveUser db user') group
      end
    end
  end.

(** ** [GET /api/achievements]

    The identifiers of the [achievements] table of [models.js], in its
    order, and the data of the response: for each entry of the table
    whether the user has unlocked it, the number of badges the user holds
    and the size of the table. *)
Definition achievementIds : list jsstring :=
  map utf16 ["first_record"; "week_streak"; "month_streak"; "saver_100";
             "saver_1000"; "saver_10000"; "goal_complete"; "budget_master";
             "no_boba"; "journal_lover"]%string.

Record AchievementsData := mkAchievementsData {
  data_unlocked : list bool;
  unlockedCount : nat;
  totalCount : nat;
  data_streak : Z;
  data_totalSaved : Q
}.

Inductive AchievementsOutcome :=
| Achievements401
| Achievements200 (data : AchievementsData)
| Achievements500.

Definition getAchievements (db : Db) (header : option jsstring)
    : AchievementsOutcome :=
  match requireAuth db header with
  | Unauthorized _ => Achievements401
  | Authorized _ lineUserId =>
    match findUser db lineUserId with
    | Some user =>
        Achievements200
          (mkAchievementsData
             (map (fun id => existsb (str_eqb id) (achievements user))
                  achievementIds)
             (List.length (achievements user))
             (List.length achievementIds)
             (streak user) (totalSaved user))
    | None => Achievements500
    end
  end.

(** Every stored user holds each badge at most once, and only badges of the
    table. *)
Definition badgesWellFormed (db : Db) : Prop :=
  Forall (fun u => NoDup (achievements u)
                   /\ incl (achievements u) achievementIds)
         (users db).

(** [GET /api/groups], behind [requireAuth]: the groups that list the user
    among their members, [None] when the request is not authenticated. *)
Definition getGroups (db : Db) (header : option jsstring) : option (list Group) :=
  match requireAuth db header with
  | Unauthorized _ => None
  | Authorized _ lineUserId =>
      Some (filter (fun g => existsb (str_eqb lineUserId) (members g))
                   (groups db))
  end.

(** * Properties *)

(** ** Strings *)

Lemma str_eqb_spec a b : reflect (a = b) (str_eqb a b).
Proof.
  revert b; induction a as [|x a IH]; intros [|y b]; simpl;
    try (constructor; congruence).
  destruct (N.eqb_spec x y) as [->|Hxy]; simpl.
  - destruct (IH b) as [->|Hab]; constructor; congruence.
  - constructor; congruence.
Qed.

Lemma str_eqb_refl a : str_eqb a a = true.
Proof. destruct (str_eqb_spec a a); congruence. Qed.

Lemma str_eqb_eq a b : str_eqb a b = true <-> a = b.
Proof. destruct (str_eqb_spec a b); split; congruence. Qed.

Lemma str_eqb_neq a b : str_eqb a b = false <-> a <> b.
Proof. destruct (str_eqb_spec a b); split; congruence. Qed.

Lemma existsb_str_eqb_In id l : existsb (str_eqb id) l = true <-> In id l.
Proof.
  rewrite existsb_exists; split.
  - intros (x & Hx & He). apply str_eqb_eq in He. now subst.
  - intros H. exists id. split; [assumption | apply str_eqb_refl].
Qed.




(** ** Calendar days: today's key never equals yesterday's *)









(** ** Streak and achievements *)

Lemma unlock_In id x l : In id l -> In id (unlock x l).
Proof.
  unfold unlock. destruct (existsb (str_eqb x) l); auto.
  intros H. apply in_or_app. now left.
Qed.

Lemma unlock_member id l : In id l -> unlock id l = l.
Proof.
  intros H. unfold unlock.
  now rewrite (proj2 (existsb_str_eqb_In id l) H).
Qed.

Lemma unlock_count id x l :
  In id l ->
  count_occ jsstring_dec (unlock x l) id = count_occ jsstring_dec l id.
Proof.
  intros H. unfold unlock.
  destruct (existsb (str_eqb x) l) eqn:E; [reflexivity|].
  rewrite count_occ_app. simpl.
  destruct (jsstring_dec x id) as [->|Hne]; [|lia].
  apply existsb_str_eqb_In in H. congruence.
Qed.

Lemma unlock_fresh id l :
  ~ In id l -> count_occ jsstring_dec (unlock id l) id = 1%nat.
Proof.
  intros H. unfold unlock.
  destruct (existsb (str_eqb id) l) eqn:E.
  - apply existsb_str_eqb_In in E. contradiction.
  - rewrite count_occ_app. simpl.
    destruct (jsstring_dec id id); [|congruence].
    rewrite (proj1 (count_occ_not_In jsstring_dec l id) H). reflexivity.
Qed.

Lemma unlock_other id x l :
  x <> id ->
  count_occ jsstring_dec (unlock x l) id = count_occ jsstring_dec l id.
Proof.
  intros H. unfold unlock.
  destruct (existsb (str_eqb x) l); [reflexivity|].
  rewrite count_occ_app. simpl.
  destruct (jsstring_dec x id); [contradiction|lia].
Qed.

Ltac unlock_steps :=
  repeat match goal with
  | |- context [if ?b then unlock ?x ?l else ?l] => destruct b
  | |- In _ (unlock _ _) => apply unlock_In
  | |- count_occ _ (unlock _ _) _ = _ =>
      rewrite unlock_count; [|repeat (apply unlock_In); assumption]
  end.

Lemma updateStreak_webhook_count id clk user u' :
  In id (achievements user) ->
  updateStreak_webhook clk user = Some u' ->
  count_occ jsstring_dec (achievements u') id
  = count_occ jsstring_dec (achievements user) id.
Proof.
  intros Hin. unfold updateStreak_webhook.
  destruct (option_eqb str_eqb _ _); [discriminate|].
  intros [= <-]. simpl.
  unlock_steps; reflexivity || assumption.
Qed.

Lemma updateStreak_simulate_count id clk user u' :
  In id (achievements user) ->
  updateStreak_simulate clk user = Some u' ->
  count_occ jsstring_dec (achievements u') id
  = count_occ jsstring_dec (achievements user) id.
Proof.
  intros Hin. unfold updateStreak_simulate.
  destruct (option_eqb str_eqb _ _); [discriminate|].
  intros [= <-]. simpl.
  unlock_steps; reflexivity || assumption.
Qed.

(** C9.  Unlocking an achievement that the user already holds changes
    nothing: the guarded push leaves the list as it is, and after the
    streak update of either path the identifier occurs in the list exactly
    as often as before, so no duplicate entry is appended. *)
Theorem unlock_already_unlocked (id : jsstring) (clk : Clock) (user : User) :
  In id (achievements user) ->
  unlock id (achievements user) = achievements user
  /\ (forall u', updateStreak_webhook clk user = Some u' ->
        count_occ jsstring_dec (achievements u') id
        = count_occ jsstring_dec (achievements user) id)
  /\ (forall u', updateStreak_simulate clk user = Some u' ->
        count_occ jsstring_dec (achievements u') id
        = count_occ jsstring_dec (achievements user) id).
Proof.
  intros Hin. split; [now apply unlock_member|].
  split; intros u' Hu.
  - eapply updateStreak_webhook_count; eauto.
  - eapply updateStreak_simulate_count; eauto.
Qed.

Lemma unlock_already_unlocked_witness :
  In (utf16 "week_streak") (achievements day29User)
  /\ unlock (utf16 "week_streak") (achievements day29User)
     = achievements day29User.
Proof.
  assert (H : In (utf16 "week_streak") (achievements day29User))
    by (right; left; reflexivity).
  split; [exact H|].
  exact (proj1 (unlock_already_unlocked (utf16 "week_streak") demoClock day29User H)).
Defined.








(** The user collection after a recorded message is the collection before
    it with the document written by the streak update, if any. *)
Lemma saveTransaction_users db clk t db' :
  saveTransaction db clk t = Ok db' ->
  users db' = users db /\ groups db' = groups db
  /\ categories db' = categories db /\ nextObjectId db' = nextObjectId db
  /\ exists stored, transactions db' = transactions db ++ [stored]
       /\ tx_note stored = tx_note t /\ tx_type stored = tx_type t
       /\ tx_amount stored = tx_amount t
       /\ tx_categoryId stored = tx_categoryId t
       /\ tx_groupId stored = tx_groupId t.
Proof.
  unfold saveTransaction.
  destruct (tx_groupId t); [|discriminate].
  destruct (tx_amount t); [|discriminate].
  destruct (Qle_bool 0 q); [|discriminate].
  intros [= <-]. simpl. repeat split; eauto 10.
Qed.

Section StreakPaths.
Context {R : Runtime}.


Lemma simulateSmartInput_recorded db clk user groupId uid text db' c amt note s b :
  simulateSmartInput db clk user groupId uid text
  = Ok (db', SimTransaction c amt note s b) ->
  users db' = applySaved (updateStreak_simulate clk user) (users db).
Proof.
  unfold simulateSmartInput.
  destruct (smartInputPattern text) as [[[cn am] nt]|]; [|discriminate].
  destruct (findCategoryByRegex db groupId cn) as [[cat|]|]; simpl;
    try discriminate.
  destruct (saveTransaction _ _ _) as [db1|] eqn:Hs; simpl; [|discriminate].
  apply saveTransaction_users in Hs. destruct Hs as (Hu & _).
  destruct (updateStreak_simulate clk user); intros [= <- _ _ _ _ _]; simpl;
    congruence.
Qed.

Lemma findUser_id db uid u : findUser db uid = Some u -> lineUserId u = uid.
Proof.
  unfold findUser. intros H. apply find_some in H. now apply str_eqb_eq.
Qed.

Lemma find_replaceUser uid u u' l :
  find (fun v => str_eqb (lineUserId v) uid) l = Some u ->
  lineUserId u' = uid ->
  find (fun v => str_eqb (lineUserId v) uid) (replaceUser u' l) = Some u'.
Proof.
  intros H Hu'. induction l as [|v l IH]; simpl in *; [discriminate|].
  rewrite Hu'. destruct (str_eqb (lineUserId v) uid) eqn:E.
  - simpl. now rewrite Hu', str_eqb_refl.
  - simpl. rewrite E. now apply IH.
Qed.


Lemma updateStreak_simulate_id clk user u' :
  updateStreak_simulate clk user = Some u' -> lineUserId u' = lineUserId user.
Proof.
  unfold updateStreak_simulate. destruct (option_eqb _ _ _); [discriminate|].
  now intros [= <-].
Qed.





End StreakPaths.


(** Outside the hypothesis of C2: the message of 1 January is saved while
    the local day turns, so the later reading is 2 January and yesterday's
    key is today's key.  The last-record day of the sender, 31 December, is
    then not "yesterday" for the streak block, and the streak of 29 is set
    to 1. *)
Example streak_when_save_crosses_midnight :
  let clk := mkClock 1767286799999%Z (mkLocalDate 2026 0 1) (mkLocalDate 2026 0 2)
                     (utf16 "2026-01") in
  yesterdayStr clk = getTodayStr clk
  /\ match @simulateLine plainRuntime (withUser day29User) clk demoUserId
             (utf16 "อาหาร 150") with
     | Http200 db' (SimTransaction _ _ _ s _) =>
         s = 1%Z /\ map streak (users db') = [1%Z]
         /\ map lastRecordDate (users db') = [Some (utf16 "2026-01-01")]
     | _ => False
     end.
Proof. vm_compute. repeat split; reflexivity. Qed.

(** Thresholds in the second webhook handler: reaching 7 (or 30) puts the
    badge in the list once; a user who already holds it keeps one entry. *)
Lemma updateStreak_webhook_week clk user u' :
  updateStreak_webhook clk user = Some u' -> streak u' = 7%Z ->
  ~ In (utf16 "week_streak") (achievements user) ->
  count_occ jsstring_dec (achievements u') (utf16 "week_streak") = 1%nat.
Proof.
  unfold updateStreak_webhook.
  destruct (option_eqb str_eqb _ _); [discriminate|].
  intros [= <-]. simpl. intros -> Hnin. simpl.
  rewrite unlock_other by (vm_compute; discriminate).
  now apply unlock_fresh.
Qed.

Lemma updateStreak_webhook_month clk user u' :
  updateStreak_webhook clk user = Some u' -> streak u' = 30%Z ->
  ~ In (utf16 "month_streak") (achievements user) ->
  count_occ jsstring_dec (achievements u') (utf16 "month_streak") = 1%nat.
Proof.
  unfold updateStreak_webhook.
  destruct (option_eqb str_eqb _ _); [discriminate|].
  intros [= <-]. simpl. intros -> Hnin. simpl.
  rewrite unlock_other by (vm_compute; discriminate).
  now apply unlock_fresh.
Qed.

(** The simulator's update never touches the 30-day badge, whatever the
    streak becomes. *)
Lemma updateStreak_simulate_never_month clk user u' :
  updateStreak_simulate clk user = Some u' ->
  count_occ jsstring_dec (achievements u') (utf16 "month_streak")
  = count_occ jsstring_dec (achievements user) (utf16 "month_streak").
Proof.
  unfold updateStreak_simulate.
  destruct (option_eqb str_eqb _ _); [discriminate|].
  intros [= <-]. simpl.
  rewrite unlock_other by (vm_compute; discriminate).
  destruct (_ =? 7)%Z; [|reflexivity].
  now rewrite unlock_other by (vm_compute; discriminate).
Qed.

(** C3.  The simulator's update has no check for the 30-day badge: a user
    on a 29-day streak who records through [/api/simulate-line] reaches a
    streak of 30 and keeps the achievements held before, without
    ["month_streak"]; the same message through the second webhook handler
    unlocks it. *)
Theorem simulator_skips_month_streak :
  match @simulateLine plainRuntime (withUser day29User) demoClock demoUserId
          (utf16 "อาหาร 150") with
  | Http200 db' (SimTransaction _ _ _ s _) =>
      s = 30%Z /\ map streak (users db') = [30%Z]
      /\ map achievements (users db')
         = [[utf16 "first_record"; utf16 "week_streak"]]
  | _ => False
  end
  /\ match @webhookEvent plainRuntime (withUser day29User) demoClock
             (textEvent "อาหาร 150") with
     | Continue db' _ =>
         map streak (users db') = [30%Z]
         /\ map achievements (users db')
            = [[utf16 "first_record"; utf16 "week_streak"; utf16 "month_streak"]]
     | _ => False
     end.
Proof. vm_compute. repeat split; reflexivity. Qed.

(** ** [handleEvent] writes at most one transaction *)

Section Frame.
Context {R : Runtime}.

Lemma classify_frame db clk user uid text db' reply :
  classify db clk user uid text = Ok (db', reply) ->
  users db' = users db /\ groups db' = groups db
  /\ categories db' = categories db /\ nextObjectId db' = nextObjectId db
  /\ ((db' = db /\ forall ty a h c f, reply <> Some (RecordedFlex ty a h c f))
      \/ exists stored ty a h c f,
           transactions db' = transactions db ++ [stored]
           /\ reply = Some (RecordedFlex ty a h c f)
           /\ tx_note stored = text /\ tx_type stored = ty).
Proof.
  unfold classify.
  destruct (_ || _).
  { intros [= <- <-]. repeat split; auto. left. split; [auto|discriminate]. }
  destruct (numberPattern text) as [[before [amountMatch after]]|].
  2:{ intros [= <- <-]. repeat split; auto. left. split; [auto|discriminate]. }
  destruct (detectKeyword _ _) as [ti|]; simpl; [|discriminate].
  destruct (resolveCategory _ _ _ _) as [[category|] type].
  2:{ intros [= <- <-]. repeat split; auto. left. split; [auto|discriminate]. }
  destruct (saveTransaction _ _ _) as [db1|] eqn:Hs; simpl; [|discriminate].
  intros [= <- <-].
  apply saveTransaction_users in Hs.
  destruct Hs as (Hu & Hg & Hc & Hn & stored & Ht & Hnote & Hty & _).
  repeat split; auto. right. simpl in *. eauto 12.
Qed.

Lemma handleEvent_registered db clk profile event user :
  findUser db (source_userId event) = Some user ->
  handleEvent db clk profile event
  = if negb (isTextMessage event) then (db, None)
    else match classify db clk user (source_userId event)
                 (trim (message_text event)) with
         | Ok r => r
         | Throw _ => (db, Some errorReply)
         end.
Proof. intros H. unfold handleEvent. now rewrite H. Qed.

(** C10.  The handler that serves [POST /webhook] is [handleEvent], the
    first one registered for the path.  For a message of a user who is
    already registered it leaves the users (streak, last-record date,
    achievements and total saved included), the groups and the categories
    as they are; the transactions are unchanged too, unless the reply is the
    "recorded" card, in which case exactly one transaction has been
    appended and nothing else written. *)
Theorem reachable_webhook_never_writes_user
    (db : Db) (clk : Clock) (profile : option Profile) (event : Event)
    (user : User) :
  findUser db (source_userId event) = Some user ->
  routePost "/webhook" = Some WebhookHandleEvent
  /\ let after := handleEvent db clk profile event in
     users (fst after) = users db
     /\ groups (fst after) = groups db
     /\ categories (fst after) = categories db
     /\ ((transactions (fst after) = transactions db
          /\ forall ty a h c f, snd after <> Some (RecordedFlex ty a h c f))
         \/ exists stored ty a h c f,
              transactions (fst after) = transactions db ++ [stored]
              /\ snd after = Some (RecordedFlex ty a h c f)).
Proof.
  intros Hu. split; [reflexivity|]. cbv zeta.
  rewrite (handleEvent_registered _ _ _ _ Hu).
  destruct (negb (isTextMessage event)).
  { simpl. repeat split; auto. left. split; [auto|discriminate]. }
  destruct (classify _ _ _ _ _) as [[db' reply]|e] eqn:Hc.
  - apply classify_frame in Hc.
    destruct Hc as (H1 & H2 & H3 & _ & [[-> Hr]|(st & ty & a & h & c & f & Ht & Hr & _)]);
      simpl; repeat split; auto.
    right. eauto 10.
  - simpl. repeat split; auto. left. split; [auto|discriminate].
Qed.

End Frame.

Lemma reachable_webhook_never_writes_user_witness :
  findUser demoDb (source_userId (textEvent "อาหาร 150")) = Some demoUser
  /\ users (fst (@handleEvent plainRuntime demoDb demoClock None
                   (textEvent "อาหาร 150"))) = users demoDb.
Proof.
  split; [reflexivity|].
  exact (proj1 (proj2 (@reachable_webhook_never_writes_user plainRuntime demoDb
                         demoClock None (textEvent "อาหาร 150") demoUser eq_refl))).
Defined.

(** ** The matchers *)

Lemma span_spec p s :
  s = fst (span p s) ++ snd (span p s)
  /\ forallb p (fst (span p s)) = true
  /\ match snd (span p s) with [] => True | c :: _ => p c = false end.
Proof.
  induction s as [|c s IH]; simpl; [auto|].
  destruct (p c) eqn:Hc.
  - destruct (span p s) as [a r]; simpl in *.
    destruct IH as (-> & Ha & Hr). rewrite Hc. auto.
  - simpl. auto.
Qed.

Lemma span_app p a r :
  forallb p a = true ->
  match r with [] => True | c :: _ => p c = false end ->
  span p (a ++ r) = (a, r).
Proof.
  intros Ha Hr. induction a as [|c a IH]; simpl in *.
  - destruct r as [|c r]; [reflexivity|]. simpl. now rewrite Hr.
  - apply andb_true_iff in Ha. destruct Ha as [Hc Ha].
    rewrite Hc, (IH Ha). reflexivity.
Qed.

Lemma span_all p a : forallb p a = true -> span p a = (a, []).
Proof.
  intros H. rewrite <- (app_nil_r a) at 1. now apply span_app.
Qed.

Lemma span_head_fails p c s : p c = false -> span p (c :: s) = ([], c :: s).
Proof. intros H. simpl. now rewrite H. Qed.

Lemma firstn_incl {X : Type} (n : nat) (l : list X) (x : X) :
  In x (firstn n l) -> In x l.
Proof.
  intros H. rewrite <- (firstn_skipn n l). apply in_or_app. now left.
Qed.

Section MatcherLemmas.
Variable A : Type.
Implicit Types (k : jsstring -> matcher A) (m : matcher A).

Lemma tryLongest_first min n k s x :
  k (firstn n s) (skipn n s) = Some x -> tryLongest min n k s = Some x.
Proof. intros H. destruct n; simpl; simpl in H; now rewrite H. Qed.

Lemma tryLongest_some min n k s x :
  (min <= n)%nat ->
  tryLongest min n k s = Some x ->
  exists j, (min <= j <= n)%nat /\ k (firstn j s) (skipn j s) = Some x.
Proof.
  induction n as [|n IH]; intros Hmin; simpl.
  - destruct (k [] s) eqn:E; [|discriminate].
    intros [= ->]. exists 0%nat. split; [lia|assumption].
  - destruct (k _ _) eqn:E.
    + intros [= ->]. exists (S n). split; [lia|assumption].
    + destruct (Nat.ltb_spec n min) as [Hlt|Hge]; [discriminate|].
      intros H. destruct (IH Hge H) as (j & Hj & Hk).
      exists j. split; [lia|assumption].
Qed.

Lemma tryLongest_none min n k s :
  (forall j, (j <= n)%nat -> k (firstn j s) (skipn j s) = None) ->
  tryLongest min n k s = None.
Proof.
  induction n as [|n IH]; intros H.
  - pose proof (H 0%nat (Nat.le_refl _)) as H0. simpl in *. now rewrite H0.
  - pose proof (H (S n) (Nat.le_refl _)) as H0. cbn [tryLongest].
    rewrite H0.
    destruct (n <? min)%nat; [reflexivity|]. apply IH. intros; apply H; lia.
Qed.

Lemma greedy_first p min k a r x :
  forallb p a = true ->
  match r with [] => True | c :: _ => p c = false end ->
  (min <= List.length a)%nat ->
  k a r = Some x ->
  greedy p min k (a ++ r) = Some x.
Proof.
  intros Ha Hr Hmin Hk. unfold greedy.
  rewrite (span_app _ _ _ Ha Hr). simpl.
  destruct (Nat.ltb_spec (List.length a) min); [lia|].
  apply tryLongest_first.
  now rewrite firstn_app, firstn_all, Nat.sub_diag, skipn_app, skipn_all,
    Nat.sub_diag, app_nil_r.
Qed.

Lemma greedy_some p min k s x :
  greedy p min k s = Some x ->
  exists a r, s = a ++ r /\ forallb p a = true
              /\ (min <= List.length a)%nat /\ k a r = Some x.
Proof.
  unfold greedy.
  destruct (Nat.ltb_spec (List.length (fst (span p s))) min) as [Hlt|Hge];
    [discriminate|].
  intros H. apply tryLongest_some in H; [|assumption].
  destruct H as (j & Hj & Hk).
  destruct (span_spec p s) as (Hs & Hall & _).
  assert (Hlen : (j <= List.length s)%nat).
  { rewrite Hs at 1. rewrite length_app. lia. }
  exists (firstn j s), (skipn j s). split; [now rewrite firstn_skipn|].
  split; [|split; [rewrite length_firstn; lia|exact Hk]].
  rewrite Hs, firstn_app.
  replace (j - List.length (fst (span p s)))%nat with 0%nat by lia.
  rewrite firstn_O, app_nil_r.
  rewrite forallb_forall in *. intros c Hc. apply Hall.
  eapply firstn_incl; eauto.
Qed.

Lemma greedy_head_fails p min k s :
  (0 < min)%nat ->
  match s with [] => True | c :: _ => p c = false end ->
  greedy p min k s = None.
Proof.
  intros Hmin Hs. unfold greedy.
  destruct s as [|c s]; simpl.
  - destruct (Nat.ltb_spec 0 min); [reflexivity|lia].
  - rewrite Hs. simpl. destruct (Nat.ltb_spec 0 min); [reflexivity|lia].
Qed.

Lemma lit_exact w m r : lit exact w m (w ++ r) = m r.
Proof.
  unfold lit. rewrite length_app.
  destruct (Nat.leb_spec (List.length w) (List.length w + List.length r)); [|lia].
  assert (Hw : forallb (fun xy => exact (fst xy) (snd xy)) (combine w (w ++ r)) = true).
  { clear. induction w as [|c w IH]; simpl; [reflexivity|].
    unfold exact at 1. now rewrite N.eqb_refl. }
  rewrite Hw. simpl.
  now rewrite skipn_app, skipn_all, Nat.sub_diag.
Qed.

Lemma lit_some eqc w (m : matcher A) s x :
  lit eqc w m s = Some x ->
  (List.length w <= List.length s)%nat
  /\ forallb (fun xy => eqc (fst xy) (snd xy)) (combine w s) = true
  /\ m (skipn (List.length w) s) = Some x.
Proof.
  unfold lit. destruct (Nat.leb_spec (List.length w) (List.length s)); simpl;
    [|discriminate].
  destruct (forallb _ _); [auto|discriminate].
Qed.

Lemma lit_head_mismatch eqc w (m : matcher A) s :
  match w, s with
  | d :: _, c :: _ => eqc d c = false
  | _ :: _, [] => True
  | [], _ => False
  end ->
  lit eqc w m s = None.
Proof.
  unfold lit. destruct w as [|d w]; [tauto|].
  destruct s as [|c s]; simpl; [reflexivity|].
  intros ->. simpl. now rewrite andb_false_r.
Qed.

Lemma eos_some (x y : A) s : eos x s = Some y -> s = [] /\ y = x.
Proof. destruct s; simpl; [intros [= ->]; auto|discriminate]. Qed.

Lemma tryShortest_some p k pre s x :
  tryShortest p k pre s = Some x ->
  exists a r, s = a ++ r /\ forallb p a = true /\ k (pre ++ a) r = Some x.
Proof.
  revert pre. induction s as [|c s IH]; intros pre; simpl.
  - destruct (k pre []) eqn:E; [|discriminate].
    intros [= ->]. exists [], []. rewrite !app_nil_r. repeat split; assumption.
  - destruct (k pre (c :: s)) eqn:E.
    + intros [= ->]. exists [], (c :: s). rewrite app_nil_r.
      repeat split; assumption.
    + destruct (p c) eqn:Hc; [|discriminate].
      intros H. destruct (IH _ H) as (a & r & -> & Ha & Hk).
      exists (c :: a), r. simpl. rewrite Hc, Ha.
      rewrite <- app_assoc in Hk. repeat split; assumption.
Qed.

Lemma lazyPlus_some p k s x :
  lazyPlus p k s = Some x ->
  exists a r, s = a ++ r /\ a <> [] /\ forallb p a = true /\ k a r = Some x.
Proof.
  unfold lazyPlus. destruct s as [|c s]; [discriminate|].
  destruct (p c) eqn:Hc; [|discriminate].
  intros H. apply tryShortest_some in H.
  destruct H as (a & r & -> & Ha & Hk).
  exists (c :: a), r. simpl. rewrite Hc, Ha. repeat split; auto. discriminate.
Qed.

(** A lazy run reaches the split [a ++ r] when every shorter split is
    refused by the rest of the pattern. *)
Lemma tryShortest_skip p k pre a r :
  forallb p a = true ->
  (forall y z, a = y ++ z -> z <> [] -> k (pre ++ y) (z ++ r) = None) ->
  tryShortest p k pre (a ++ r) = tryShortest p k (pre ++ a) r.
Proof.
  revert pre. induction a as [|c a IH]; intros pre Ha Hk.
  - simpl. now rewrite app_nil_r.
  - simpl in Ha. apply andb_true_iff in Ha. destruct Ha as [Hc Ha].
    assert (H0 : k pre (c :: a ++ r) = None).
    { specialize (Hk [] (c :: a) eq_refl). rewrite app_nil_r in Hk.
      apply Hk. discriminate. }
    cbn [app tryShortest]. rewrite H0, Hc, IH; auto.
    + now rewrite <- app_assoc.
    + intros y z -> Hz. rewrite <- app_assoc. apply (Hk (c :: y) z); auto.
Qed.

Lemma tryShortest_first p k pre s x :
  k pre s = Some x -> tryShortest p k pre s = Some x.
Proof. intros H. destruct s; simpl; now rewrite H. Qed.

Lemma lazyPlus_exact p k c a r x :
  forallb p (c :: a) = true ->
  (forall y z, a = y ++ z -> z <> [] -> k (c :: y) (z ++ r) = None) ->
  k (c :: a) r = Some x ->
  lazyPlus p k ((c :: a) ++ r) = Some x.
Proof.
  intros Hp Hk Hx. simpl in Hp. apply andb_true_iff in Hp.
  destruct Hp as [Hc Ha]. simpl. rewrite Hc.
  rewrite tryShortest_skip; auto.
  apply tryShortest_first. exact Hx.
Qed.

Lemma search_first m s x : m s = Some x -> search m s = Some ([], x).
Proof. intros H. destruct s; simpl; now rewrite H. Qed.

Lemma search_skip m pre s :
  (forall y z, pre = y ++ z -> z <> [] -> m (z ++ s) = None) ->
  search m (pre ++ s)
  = match search m s with
    | Some (before, x) => Some (pre ++ before, x)
    | None => None
    end.
Proof.
  induction pre as [|c pre IH]; intros H.
  - simpl. destruct (search m s) as [[b x]|]; reflexivity.
  - assert (H0 : m (c :: pre ++ s) = None).
    { apply (H [] (c :: pre)); [reflexivity|discriminate]. }
    cbn [app search]. rewrite H0, IH.
    + destruct (search m s) as [[b x]|]; reflexivity.
    + intros y z -> Hz. apply (H (c :: y) z); auto.
Qed.

End MatcherLemmas.

(** ** The number pattern of [handleEvent] *)

Lemma numberPattern_none text :
  forallb (fun c => negb (isAmountChar c)) text = true ->
  numberPattern text = None.
Proof.
  unfold numberPattern. induction text as [|c text IH]; intros H.
  - reflexivity.
  - simpl in H. apply andb_true_iff in H. destruct H as [Hc H].
    apply negb_true_iff in Hc.
    cbn [search]. rewrite greedy_head_fails by (auto; lia).
    now rewrite (IH H).
Qed.

Lemma numberPattern_after pre amount :
  forallb (fun c => negb (isAmountChar c)) pre = true ->
  numberPattern amount = Some ([], (amount, [])) ->
  numberPattern (pre ++ amount) = Some (pre, (amount, [])).
Proof.
  unfold numberPattern. intros Hpre Ha.
  rewrite search_skip.
  - rewrite Ha. now rewrite app_nil_r.
  - intros y z -> Hz. destruct z as [|c z]; [congruence|].
    rewrite forallb_app in Hpre. apply andb_true_iff in Hpre.
    destruct Hpre as [_ Hz']. simpl in Hz'.
    apply andb_true_iff in Hz'. destruct Hz' as [Hc _].
    apply negb_true_iff in Hc.
    apply greedy_head_fails; [lia|exact Hc].
Qed.

Section NoNumber.
Context {R : Runtime}.

(** A text without a digit and without a comma, other than the summary
    command, is dropped by [handleEvent]: no reply and an unchanged store. *)
Lemma classify_without_number db clk user uid text :
  forallb (fun c => negb (isAmountChar c)) text = true ->
  str_eqb (toLowerCase text) (utf16 "สรุป")
  || str_eqb (toLowerCase text) (utf16 "summary") = false ->
  classify db clk user uid text = Ok (db, None).
Proof.
  intros Hn Hs. unfold classify. rewrite Hs.
  now rewrite (numberPattern_none _ Hn).
Qed.

End NoNumber.

(** C4.  The text ["hello, world"] holds no number and is no command, but
    the number pattern matches its comma: [handleEvent] goes on with the
    amount [NaN], the store refuses the transaction, and the user gets the
    error reply instead of silence. *)
Theorem comma_text_is_answered :
  numberPattern (utf16 "hello, world")
  = Some (utf16 "hello", (utf16 ",", utf16 " world"))
  /\ parseFloat (removeAll (utf16 ",") (utf16 ",")) = None
  /\ @handleEvent plainRuntime demoDb demoClock None (textEvent "hello, world")
     = (demoDb, Some errorReply).
Proof. vm_compute. repeat split; reflexivity. Qed.

(** ** A label that is a category name *)

Lemma dropWhile_shrinks p s :
  dropWhile p s = s \/ (List.length (dropWhile p s) < List.length s)%nat.
Proof.
  unfold dropWhile. destruct s as [|c s]; [now left|].
  simpl. destruct (p c) eqn:Hc; [|now left].
  right. destruct (span_spec p s) as (Hs & _).
  destruct (span p s) as [a r]; simpl in *.
  rewrite Hs, length_app. lia.
Qed.

Lemma dropWhile_fixed p s :
  dropWhile p s = s -> match s with [] => True | c :: _ => p c = false end.
Proof.
  destruct s as [|c s]; [auto|]. unfold dropWhile. simpl.
  destruct (p c) eqn:Hc; [|auto].
  intros H. apply (f_equal (@List.length _)) in H.
  destruct (span_spec p s) as (Hs & _).
  destruct (span p s) as [a r]; simpl in *.
  rewrite Hs, length_app in H. lia.
Qed.

Lemma dropWhile_head p s :
  match s with [] => True | c :: _ => p c = false end -> dropWhile p s = s.
Proof.
  destruct s as [|c s]; [reflexivity|]. intros H. unfold dropWhile.
  now rewrite span_head_fails.
Qed.

Lemma dropWhile_app_all p w s :
  forallb p w = true -> dropWhile p (w ++ s) = dropWhile p s.
Proof.
  intros Hw. induction w as [|c w IH]; [reflexivity|].
  simpl in Hw. apply andb_true_iff in Hw. destruct Hw as [Hc Hw].
  unfold dropWhile in *. simpl. rewrite Hc.
  specialize (IH Hw). destruct (span p (w ++ s)). exact IH.
Qed.

Lemma trim_fixed s :
  trim s = s -> trimStart s = s /\ trimStart (rev s) = rev s.
Proof.
  unfold trim, trimEnd, trimStart. intros H.
  destruct (dropWhile_shrinks isWhiteSpace s) as [Hs|Hs].
  - rewrite Hs in H. split; [exact Hs|].
    apply (f_equal (@rev _)) in H. now rewrite rev_involutive in H.
  - exfalso. apply (f_equal (@List.length _)) in H. rewrite length_rev in H.
    destruct (dropWhile_shrinks isWhiteSpace (rev (dropWhile isWhiteSpace s)))
      as [H'|H'].
    + rewrite H', length_rev in H. lia.
    + rewrite length_rev in H'. lia.
Qed.

(** Removing the amount of ["<label> <amount>"] and trimming gives the
    label back. *)
Lemma trim_label_sep label w :
  label <> [] -> trim label = label -> forallb isWhiteSpace w = true ->
  trim (label ++ w) = label.
Proof.
  intros Hne Ht Hw. apply trim_fixed in Ht. destruct Ht as [Hs He].
  unfold trim, trimEnd, trimStart in *.
  assert (H1 : dropWhile isWhiteSpace (label ++ w) = label ++ w).
  { apply dropWhile_head. apply dropWhile_fixed in Hs.
    destruct label; [congruence|exact Hs]. }
  rewrite H1, rev_app_distr, dropWhile_app_all.
  - now rewrite He, rev_involutive.
  - rewrite forallb_forall in *. intros c Hc. apply Hw. now apply in_rev.
Qed.

Lemma stripKeyword_plain keyword itemName :
  existsb isSyntaxChar keyword = false ->
  stripKeyword keyword itemName = Ok (trim (removeAll keyword itemName)).
Proof. intros H. unfold stripKeyword. now rewrite H. Qed.

(** The keyword loops end without an exception unless the plus sign is
    reached. *)
Lemma detectKeyword_ok text itemName :
  includes text (utf16 "+") = false ->
  exists ti, detectKeyword text itemName = Ok ti.
Proof.
  intros Hplus. unfold detectKeyword, incomeKeywords, expenseKeywords.
  cbn [map find].
  repeat match goal with
  | |- context [if includes text ?k then _ else _] =>
      destruct (includes text k) eqn:?;
      [ first [ congruence
              | rewrite stripKeyword_plain by reflexivity; simpl; eauto ] |]
  end.
  eauto.
Qed.

Lemma parseFloat_nonneg s q : parseFloat s = Some q -> Qle_bool 0%Q q = true.
Proof.
  unfold parseFloat. destruct (span isDigit s) as [ip r].
  destruct (_ && _); [discriminate|].
  match goal with
  | |- Some (Qred ?x) = Some q -> _ =>
      intros H; assert (Hq : q = Qred x) by congruence; subst q; clear H
  end.
  apply Qle_bool_iff. rewrite Qred_correct.
  unfold Qle. simpl. lia.
Qed.

Lemma find_first {X : Type} (f : X -> bool) (l : list X) (x : X) :
  In x l -> f x = true ->
  exists x0, find f l = Some x0 /\ In x0 l /\ f x0 = true.
Proof.
  intros Hin Hf. destruct (find f l) as [x0|] eqn:E.
  - exists x0. apply find_some in E. tauto.
  - pose proof (find_none _ _ E _ Hin). congruence.
Qed.

Lemma findCategories_group db g c :
  In c (findCategories db g) -> g = Some (cat_groupId c) /\ In c (categories db).
Proof.
  unfold findCategories. rewrite filter_In. intros [Hin He].
  split; [|exact Hin].
  destruct g as [g|]; simpl in He; [|discriminate].
  apply N.eqb_eq in He. now subst.
Qed.

Lemma isEmpty_false (s : jsstring) : s <> [] -> isEmpty s = false.
Proof. destruct s; [congruence|reflexivity]. Qed.

Section ExactLabel.
Context {R : Runtime}.

(** A category named like the whole label wins over every other rule. *)
Lemma resolveCategory_exact cats cn label ty c0 :
  label <> [] -> find (sameName label) cats = Some c0 ->
  resolveCategory cats cn label ty = (Some c0, cat_type c0).
Proof.
  intros Hne Hf. unfold resolveCategory.
  rewrite (isEmpty_false Hne). cbn [negb andb].
  match goal with
  | |- context [find ?f cats] =>
      lazymatch f with
      | (fun c1 => sameName label c1) =>
          change (find f cats) with (find (sameName label) cats)
      end
  end.
  now rewrite Hf.
Qed.

(** The claim of C1 where the keyword loops raise no exception: for
    ["<label> <amount>"] with a label that is the name of a category
    (ignoring case), [handleEvent] records a transaction under the first
    such category, with the type of that category. *)
Lemma classify_exact_label db clk user uid label amount q c :
  label <> [] -> trim label = label ->
  forallb (fun ch => negb (isAmountChar ch)) label = true ->
  numberPattern amount = Some ([], (amount, [])) ->
  parseFloat (removeAll (utf16 ",") amount) = Some q ->
  let text := label ++ utf16 " " ++ amount in
  str_eqb (toLowerCase text) (utf16 "สรุป")
  || str_eqb (toLowerCase text) (utf16 "summary") = false ->
  includes text (utf16 "+") = false ->
  In c (findCategories db (currentGroupId user)) -> sameName label c = true ->
  exists c0 db' reply stored,
    classify db clk user uid text = Ok (db', Some reply)
    /\ find (sameName label) (findCategories db (currentGroupId user)) = Some c0
    /\ transactions db' = transactions db ++ [stored]
    /\ tx_type stored = cat_type c0
    /\ tx_categoryId stored = cat_id c0
    /\ tx_amount stored = Some q.
Proof.
  intros Hne Htrim Hlabel Hamount Hq text Hsum Hplus Hin Hsame.
  assert (Hnum : numberPattern text = Some (label ++ utf16 " ", (amount, []))).
  { unfold text. rewrite app_assoc. apply numberPattern_after; auto.
    rewrite forallb_app, Hlabel. reflexivity. }
  assert (Htw : trim ((label ++ utf16 " ") ++ []) = label).
  { rewrite app_nil_r. now apply trim_label_sep. }
  destruct (detectKeyword_ok text label Hplus) as [ti Hti].
  destruct (find_first (sameName label) _ _ Hin Hsame) as (c0 & Hf & Hin0 & Hs0).
  destruct (findCategories_group _ _ _ Hin0) as [Hg _].
  unfold classify. fold text. rewrite Hsum, Hnum, Htw, Hq, Hti. cbn [bind].
  rewrite (resolveCategory_exact _ _ _ Hne Hf). unfold saveTransaction. cbn [tx_groupId tx_amount].
  rewrite Hg, (parseFloat_nonneg _ Hq). cbn [bind].
  do 4 eexists. split; [reflexivity|]. cbn. repeat split; auto.
  now rewrite <- Hg.
Qed.

End ExactLabel.

(** C1.  The wallet holds an expense category named ["Disney+"] and the
    message is ["Disney+ 299"].  The text includes the income keyword
    ["+"], the expression built from that keyword cannot be constructed,
    and [handleEvent] answers with the error text: no transaction is
    written, of the category's type or of any other. *)
Theorem plus_label_is_not_recorded :
  In plusCategory (findCategories plusDb (currentGroupId demoUser))
  /\ @sameName plainRuntime (utf16 "Disney+") plusCategory = true
  /\ detectKeyword (utf16 "Disney+ 299") (utf16 "Disney+") = Throw SyntaxError
  /\ @handleEvent plainRuntime plusDb demoClock None (textEvent "Disney+ 299")
     = (plusDb, Some errorReply).
Proof.
  split; [|vm_compute; repeat split; reflexivity].
  unfold findCategories. apply filter_In. split; [|reflexivity].
  unfold plusDb. cbn [categories]. apply in_or_app. right. now left.
Qed.

(** ** The order of category resolution *)

Lemma find_firstWith {X : Type} (f : X -> bool) (l : list X) :
  match find f l with
  | Some c0 => firstWith f l c0
  | None => noneWith f l
  end.
Proof.
  induction l as [|x l IH]; simpl.
  - intros y [].
  - destruct (f x) eqn:Hx.
    + exists [], l. repeat split; auto. intros y [].
    + destruct (find f l) as [c0|].
      * destruct IH as (l1 & l2 & -> & Hc & Hn).
        exists (x :: l1), l2. repeat split; auto.
        intros y [<-|Hy]; auto.
      * intros y [<-|Hy]; auto.
Qed.

Section ResolutionOrderProofs.
Context {R : Runtime}.

Lemma resolveCategory_order cats categoryName textWithoutNumber ty :
  resolvedBy cats categoryName textWithoutNumber ty
             (resolveCategory cats categoryName textWithoutNumber ty).
Proof.
  unfold resolvedBy, resolveCategory.
  destruct textWithoutNumber as [|ch tw].
  - right. cbn [isEmpty negb andb].
    replace (find (fun _ : Category => false) cats) with (@None Category)
      by (clear; induction cats; simpl; auto).
    split; [now left|]. split; [reflexivity|]. cbn [fst].
    pose proof (find_firstWith (sameName categoryName) cats) as H1.
    destruct (find (sameName categoryName) cats) as [c1|]; [left; eauto|].
    right. split; [exact H1|].
    pose proof (find_firstWith (fallbackOf ty) cats) as H2.
    unfold fallbackOf in H2 at 1.
    destruct (find _ cats) as [c2|]; [left; eauto|].
    right. split; [exact H2|].
    pose proof (find_firstWith (ofType ty) cats) as H3.
    unfold ofType in H3 at 1.
    destruct (find _ cats) as [c3|]; [left; eauto|]. right. auto.
  - cbn [isEmpty negb andb].
    pose proof (find_firstWith (sameName (ch :: tw)) cats) as H0.
    change (find (fun c : Category => sameName (ch :: tw) c) cats)
      with (find (sameName (ch :: tw)) cats).
    destruct (find (sameName (ch :: tw)) cats) as [c0|].
    { left. split; [discriminate|]. eauto. }
    right. split; [now right|]. split; [reflexivity|]. cbn [fst].
    pose proof (find_firstWith (sameName categoryName) cats) as H1.
    destruct (find (sameName categoryName) cats) as [c1|]; [left; eauto|].
    right. split; [exact H1|].
    pose proof (find_firstWith (fallbackOf ty) cats) as H2.
    unfold fallbackOf in H2 at 1.
    destruct (find _ cats) as [c2|]; [left; eauto|].
    right. split; [exact H2|].
    pose proof (find_firstWith (ofType ty) cats) as H3.
    unfold ofType in H3 at 1.
    destruct (find _ cats) as [c3|]; [left; eauto|]. right. auto.
Qed.

Lemma findCategoryByRegex_order db groupId categoryName :
  match regexSearch categoryName with
  | None => findCategoryByRegex db groupId categoryName = Throw SyntaxError
  | Some test =>
      (exists c0, findCategoryByRegex db groupId categoryName = Ok (Some c0)
                  /\ firstWith (inGroupMatching groupId test) (categories db) c0)
      \/ (findCategoryByRegex db groupId categoryName = Ok None
          /\ noneWith (inGroupMatching groupId test) (categories db))
  end.
Proof.
  unfold findCategoryByRegex.
  destruct (regexSearch categoryName) as [test|]; [|reflexivity].
  pose proof (find_firstWith (inGroupMatching groupId test) (categories db)) as H.
  unfold inGroupMatching in H at 1.
  destruct (find _ (categories db)) as [c0|]; [left; eauto|right; auto].
Qed.

(** C5 (amended).  [handleEvent] resolves the category in this order: the
    first category whose name equals, ignoring case, the whole text left
    after the amount is removed (its type then replaces the inferred one);
    else the first category whose name equals the cleaned label; else the
    first category of the inferred type named "อื่นๆ", "Others" or
    "General"; else the first category of the inferred type; else none.
    No step looks for the label inside a category name.  The second
    webhook handler and the simulator take the first category of the
    group, in storage order, whose name the label's regular expression
    matches, and have no other step. *)
Theorem category_resolution_order :
  (forall cats categoryName textWithoutNumber ty,
     resolvedBy cats categoryName textWithoutNumber ty
                (resolveCategory cats categoryName textWithoutNumber ty))
  /\ (forall db groupId categoryName,
        match regexSearch categoryName with
        | None => findCategoryByRegex db groupId categoryName = Throw SyntaxError
        | Some test =>
            (exists c0,
               findCategoryByRegex db groupId categoryName = Ok (Some c0)
               /\ firstWith (inGroupMatching groupId test) (categories db) c0)
            \/ (findCategoryByRegex db groupId categoryName = Ok None
                /\ noneWith (inGroupMatching groupId test) (categories db))
        end).
Proof.
  split.
  - apply resolveCategory_order.
  - apply findCategoryByRegex_order.
Qed.

End ResolutionOrderProofs.

(** C5, as stated, fails.  With the default categories the label "ชานม"
    is contained in the name "ชานม/กาแฟ", which step (b) of the stated
    order would select; [handleEvent] has no such step and records
    ["ชานม 45"] under "อื่นๆ".  In the second handler the order is not
    exact-match-first either: with "อาหารเสริม" stored before "อาหาร", the
    label "อาหาร" resolves to "อาหารเสริม". *)
Lemma stated_resolution_order_fails :
  option_map cat_name
    (@spec_resolveCategory plainRuntime (categories demoDb) (utf16 "ชานม") expense)
  = Some (utf16 "ชานม/กาแฟ")
  /\ option_map cat_name
       (fst (@resolveCategory plainRuntime (categories demoDb) (utf16 "ชานม")
               (utf16 "ชานม") expense))
     = Some (utf16 "อื่นๆ")
  /\ fst (@resolveCategory plainRuntime (categories demoDb) (utf16 "ชานม")
            (utf16 "ชานม") expense)
     <> @spec_resolveCategory plainRuntime (categories demoDb) (utf16 "ชานม") expense
  /\ map tx_categoryId
       (transactions (fst (@handleEvent plainRuntime demoDb demoClock None
                             (textEvent "ชานม 45"))))
     = [120%N]
  /\ option_map cat_name
       (@spec_resolveCategory plainRuntime (categories supplementDb)
          (utf16 "อาหาร") expense)
     = Some (utf16 "อาหาร")
  /\ match @findCategoryByRegex plainRuntime supplementDb demoGroupId
             (utf16 "อาหาร") with
     | Ok (Some c) => cat_name c = utf16 "อาหารเสริม"
     | _ => False
     end.
Proof.
  repeat split; try (vm_compute; reflexivity).
  vm_compute. discriminate.
Qed.

(** ** The "category not found" replies *)

Lemma suggestions_expense db groupId :
  (List.length (suggestions db groupId) <= 8)%nat
  /\ forall n, In n (suggestions db groupId) ->
       exists c, In c (categories db) /\ cat_groupId c = groupId
                 /\ cat_type c = expense /\ cat_name c = n.
Proof.
  unfold suggestions. split.
  - rewrite length_map. apply firstn_le_length.
  - intros n Hn. apply in_map_iff in Hn. destruct Hn as (c & <- & Hc).
    apply firstn_incl in Hc. apply filter_In in Hc. destruct Hc as [Hin Hc].
    apply andb_true_iff in Hc. destruct Hc as [Hg Ht].
    apply N.eqb_eq in Hg. exists c. repeat split; auto.
    destruct (cat_type c); [reflexivity|discriminate].
Qed.

Lemma filter_both {X : Type} (f g : X -> bool) (l : list X) :
  filter (fun x => f x && g x) l = filter g (filter f l).
Proof.
  induction l as [|x l IH]; simpl; [reflexivity|].
  destruct (f x); simpl; [|exact IH].
  destruct (g x); now rewrite IH.
Qed.

Section NotFound.
Context {R : Runtime}.

Lemma resolveCategory_none cats categoryName textWithoutNumber ty r :
  resolveCategory cats categoryName textWithoutNumber ty = (None, r) ->
  r = ty /\ noneWith (ofType ty) cats.
Proof.
  intros H. pose proof (resolveCategory_order cats categoryName textWithoutNumber ty) as Ho.
  rewrite H in Ho. unfold resolvedBy in Ho. cbn [fst snd] in Ho.
  destruct Ho as [(_ & c0 & _ & He)|(_ & -> & Ho)]; [discriminate|].
  split; [reflexivity|].
  destruct Ho as [(c0 & _ & He)|(_ & [(c0 & _ & He)|(_ & [(c0 & _ & He)|(Hn & _)])])];
    try discriminate.
  exact Hn.
Qed.

(** C7 (amended).  In the second webhook handler and in the simulator, a
    parsed message whose label matches no category name of the group is
    answered with "category not found" for that label together with the
    names of the first 8 expense categories of the group, whatever type
    the text suggests, and the store is left unchanged.  In [handleEvent],
    a parsed message for which no category is resolved, which requires
    that the group has no category of the inferred type, is answered with
    a fixed "category not found" text that carries no suggestion, and the
    store is left unchanged. *)
Theorem category_not_found_replies :
  (forall db clk user groupId uid text categoryName amountStr note,
     smartInputPattern text = Some (categoryName, amountStr, note) ->
     findCategoryByRegex db groupId categoryName = Ok None ->
     smartInput db clk user groupId uid text
     = Ok (db, Some (Text2 (notFoundText categoryName
                                         (firstNamesOfType 8 expense
                                            (filter (fun c => (cat_groupId c =? groupId)%N)
                                                    (categories db))))))
     /\ simulateSmartInput db clk user groupId uid text
        = Ok (db, SimError (simNotFoundMessage categoryName)
                           (firstNamesOfType 8 expense
                              (filter (fun c => (cat_groupId c =? groupId)%N)
                                      (categories db)))))
  /\ (forall db clk user uid text before amountMatch after ti ty,
        str_eqb (toLowerCase text) (utf16 "สรุป")
        || str_eqb (toLowerCase text) (utf16 "summary") = false ->
        numberPattern text = Some (before, (amountMatch, after)) ->
        detectKeyword text (trim (before ++ after)) = Ok ti ->
        resolveCategory (findCategories db (currentGroupId user))
          (orElse (trim (stripCommonPrefix (snd ti))) (utf16 "อื่นๆ"))
          (trim (before ++ after)) (fst ti) = (None, ty) ->
        classify db clk user uid text = Ok (db, Some categoryMissingReply)
        /\ noneWith (ofType (fst ti)) (findCategories db (currentGroupId user))).
Proof.
  split.
  - intros db clk user groupId uid text cn am note Hp Hf.
    assert (Hs : suggestions db groupId
                 = firstNamesOfType 8 expense
                     (filter (fun c => (cat_groupId c =? groupId)%N) (categories db))).
    { unfold suggestions, firstNamesOfType. do 2 f_equal.
      apply filter_both. }
    unfold smartInput, simulateSmartInput. rewrite Hp, Hf, Hs. cbn [bind]. auto.
  - intros db clk user uid text before am after ti ty Hsum Hn Hk Hr.
    unfold classify. rewrite Hsum, Hn, Hk. cbn [bind]. rewrite Hr.
    split; [reflexivity|].
    apply resolveCategory_none in Hr. tauto.
Qed.

End NotFound.

Lemma category_not_found_replies_witness :
  smartInputPattern (utf16 "ได้ทิป 50")
  = Some (utf16 "ได้ทิป", utf16 "50", None)
  /\ @findCategoryByRegex plainRuntime demoDb demoGroupId (utf16 "ได้ทิป") = Ok None
  /\ @smartInput plainRuntime demoDb demoClock demoUser demoGroupId demoUserId
       (utf16 "ได้ทิป 50")
     = Ok (demoDb,
           Some (Text2 (notFoundText (utf16 "ได้ทิป")
                          (firstNamesOfType 8 expense
                             (filter (fun c => (cat_groupId c =? demoGroupId)%N)
                                     (categories demoDb)))))).
Proof.
  split; [reflexivity|]. split; [reflexivity|].
  exact (proj1 (proj1 (@category_not_found_replies plainRuntime) demoDb demoClock
                  demoUser demoGroupId demoUserId (utf16 "ได้ทิป 50")
                  (utf16 "ได้ทิป") (utf16 "50") None eq_refl eq_refl)).
Defined.

(** C7, as stated, fails.  The wallet holds expense categories only and
    the text is ["ได้ทิป 50"]: it carries the income keyword "ได้", so the
    inferred type is income, the wallet has no category of that type, and
    no category is resolved, neither by [handleEvent] nor by the name
    search of the second handler and of the simulator.  The claim promises
    a list taken from the categories of the inferred type, of which there
    are none; the second handler and the simulator answer with the names of
    the first eight expense categories, and [handleEvent] with a fixed text
    that carries no list.  Nothing is written in any of the three. *)
Lemma stated_suggestions_fail :
  detectKeyword (utf16 "ได้ทิป 50") (utf16 "ได้ทิป") = Ok (income, utf16 "ทิป")
  /\ filter (ofType income) (categories expenseOnlyDb) = []
  /\ firstNamesOfType 8 income (categories expenseOnlyDb) = []
  /\ @findCategoryByRegex plainRuntime expenseOnlyDb demoGroupId (utf16 "ได้ทิป")
     = Ok None
  /\ @simulateLine plainRuntime expenseOnlyDb demoClock demoUserId
       (utf16 "ได้ทิป 50")
     = Http200 expenseOnlyDb
         (SimError (simNotFoundMessage (utf16 "ได้ทิป"))
            (map utf16 ["อาหาร"; "ชานม/กาแฟ"; "เดลิเวอรี่"; "ช้อปปิ้ง";
                        "ของออนไลน์"; "Skincare"; "บันเทิง"; "เกม"]%string))
  /\ @simulateLine plainRuntime expenseOnlyDb demoClock demoUserId
       (utf16 "ได้ทิป 50")
     <> Http200 expenseOnlyDb
          (SimError (simNotFoundMessage (utf16 "ได้ทิป"))
             (firstNamesOfType 8 income (categories expenseOnlyDb)))
  /\ @webhookEvent plainRuntime expenseOnlyDb demoClock (textEvent "ได้ทิป 50")
     = Continue expenseOnlyDb
         (Some (Text2 (notFoundText (utf16 "ได้ทิป")
                  (map utf16 ["อาหาร"; "ชานม/กาแฟ"; "เดลิเวอรี่"; "ช้อปปิ้ง";
                              "ของออนไลน์"; "Skincare"; "บันเทิง"; "เกม"]%string))))
  /\ @webhookEvent plainRuntime expenseOnlyDb demoClock (textEvent "ได้ทิป 50")
     <> Continue expenseOnlyDb
          (Some (Text2 (notFoundText (utf16 "ได้ทิป")
                          (firstNamesOfType 8 income (categories expenseOnlyDb)))))
  /\ @handleEvent plainRuntime expenseOnlyDb demoClock None (textEvent "ได้ทิป 50")
     = (expenseOnlyDb, Some categoryMissingReply).
Proof.
  repeat split; try (vm_compute; reflexivity); vm_compute; discriminate.
Qed.

(** ** The grammar of the second handler *)

Lemma whiteSpace_not_digit c : isWhiteSpace c = true -> isDigit c = false.
Proof.
  unfold isWhiteSpace, isDigit. intros H.
  destruct ((48 <=? c) && (c <=? 57))%N eqn:E; [|reflexivity].
  apply andb_true_iff in E. destruct E as [E1 E2].
  apply N.leb_le in E1, E2.
  repeat (apply orb_true_iff in H; destruct H as [H|H]);
    repeat match goal with
    | H : (_ && _)%bool = true |- _ =>
        apply andb_true_iff in H; destruct H
    | H : (_ <=? _)%N = true |- _ => apply N.leb_le in H
    | H : (_ =? _)%N = true |- _ => apply N.eqb_eq in H
    end; lia.
Qed.

Lemma digit_not_whiteSpace c : isDigit c = true -> isWhiteSpace c = false.
Proof.
  intros H. destruct (isWhiteSpace c) eqn:E; [|reflexivity].
  apply whiteSpace_not_digit in E. congruence.
Qed.

Lemma whiteSpace_not_dot c : isWhiteSpace c = true -> exact 46%N c = false.
Proof.
  intros H. unfold exact. destruct (N.eqb_spec 46%N c) as [<-|]; [|reflexivity].
  discriminate H.
Qed.

Lemma endsWith_app p pre z : z <> [] -> endsWith p (pre ++ z) = endsWith p z.
Proof.
  intros Hz. unfold endsWith. rewrite rev_app_distr.
  destruct (rev z) eqn:E; [|reflexivity].
  apply (f_equal (@rev _)) in E. rewrite rev_involutive in E. contradiction.
Qed.

Lemma endsWith_all p z :
  forallb p z = true -> endsWith (fun c => negb (p c)) z = false.
Proof.
  intros H. unfold endsWith. destruct (rev z) as [|c r] eqn:E; [reflexivity|].
  rewrite forallb_forall in H. rewrite (H c); [reflexivity|].
  apply in_rev. rewrite E. now left.
Qed.

Lemma isPlainAmount_shape a :
  isPlainAmount a = true ->
  exists ip, ip <> [] /\ forallb isDigit ip = true
    /\ (a = ip
        \/ exists fp, fp <> [] /\ forallb isDigit fp = true
                      /\ a = ip ++ utf16 "." ++ fp).
Proof.
  unfold isPlainAmount. destruct (span_spec isDigit a) as (Hs & Hall & _).
  destruct (span isDigit a) as [ip r]; simpl in *.
  intros H. apply andb_true_iff in H. destruct H as [Hip H].
  exists ip. split; [destruct ip; [discriminate|congruence]|].
  split; [exact Hall|].
  destruct r as [|c fp].
  - left. now rewrite app_nil_r in Hs.
  - right. apply andb_true_iff in H. destruct H as [H Hfp].
    apply andb_true_iff in H. destruct H as [Hc Hne].
    apply N.eqb_eq in Hc. subst c. exists fp.
    split; [destruct fp; [discriminate|congruence]|]. auto.
Qed.

Lemma isPlainAmount_head a :
  isPlainAmount a = true ->
  match a with [] => False | c :: _ => isDigit c = true end.
Proof.
  intros H. apply isPlainAmount_shape in H.
  destruct H as (ip & Hne & Hd & Ha).
  destruct ip as [|c ip]; [congruence|]. simpl in Hd.
  apply andb_true_iff in Hd. destruct Hd as [Hc _].
  destruct Ha as [->|(fp & _ & _ & ->)]; exact Hc.
Qed.

Lemma isPlainAmount_parse a :
  isPlainAmount a = true ->
  exists q, parseFloat a = Some q /\ Qle_bool 0%Q q = true.
Proof.
  intros H. unfold isPlainAmount in H. unfold parseFloat.
  destruct (span isDigit a) as [ip r].
  apply andb_true_iff in H. destruct H as [Hip _].
  destruct ip as [|c ip]; [discriminate|]. cbn [isEmpty andb].
  eexists. split; [reflexivity|].
  apply Qle_bool_iff. rewrite Qred_correct. unfold Qle. simpl. lia.
Qed.

Lemma greedy_all {A : Type} p min (k : jsstring -> matcher A) a x :
  forallb p a = true -> (min <= List.length a)%nat -> k a [] = Some x ->
  greedy p min k a = Some x.
Proof.
  intros Ha Hmin Hk. pose proof (@greedy_first A p min k a [] x Ha I Hmin Hk) as H.
  now rewrite app_nil_r in H.
Qed.

Lemma noteTail_end cn am : noteTail cn am [] = Some (cn, am, None).
Proof. reflexivity. Qed.

Lemma noteTail_note cn am sep2 note :
  isSeparator sep2 = true -> isNote note = true ->
  noteTail cn am (sep2 ++ note) = Some (cn, am, Some note).
Proof.
  unfold isSeparator, isNote. rewrite !andb_true_iff.
  intros [Hne Hws] [Hdot Hhd]. unfold noteTail, alt.
  rewrite greedy_first with (x := (cn, am, Some note)); auto.
  - destruct note as [|c note]; [exact I|]. now apply negb_true_iff.
  - destruct sep2; [discriminate|simpl; lia].
  - apply greedy_all; auto. simpl. lia.
Qed.

Lemma amountAndNote_amount cn a tail x :
  isPlainAmount a = true ->
  match tail with [] => True | c :: _ => isWhiteSpace c = true end ->
  noteTail cn a tail = Some x ->
  amountAndNote cn (a ++ tail) = Some x.
Proof.
  intros Ha Htail Hx. apply isPlainAmount_shape in Ha.
  destruct Ha as (ip & Hne & Hd & [->|(fp & Hfne & Hfd & ->)]);
    unfold amountAndNote.
  - apply greedy_first; auto.
    + destruct tail as [|c tail]; [exact I|]. now apply whiteSpace_not_digit.
    + destruct ip; [congruence|simpl; lia].
    + unfold alt. rewrite lit_head_mismatch; [exact Hx|].
      destruct tail as [|c tail]; [exact I|]. now apply whiteSpace_not_dot.
  - rewrite <- !app_assoc. apply greedy_first; auto.
    + reflexivity.
    + destruct ip; [congruence|simpl; lia].
    + unfold alt. rewrite lit_exact.
      rewrite greedy_first with (x := x); auto.
      * destruct tail as [|c tail]; [exact I|]. now apply whiteSpace_not_digit.
      * destruct fp; [congruence|simpl; lia].
Qed.

Lemma amountAndNote_head cn s x :
  amountAndNote cn s = Some x ->
  match s with [] => False | c :: _ => isDigit c = true end.
Proof.
  unfold amountAndNote. intros H. apply greedy_some in H.
  destruct H as (a & r & -> & Ha & Hlen & _).
  destruct a as [|c a]; [simpl in Hlen; lia|].
  simpl in Ha. apply andb_true_iff in Ha. tauto.
Qed.

(** Inside the label no split is accepted: what follows the white space is
    never a digit. *)
Lemma label_split_fails cn z rest :
  z <> [] -> forallb (fun c => negb (isDigit c)) z = true ->
  endsWith (fun c => negb (isWhiteSpace c)) z = true ->
  greedy isWhiteSpace 1 (fun _ => amountAndNote cn) (z ++ rest) = None.
Proof.
  intros Hz Hnd Hend.
  destruct (greedy _ _ _ _) as [x|] eqn:E; [exfalso|reflexivity].
  apply greedy_some in E. destruct E as (a & r & Heq & Hws & _ & Hk).
  apply amountAndNote_head in Hk.
  apply app_eq_app in Heq. destruct Heq as (l & [[-> ->]|[-> ->]]).
  - destruct l as [|e l].
    + rewrite app_nil_r in Hend. rewrite (endsWith_all _ _ Hws) in Hend.
      discriminate.
    + simpl in Hk. rewrite forallb_app in Hnd.
      apply andb_true_iff in Hnd. destruct Hnd as [_ Hnd]. simpl in Hnd.
      rewrite Hk in Hnd. discriminate.
  - rewrite forallb_app in Hws. apply andb_true_iff in Hws.
    destruct Hws as [Hws _].
    rewrite (endsWith_all _ _ Hws) in Hend. discriminate.
Qed.

Lemma smartInputPattern_tokens label sep amount tail note :
  isLabel label = true -> isSeparator sep = true ->
  isPlainAmount amount = true ->
  match tail with [] => True | c :: _ => isWhiteSpace c = true end ->
  noteTail label amount tail = Some (label, amount, note) ->
  smartInputPattern (label ++ sep ++ amount ++ tail) = Some (label, amount, note).
Proof.
  unfold isLabel, isSeparator. rewrite !andb_true_iff.
  intros [[Hdot Hnd] Hend] [Hsne Hsws] Ha Htail Hnote.
  destruct label as [|c a]; [discriminate|].
  unfold smartInputPattern. apply lazyPlus_exact; auto.
  - intros y z -> Hz. apply label_split_fails; auto.
    + simpl in Hnd. apply andb_true_iff in Hnd. destruct Hnd as [_ Hnd].
      rewrite forallb_app in Hnd. apply andb_true_iff in Hnd. tauto.
    + change (c :: y ++ z) with ((c :: y) ++ z) in Hend.
      now rewrite endsWith_app in Hend.
  - apply greedy_first; auto.
    + pose proof (isPlainAmount_head _ Ha) as Hh.
      destruct amount as [|d amount]; [contradiction|].
      simpl. now apply digit_not_whiteSpace.
    + destruct sep; [discriminate|simpl; lia].
    + now apply amountAndNote_amount.
Qed.

(** ** The note of a recorded message *)

Lemma saveUser_transactions db u : transactions (saveUser db u) = transactions db.
Proof. reflexivity. Qed.

Section Notes.
Context {R : Runtime}.

Lemma smartInput_records db clk user groupId uid text cn am note category :
  smartInputPattern text = Some (cn, am, note) ->
  isPlainAmount am = true ->
  findCategoryByRegex db groupId cn = Ok (Some category) ->
  (exists db' reply,
     smartInput db clk user groupId uid text = Ok (db', Some reply)
     /\ recorded db db' (cat_type category) (parseFloat am) (cat_id category)
                 (noteOrEmpty note))
  /\ (exists db' response,
        simulateSmartInput db clk user groupId uid text = Ok (db', response)
        /\ recorded db db' (cat_type category) (parseFloat am) (cat_id category)
                    (noteOrEmpty note)).
Proof.
  intros Hp Ha Hf. destruct (isPlainAmount_parse _ Ha) as (q & Hq & Hpos).
  unfold smartInput, simulateSmartInput, recorded.
  rewrite Hp, Hf. cbn [bind]. unfold saveTransaction. cbn [tx_groupId tx_amount].
  rewrite Hq, Hpos. cbn [bind]. split.
  - destruct (updateStreak_webhook clk user); do 2 eexists;
      (split; [reflexivity|]); eexists; cbn; repeat split; reflexivity.
  - destruct (updateStreak_simulate clk user); do 2 eexists;
      (split; [reflexivity|]); eexists; cbn; repeat split; reflexivity.
Qed.

(** C6 (amended).  [handleEvent] stores the whole trimmed message as the
    note of the transaction it records.  The second webhook handler and
    the simulator store the text that follows the amount: for a message
    made of a label, a separator and an amount, whose label the store
    resolves to a category, the note is empty; with a further separator
    and a note, the note is that trailing text. *)
Theorem note_of_recorded_message :
  (forall db clk user uid text db' ty a h c f,
     classify db clk user uid text = Ok (db', Some (RecordedFlex ty a h c f)) ->
     exists stored, transactions db' = transactions db ++ [stored]
                    /\ tx_note stored = text)
  /\ (forall db clk user groupId uid label sep amount category,
        isLabel label = true -> isSeparator sep = true ->
        isPlainAmount amount = true ->
        findCategoryByRegex db groupId label = Ok (Some category) ->
        ((exists db' reply,
            smartInput db clk user groupId uid (label ++ sep ++ amount)
            = Ok (db', Some reply)
            /\ recorded db db' (cat_type category) (parseFloat amount)
                        (cat_id category) [])
         /\ (exists db' response,
               simulateSmartInput db clk user groupId uid (label ++ sep ++ amount)
               = Ok (db', response)
               /\ recorded db db' (cat_type category) (parseFloat amount)
                           (cat_id category) []))
        /\ (forall sep2 note,
              isSeparator sep2 = true -> isNote note = true ->
              (exists db' reply,
                 smartInput db clk user groupId uid
                   (label ++ sep ++ amount ++ sep2 ++ note)
                 = Ok (db', Some reply)
                 /\ recorded db db' (cat_type category) (parseFloat amount)
                             (cat_id category) note)
              /\ (exists db' response,
                    simulateSmartInput db clk user groupId uid
                      (label ++ sep ++ amount ++ sep2 ++ note)
                    = Ok (db', response)
                    /\ recorded db db' (cat_type category) (parseFloat amount)
                                (cat_id category) note))).
Proof.
  split.
  - intros db clk user uid text db' ty a h c f Hc.
    apply classify_frame in Hc.
    destruct Hc as (_ & _ & _ & _ & [[_ Hr]|(st & ty' & a' & h' & c' & f' & Ht & _ & Hn & _)]).
    + exfalso. eapply Hr. reflexivity.
    + eauto.
  - intros db clk user groupId uid label sep amount category Hl Hs Ha Hf.
    split.
    + apply (@smartInput_records db clk user groupId uid _ label amount None category);
        auto.
      rewrite <- (app_nil_r amount) at 1.
      apply smartInputPattern_tokens; auto using noteTail_end.
    + intros sep2 note Hs2 Hn.
      apply (@smartInput_records db clk user groupId uid _ label amount (Some note)
               category); auto.
      apply smartInputPattern_tokens; auto using noteTail_note.
      unfold isSeparator in Hs2. apply andb_true_iff in Hs2.
      destruct Hs2 as [Hne Hws]. destruct sep2 as [|w sep2]; [discriminate|].
      simpl in Hws. apply andb_true_iff in Hws. simpl. tauto.
Qed.

End Notes.

Lemma note_of_recorded_message_witness :
  isLabel (utf16 "เดินทาง") = true /\ isSeparator (utf16 " ") = true
  /\ isPlainAmount (utf16 "50") = true /\ isNote (utf16 "ค่าแท็กซี่") = true
  /\ exists db' reply,
       @smartInput plainRuntime demoDb demoClock demoUser demoGroupId demoUserId
         (utf16 "เดินทาง" ++ utf16 " " ++ utf16 "50" ++ utf16 " " ++ utf16 "ค่าแท็กซี่")
       = Ok (db', Some reply)
       /\ recorded demoDb db' expense (Some (50 # 1)%Q) 111%N (utf16 "ค่าแท็กซี่").
Proof.
  repeat (split; [reflexivity|]).
  exact (proj1 (proj2 (proj2 (@note_of_recorded_message plainRuntime) demoDb
                         demoClock demoUser demoGroupId demoUserId
                         (utf16 "เดินทาง") (utf16 " ") (utf16 "50")
                         (mkCategory 111%N demoGroupId (utf16 "เดินทาง")
                            (utf16 "🚗") expense (utf16 "#00BFFF") 0%Q)
                         eq_refl eq_refl eq_refl eq_refl)
                      (utf16 " ") (utf16 "ค่าแท็กซี่") eq_refl eq_refl)).
Defined.

(** C6, as stated, fails.  [handleEvent], the handler that serves the
    webhook, records ["เดินทาง 50 ค่าแท็กซี่"] as an expense of 50 under
    "อื่นๆ" with the whole message as its note, not the trailing text; and
    a message without trailing text, ["อาหาร 150"], gets the note
    ["อาหาร 150"], not the empty one. *)
Lemma stated_note_fails :
  (let after := fst (@handleEvent plainRuntime demoDb demoClock None
                       (textEvent "เดินทาง 50 ค่าแท็กซี่")) in
   map tx_note (transactions after) = [utf16 "เดินทาง 50 ค่าแท็กซี่"]
   /\ map tx_note (transactions after) <> [utf16 "ค่าแท็กซี่"]
   /\ map tx_amount (transactions after) = [Some (50 # 1)%Q]
   /\ map tx_type (transactions after) = [expense])
  /\ (let after := fst (@handleEvent plainRuntime demoDb demoClock None
                          (textEvent "อาหาร 150")) in
      map tx_note (transactions after) = [utf16 "อาหาร 150"]
      /\ map tx_note (transactions after) <> [[]]).
Proof.
  repeat split; try (vm_compute; reflexivity); vm_compute; discriminate.
Qed.

(** ** Commands without their amount *)

Lemma forallb_rev_true {X : Type} (p : X -> bool) (l : list X) :
  forallb p l = true -> forallb p (rev l) = true.
Proof.
  rewrite !forallb_forall. intros H x Hx. apply H. now apply in_rev.
Qed.

Lemma rev_head {X : Type} (l : list X) :
  l <> [] -> exists c r, rev l = c :: r /\ In c l.
Proof.
  intros Hne. destruct (rev l) as [|c r] eqn:E.
  - apply (f_equal (@rev _)) in E. rewrite rev_involutive in E. contradiction.
  - exists c, r. split; [reflexivity|]. apply in_rev. rewrite E. now left.
Qed.

Lemma endsWithAmountToken_intro pre w d :
  w <> [] -> forallb isWhiteSpace w = true ->
  d <> [] -> forallb isDigit d = true ->
  endsWithAmountToken (pre ++ w ++ d) = true.
Proof.
  intros Hw Hws Hd Hdig. unfold endsWithAmountToken.
  rewrite !rev_app_distr, <- app_assoc.
  destruct (rev_head Hw) as (c & r & Hr & Hc).
  rewrite forallb_forall in Hws. pose proof (Hws _ Hc) as Hcws.
  rewrite span_app.
  - rewrite Hr. simpl. rewrite Hcws, andb_true_r.
    destruct (rev_head Hd) as (c' & r' & -> & _). reflexivity.
  - now apply forallb_rev_true.
  - rewrite Hr. simpl. now apply whiteSpace_not_digit.
Qed.

Lemma endsWithAmountToken_digit s :
  endsWithAmountToken s = true -> endsWith isDigit s = true.
Proof.
  unfold endsWithAmountToken, endsWith.
  destruct (span_spec isDigit (rev s)) as (Hs & Hall & _).
  destruct (span isDigit (rev s)) as [d r]; simpl in *.
  intros H. apply andb_true_iff in H. destruct H as [Hd _].
  destruct d as [|c d]; [discriminate|].
  rewrite Hs. simpl in *. apply andb_true_iff in Hall. tauto.
Qed.

(** A command of the shape VERB NAME AMOUNT matches only a text that ends
    with an amount. *)
Lemma verbNameAmount_some verb s name digits :
  verbNameAmount verb s = Some (name, digits) ->
  endsWithAmountToken s = true.
Proof.
  unfold verbNameAmount. intros H.
  apply lit_some in H. destruct H as (_ & _ & H).
  apply greedy_some in H. destruct H as (a1 & r1 & H1 & _ & _ & H).
  apply lazyPlus_some in H. destruct H as (n & r2 & -> & _ & _ & H).
  apply greedy_some in H. destruct H as (w & r3 & -> & Hws & Hwl & H).
  apply greedy_some in H. destruct H as (d & r4 & -> & Hdig & Hdl & H).
  apply eos_some in H. destruct H as [-> _]. rewrite app_nil_r in H1.
  rewrite <- (firstn_skipn (List.length (utf16 verb)) s), H1.
  rewrite !app_assoc, <- (app_assoc _ w d).
  apply endsWithAmountToken_intro; auto.
  - destruct w; [simpl in Hwl; lia|discriminate].
  - destruct d; [simpl in Hdl; lia|discriminate].
Qed.

Lemma verbNameAmount_none verb s :
  endsWithAmountToken s = false -> verbNameAmount verb s = None.
Proof.
  intros H. destruct (verbNameAmount verb s) as [[n d]|] eqn:E; [|reflexivity].
  apply verbNameAmount_some in E. congruence.
Qed.

Lemma moodPattern_some s d : moodPattern s = Some d -> endsWith isDigit s = true.
Proof.
  unfold moodPattern, alt. cbv zeta.
  assert (Hrest : forall v,
            lit exact v (greedy isWhiteSpace 0 (fun _ => one isDigit (fun d0 => eos d0))) s
            = Some d -> endsWith isDigit s = true).
  { intros v H. apply lit_some in H. destruct H as (_ & _ & H).
    apply greedy_some in H. destruct H as (w & r & Hs & _ & _ & H).
    unfold one in H. destruct r as [|c r]; [discriminate|].
    destruct (isDigit c) eqn:Hc; [|discriminate].
    apply eos_some in H. destruct H as [-> _].
    rewrite <- (firstn_skipn (List.length v) s), Hs.
    rewrite !app_assoc. unfold endsWith. rewrite rev_app_distr. simpl. exact Hc. }
  destruct (lit exact (utf16 "อารมณ์") _ s) eqn:E1.
  - intros [= <-]. eapply Hrest; eauto.
  - intros H. eapply Hrest; eauto.
Qed.

Lemma combine_prefix_false {X : Type} (f : X * codeunit -> bool) w v s :
  isPrefix v s = true -> forallb f (combine w v) = false ->
  forallb f (combine w s) = false.
Proof.
  revert v s. induction w as [|x w IH]; intros v s Hp Hf; [discriminate|].
  destruct v as [|y v]; [discriminate|].
  destruct s as [|z s]; [discriminate|].
  simpl in Hp. apply andb_true_iff in Hp. destruct Hp as [Hyz Hp].
  apply N.eqb_eq in Hyz. subst z. simpl in *.
  destruct (f (x, y)); [simpl in *; eauto|reflexivity].
Qed.

(** A literal that disagrees with how the text begins does not match. *)
Lemma lit_conflict {A : Type} eqc w (m : matcher A) v s :
  isPrefix v s = true ->
  forallb (fun xy => eqc (fst xy) (snd xy)) (combine w v) = false ->
  lit eqc w m s = None.
Proof.
  intros Hp Hf. unfold lit.
  rewrite (combine_prefix_false _ _ _ _ Hp Hf). now rewrite andb_false_r.
Qed.

Lemma literal_none v text :
  isPrefix v text = true ->
  forall phrases c,
  forallb (fun w => negb (isPrefix v (utf16 w))) phrases = true ->
  literal text phrases c = None.
Proof.
  intros Hp phrases c Hf. unfold literal, isOneOf.
  destruct (existsb _ phrases) eqn:E; [|reflexivity].
  apply existsb_exists in E. destruct E as (w & Hw & He).
  apply str_eqb_eq in He. subst text.
  rewrite forallb_forall in Hf. specialize (Hf _ Hw).
  rewrite Hp in Hf. discriminate.
Qed.

Lemma notePattern_none verb text :
  In verb (amountVerbs ++ moodVerbs) ->
  isPrefix (utf16 verb) text = true -> notePattern text = None.
Proof.
  intros Hin Hp. unfold notePattern, alt. cbv zeta.
  cbn in Hin.
  repeat (destruct Hin as [<-|Hin];
          [rewrite !(lit_conflict _ _ _ _ _ Hp) by reflexivity; reflexivity|]).
  contradiction.
Qed.

Lemma moodPattern_none verb text :
  In verb amountVerbs ->
  isPrefix (utf16 verb) text = true -> moodPattern text = None.
Proof.
  intros Hin Hp. unfold moodPattern, alt. cbv zeta.
  cbn in Hin.
  repeat (destruct Hin as [<-|Hin];
          [rewrite !(lit_conflict _ _ _ _ _ Hp) by reflexivity; reflexivity|]).
  contradiction.
Qed.

(** No branch of the dispatcher takes a text that begins with a command
    verb, does not end with an amount and is not a mood command. *)
Lemma dispatchCommand_none verb text originalText :
  In verb (amountVerbs ++ moodVerbs) ->
  isPrefix (utf16 verb) text = true ->
  isPrefix (utf16 verb) originalText = true ->
  endsWithAmountToken originalText = false ->
  moodPattern text = None ->
  dispatchCommand text originalText = None.
Proof.
  intros Hin Hp Hpo Hamount Hmood. unfold dispatchCommand.
  rewrite !verbNameAmount_none by assumption.
  rewrite Hmood, (@notePattern_none verb originalText Hin Hpo).
  cbn in Hin.
  repeat (destruct Hin as [<-|Hin];
          [rewrite !(@literal_none _ _ Hp) by reflexivity; reflexivity|]).
  contradiction.
Qed.

Lemma smartInputPattern_digit s x :
  smartInputPattern s = Some x -> existsb isDigit s = true.
Proof.
  unfold smartInputPattern. intros H.
  apply lazyPlus_some in H. destruct H as (a & r & -> & _ & _ & H).
  apply greedy_some in H. destruct H as (w & r' & -> & _ & _ & H).
  apply amountAndNote_head in H. destruct r' as [|c r']; [contradiction|].
  rewrite !existsb_app. simpl. rewrite H. now rewrite !orb_true_r.
Qed.

Section FallThrough.
Context {R : Runtime}.

Lemma webhookEvent_smartInput db clk event user groupId :
  isTextMessage event = true ->
  findUser db (source_userId event) = Some user ->
  populatedGroupId db user = Some groupId ->
  dispatchCommand (toLowerCase (trim (message_text event)))
                  (trim (message_text event)) = None ->
  webhookEvent db clk event
  = smartInputOutcome db clk user groupId (source_userId event)
                      (trim (message_text event)).
Proof.
  intros Ht Hu Hg Hd. unfold webhookEvent, smartInputOutcome.
  now rewrite Ht, Hu, Hg, Hd.
Qed.

(** C8.  In the second webhook handler, a text that begins with the verb
    of a command with a final amount (set budget, create goal, add to
    goal) and does not end with white space and digits, or that begins
    with the mood verb and does not end with a digit, is taken by no
    command branch and is not answered as a malformed command: the
    outcome of the event is the outcome of Smart Input on that text.  When
    the text holds no digit at all, Smart Input finds no amount and the
    event ends without reply and without write. *)
Theorem command_without_amount_falls_through
    (db : Db) (clk : Clock) (event : Event) (user : User) (groupId : ObjectId)
    (verb : string) :
  isTextMessage event = true ->
  findUser db (source_userId event) = Some user ->
  populatedGroupId db user = Some groupId ->
  isPrefix (utf16 verb) (trim (message_text event)) = true ->
  isPrefix (utf16 verb) (toLowerCase (trim (message_text event))) = true ->
  (In verb amountVerbs
   /\ endsWithAmountToken (trim (message_text event)) = false)
  \/ (In verb moodVerbs
      /\ endsWith isDigit (trim (message_text event)) = false
      /\ endsWith isDigit (toLowerCase (trim (message_text event))) = false) ->
  webhookEvent db clk event
  = smartInputOutcome db clk user groupId (source_userId event)
                      (trim (message_text event))
  /\ (existsb isDigit (trim (message_text event)) = false ->
      webhookEvent db clk event = Continue db None).
Proof.
  intros Ht Hu Hg Hpo Hp Hcase.
  assert (Hd : dispatchCommand (toLowerCase (trim (message_text event)))
                               (trim (message_text event)) = None).
  { destruct Hcase as [[Hin Ha]|(Hin & Hdo & Hdl)].
    - apply dispatchCommand_none with (verb := verb); auto.
      + apply in_or_app. now left.
      + now apply moodPattern_none with (verb := verb).
    - apply dispatchCommand_none with (verb := verb); auto.
      + apply in_or_app. now right.
      + destruct (endsWithAmountToken _) eqn:E; [|reflexivity].
        apply endsWithAmountToken_digit in E. congruence.
      + destruct (moodPattern _) eqn:E; [|reflexivity].
        apply moodPattern_some in E. congruence. }
  rewrite (webhookEvent_smartInput _ _ _ Ht Hu Hg Hd).
  split; [reflexivity|].
  intros Hnd. unfold smartInputOutcome, smartInput.
  destruct (smartInputPattern _) as [x|] eqn:E; [|reflexivity].
  apply smartInputPattern_digit in E. congruence.
Qed.

End FallThrough.

Lemma command_without_amount_falls_through_witness :
  isTextMessage (textEvent "ตั้งงบ อาหาร") = true
  /\ endsWithAmountToken (trim (message_text (textEvent "ตั้งงบ อาหาร"))) = false
  /\ @webhookEvent plainRuntime demoDb demoClock (textEvent "ตั้งงบ อาหาร")
     = Continue demoDb None.
Proof.
  split; [reflexivity|]. split; [reflexivity|].
  refine (proj2 (@command_without_amount_falls_through plainRuntime demoDb
                   demoClock (textEvent "ตั้งงบ อาหาร") demoUser demoGroupId
                   "ตั้งงบ" eq_refl eq_refl eq_refl eq_refl eq_refl _) eq_refl).
  left. split; [|reflexivity]. left. reflexivity.
Defined.

(** ** The scenarios of the specification on the sample wallet *)

(** Scenario 3: ["เงินเดือน 25000"] is an income keyword and the name of an
    income category; the exact-name rule records an income of 25000. *)
Example salary_is_income :
  exists c0 db' reply stored,
    @classify plainRuntime demoDb demoClock demoUser demoUserId
      (utf16 "เงินเดือน" ++ utf16 " " ++ utf16 "25000")
    = Ok (db', Some reply)
    /\ find (@sameName plainRuntime (utf16 "เงินเดือน"))
            (findCategories demoDb (currentGroupId demoUser)) = Some c0
    /\ transactions db' = transactions demoDb ++ [stored]
    /\ tx_type stored = cat_type c0
    /\ tx_categoryId stored = cat_id c0
    /\ tx_amount stored = Some (25000 # 1)%Q.
Proof.
  apply (@classify_exact_label plainRuntime demoDb demoClock demoUser demoUserId
           (utf16 "เงินเดือน") (utf16 "25000") (25000 # 1)%Q
           (mkCategory 121%N demoGroupId (utf16 "เงินเดือน") (utf16 "💰") income
                       (utf16 "#00FF88") 0%Q));
    try reflexivity.
  - discriminate.
  - vm_compute. do 20 right. left. reflexivity.
Qed.

(** The mood verb without its digit reaches Smart Input as well. *)
Example mood_without_digit_falls_through :
  @webhookEvent plainRuntime demoDb demoClock (textEvent "mood") = Continue demoDb None.
Proof. vm_compute. reflexivity. Qed.

(** Scenario 4 in [handleEvent]: a wallet without expense categories
    answers ["กาแฟ 80"] with the fixed text and writes nothing. *)
Example no_category_of_the_type :
  @classify plainRuntime incomeOnlyDb demoClock demoUser demoUserId (utf16 "กาแฟ 80")
  = Ok (incomeOnlyDb, Some categoryMissingReply)
  /\ existsb (ofType expense)
       (findCategories incomeOnlyDb (currentGroupId demoUser)) = false.
Proof. split; vm_compute; reflexivity. Qed.

(** Scenario 5 in the second handler: the first recorded message of a new
    user sets the streak to 1, the last-record day to today and unlocks
    ["first_record"]. *)
Example first_record_of_a_new_user :
  updateStreak_webhook demoClock demoUser
  = Some (withGamification demoUser 1 (utf16 "2026-01-01") [utf16 "first_record"]).
Proof. reflexivity. Qed.

(** * Further properties of the handlers *)

(** ** The number pattern finds the first, longest number *)

Lemma alt_some {A : Type} (a b : matcher A) s x :
  alt a b s = Some x -> a s = Some x \/ (a s = None /\ b s = Some x).
Proof. unfold alt. destruct (a s); [intros [= ->]; now left|now right]. Qed.

Lemma lit_exact_some {A : Type} w (m : matcher A) s x :
  lit exact w m s = Some x -> exists r, s = w ++ r /\ m r = Some x.
Proof.
  intros H. apply lit_some in H. destruct H as (Hlen & Hall & Hm).
  exists (skipn (List.length w) s). split; [|exact Hm].
  rewrite <- (firstn_skipn (List.length w) s) at 1. f_equal.
  clear Hm. revert s Hlen Hall.
  induction w as [|c w IH]; intros [|d s] Hlen Hall; simpl in *;
    try reflexivity; try lia.
  apply andb_true_iff in Hall. destruct Hall as [Hc Hall].
  apply N.eqb_eq in Hc. subst d. f_equal. apply IH; [lia|exact Hall].
Qed.

Lemma numberAt_longest s : numberAt s = longestNumber s.
Proof.
  unfold numberAt, longestNumber, greedy at 1.
  destruct (span_spec isAmountChar s) as (Hs & Ha & Hr).
  destruct (span isAmountChar s) as [ip r] eqn:E. cbn [fst snd] in *.
  destruct ip as [|c ip]; [reflexivity|]. cbn [isEmpty].
  destruct (Nat.ltb_spec (List.length (c :: ip)) 1) as [Hl|_]; [simpl in Hl; lia|].
  rewrite tryLongest_first with (x :=
    match r with
    | d :: r' =>
      if (d =? 46)%N then
        let (fp, r'') := span isDigit r' in
        if isEmpty fp then ((c :: ip), r)
        else ((c :: ip) ++ utf16 "." ++ fp, r'')
      else ((c :: ip), r)
    | [] => ((c :: ip), r)
    end).
  - destruct r as [|d r']; [reflexivity|].
    destruct (d =? 46)%N; [|reflexivity].
    destruct (span isDigit r') as [fp r'']. now destruct (isEmpty fp).
  - rewrite Hs, firstn_app, firstn_all, Nat.sub_diag, skipn_app, skipn_all,
      Nat.sub_diag. cbn [firstn skipn app]. rewrite app_nil_r.
    unfold alt. destruct r as [|d r'].
    + rewrite lit_head_mismatch by exact I. reflexivity.
    + destruct (N.eqb_spec d 46) as [->|Hd].
      * change (46%N :: r') with (utf16 "." ++ r'). rewrite lit_exact.
        destruct (span_spec isDigit r') as (Hs' & Ha' & Hr').
        destruct (span isDigit r') as [fp r''] eqn:E'. cbn [fst snd] in *.
        destruct fp as [|f fp].
        -- cbn [app] in Hs'. subst r''. rewrite greedy_head_fails; [reflexivity|lia|].
           destruct r'; [exact I|exact Hr'].
        -- rewrite Hs'.
           rewrite greedy_first
             with (x := ((c :: ip) ++ utf16 "." ++ f :: fp, r'')); auto.
           simpl; lia.
      * rewrite lit_head_mismatch; [reflexivity|].
        change (utf16 ".") with [46%N]. unfold exact.
        apply N.eqb_neq. congruence.
Qed.

Lemma search_some {A : Type} (m : matcher A) s b x :
  search m s = Some (b, x) ->
  exists r, s = b ++ r /\ m r = Some x
            /\ forall y z, b = y ++ z -> z <> [] -> m (z ++ r) = None.
Proof.
  revert b. induction s as [|c s IH]; intros b; simpl.
  - destruct (m []) eqn:E; [|discriminate].
    intros [= <- <-]. exists []. repeat split; auto.
    intros y z Hb Hz. symmetry in Hb. apply app_eq_nil in Hb. tauto.
  - destruct (m (c :: s)) eqn:E.
    + intros [= <- <-]. exists (c :: s). repeat split; auto.
      intros y z Hb Hz. symmetry in Hb. apply app_eq_nil in Hb. tauto.
    + destruct (search m s) as [[b' x']|] eqn:Es; [|discriminate].
      intros [= <- <-]. destruct (IH _ eq_refl) as (r & -> & Hm & Hn).
      exists r. repeat split; auto.
      intros y z Hb Hz. destruct y as [|d y].
      * simpl in Hb. subst z. exact E.
      * simpl in Hb. injection Hb as _ Hb. now apply (Hn y z).
Qed.

Lemma longestNumber_head c s :
  isAmountChar c = true -> longestNumber (c :: s) <> None.
Proof.
  intros Hc. unfold longestNumber. simpl. rewrite Hc.
  destruct (span isAmountChar s) as [ip r]. cbn [isEmpty].
  destruct r as [|d r']; [discriminate|].
  destruct (d =? 46)%N; [|discriminate].
  destruct (span isDigit r') as [fp r'']. destruct (isEmpty fp); discriminate.
Qed.

Lemma longestNumber_some s m a :
  longestNumber s = Some (m, a) ->
  s = m ++ a /\ startsWith isAmountChar m = true
  /\ exists ip, forallb isAmountChar ip = true
       /\ ((m = ip /\ startsWith isAmountChar a = false)
           \/ exists fp, fp <> [] /\ forallb isDigit fp = true
                         /\ m = ip ++ utf16 "." ++ fp
                         /\ startsWith isDigit a = false).
Proof.
  unfold longestNumber.
  destruct (span_spec isAmountChar s) as (Hs & Ha & Hr).
  destruct (span isAmountChar s) as [ip r]. cbn [fst snd] in *.
  destruct ip as [|c ip]; [discriminate|]. cbn [isEmpty].
  assert (Hc : isAmountChar c = true)
    by (simpl in Ha; apply andb_true_iff in Ha; tauto).
  assert (Hplain : Some (c :: ip, r) = Some (m, a) ->
            s = m ++ a /\ startsWith isAmountChar m = true
            /\ exists ip0, forallb isAmountChar ip0 = true
                 /\ ((m = ip0 /\ startsWith isAmountChar a = false)
                     \/ exists fp, fp <> [] /\ forallb isDigit fp = true
                                   /\ m = ip0 ++ utf16 "." ++ fp
                                   /\ startsWith isDigit a = false)).
  { intros [= <- <-]. split; [exact Hs|]. split; [exact Hc|].
    exists (c :: ip). split; [exact Ha|]. left. split; [reflexivity|].
    destruct r; [reflexivity|exact Hr]. }
  destruct r as [|d r']; [exact Hplain|].
  destruct (N.eqb_spec d 46) as [->|Hd]; [|exact Hplain].
  destruct (span_spec isDigit r') as (Hs' & Ha' & Hr').
  destruct (span isDigit r') as [fp r'']. cbn [fst snd] in *.
  destruct fp as [|f fp]; [exact Hplain|]. cbn [isEmpty]. clear Hplain.
  intros [= <- <-]. split.
  { rewrite Hs, Hs'. simpl. now rewrite <- app_assoc. }
  split; [exact Hc|].
  exists (c :: ip). split; [exact Ha|]. right. exists (f :: fp).
  repeat split; auto; [discriminate|].
  destruct r''; [reflexivity|exact Hr'].
Qed.

Lemma numberPattern_sound text before m after :
  numberPattern text = Some (before, (m, after)) ->
  text = before ++ m ++ after
  /\ forallb (fun c => negb (isAmountChar c)) before = true
  /\ longestNumber (m ++ after) = Some (m, after).
Proof.
  intros H. change numberPattern with (search numberAt) in H.
  apply search_some in H. destruct H as (r & -> & Hm & Hn).
  rewrite numberAt_longest in Hm.
  pose proof (longestNumber_some _ Hm) as (Hr & _). subst r.
  repeat split; auto.
  apply forallb_forall. intros c Hc. apply in_split in Hc.
  destruct Hc as (y & z & ->).
  specialize (Hn y (c :: z) eq_refl ltac:(discriminate)).
  rewrite numberAt_longest in Hn. simpl in Hn.
  destruct (isAmountChar c) eqn:E; [|reflexivity].
  exfalso. eapply longestNumber_head; eauto.
Qed.

Lemma numberPattern_finds text :
  existsb isAmountChar text = true -> numberPattern text <> None.
Proof.
  intros H. apply existsb_exists in H. destruct H as (c & Hc & E).
  apply in_split in Hc. destruct Hc as (y & z & ->).
  change numberPattern with (search numberAt).
  induction y as [|d pre IH]; cbn [app search].
  - rewrite numberAt_longest.
    destruct (longestNumber (c :: z)) eqn:El; [discriminate|].
    exfalso. eapply longestNumber_head; eauto.
  - destruct (numberAt (d :: pre ++ c :: z)); [discriminate|].
    destruct (search numberAt (pre ++ c :: z)) as [[b x]|]; [discriminate|].
    congruence.
Qed.


(** ** First contact *)

Lemma find_app_fresh {X : Type} (f : X -> bool) (l : list X) (x : X) :
  find f l = None -> f x = true -> find f (l ++ [x]) = Some x.
Proof.
  intros Hn Hx. induction l as [|y l IH]; simpl in *; [now rewrite Hx|].
  destruct (f y); [discriminate|]. now apply IH.
Qed.

Lemma filter_none {X : Type} (f : X -> bool) (l : list X) :
  (forall x, In x l -> f x = false) -> filter f l = [].
Proof.
  induction l as [|x l IH]; intros H; simpl; [reflexivity|].
  rewrite (H x) by now left. apply IH. intros y Hy. apply H. now right.
Qed.

Lemma filter_all {X : Type} (f : X -> bool) (l : list X) :
  (forall x, In x l -> f x = true) -> filter f l = l.
Proof.
  induction l as [|x l IH]; intros H; simpl; [reflexivity|].
  rewrite (H x) by now left. f_equal. apply IH. intros y Hy. apply H. now right.
Qed.

Lemma seedCategories_spec g ty first idx seeds :
  map cat_name (seedCategories g ty first idx seeds)
  = map (fun seed => utf16 (fst (fst seed))) seeds
  /\ map cat_type (seedCategories g ty first idx seeds)
     = repeat ty (List.length seeds)
  /\ Forall (fun c => cat_groupId c = g /\ budgetLimit c = 0%Q)
            (seedCategories g ty first idx seeds).
Proof.
  revert idx. induction seeds as [|[[name icon] color] seeds IH]; intros idx.
  - simpl. auto.
  - destruct (IH (S idx)) as (Hn & Ht & Hf). cbn [seedCategories map List.length repeat].
    rewrite Hn, Ht. repeat split; auto.
Qed.

Lemma createDefaultCategories_spec g first :
  let cats := createDefaultCategories g first in
  map cat_name cats
  = map (fun seed => utf16 (fst (fst seed)))
        (defaultCategories_expense ++ defaultCategories_income)
  /\ map cat_type cats
     = repeat expense (List.length defaultCategories_expense)
       ++ repeat income (List.length defaultCategories_income)
  /\ Forall (fun c => cat_groupId c = g /\ budgetLimit c = 0%Q) cats.
Proof.
  cbv zeta. unfold createDefaultCategories.
  destruct (seedCategories_spec g expense first 0 defaultCategories_expense)
    as (Hn & Ht & Hf).
  destruct (seedCategories_spec g income first
              (List.length defaultCategories_expense) defaultCategories_income)
    as (Hn' & Ht' & Hf').
  rewrite !map_app, Hn, Hn', Ht, Ht'. repeat split; auto.
  apply Forall_app. auto.
Qed.

Lemma createDefaultCategories_both g first ty :
  exists c, In c (createDefaultCategories g first) /\ cat_type c = ty.
Proof.
  pose proof (createDefaultCategories_spec g first) as (_ & Ht & _).
  assert (Hin : In ty (map cat_type (createDefaultCategories g first))).
  { rewrite Ht. apply in_or_app. destruct ty; [left|right]; now left. }
  apply in_map_iff in Hin. destruct Hin as (c & Hc & Hin). eauto.
Qed.

Section FirstContact.
Context {R : Runtime}.

Lemma handleEvent_unregistered db clk profile event :
  isTextMessage event = true ->
  findUser db (source_userId event) = None ->
  handleEvent db clk profile event
  = match classify (fst (registerUser db profile (source_userId event))) clk
            (snd (registerUser db profile (source_userId event)))
            (source_userId event) (trim (message_text event)) with
    | Ok r => r
    | Throw _ => (fst (registerUser db profile (source_userId event)),
                  Some errorReply)
    end.
Proof.
  intros Ht Hu. unfold handleEvent. rewrite Ht, Hu. cbn [negb].
  now destruct (registerUser db profile (source_userId event)).
Qed.

Lemma handleEvent_unregistered_store db clk profile event :
  isTextMessage event = true ->
  findUser db (source_userId event) = None ->
  let db1 := fst (registerUser db profile (source_userId event)) in
  let db' := fst (handleEvent db clk profile event) in
  users db' = users db1 /\ groups db' = groups db1
  /\ categories db' = categories db1.
Proof.
  intros Ht Hu. cbv zeta. rewrite (@handleEvent_unregistered db clk profile event Ht Hu).
  destruct (classify _ _ _ _ _) as [[db' reply]|e] eqn:Hc; [|auto].
  apply classify_frame in Hc. cbn [fst]. tauto.
Qed.

(** X2.  First contact by chat.  A text message of a sender the store does
    not know registers them before anything else: one user is added, under
    the sender's identifier, with a name that is not empty, streak 0, no
    last-record date and no badge; one personal wallet is added, created by
    the sender and with the sender as its only member, and it is the user's
    current wallet, which the store can resolve; when no category already
    refers to the new wallet, its categories are the default ones, the
    expense seeds followed by the income seeds under their names, all
    without a budget.  Whatever the text then leads to, this holds in the
    store the handler leaves. *)
Theorem first_contact_registers
    (db : Db) (clk : Clock) (profile : option Profile) (event : Event) :
  isTextMessage event = true ->
  findUser db (source_userId event) = None ->
  (forall c, In c (categories db) -> cat_groupId c <> nextObjectId db) ->
  let uid := source_userId event in
  let wid := nextObjectId db in
  let db' := fst (handleEvent db clk profile event) in
  exists user wallet,
    users db' = users db ++ [user]
    /\ findUser db' uid = Some user
    /\ lineUserId user = uid /\ displayName user <> []
    /\ streak user = 0%Z /\ lastRecordDate user = None
    /\ achievements user = []
    /\ currentGroupId user = Some wid
    /\ groups db' = groups db ++ [wallet]
    /\ group_id wallet = wid /\ group_type wallet = personal
    /\ members wallet = [uid] /\ createdBy wallet = uid
    /\ populatedGroupId db' user = Some wid
    /\ let cats := findCategories db' (Some wid) in
       map cat_name cats
       = map (fun seed => utf16 (fst (fst seed)))
             (defaultCategories_expense ++ defaultCategories_income)
       /\ map cat_type cats
          = repeat expense (List.length defaultCategories_expense)
            ++ repeat income (List.length defaultCategories_income)
       /\ Forall (fun c => budgetLimit c = 0%Q) cats.
Proof.
  intros Ht Hu Hfresh. cbv zeta.
  destruct (@handleEvent_unregistered_store db clk profile event Ht Hu) as (Hus & Hgs & Hcs).
  set (db' := fst (handleEvent db clk profile event)) in *.
  unfold registerUser in Hus, Hgs, Hcs. cbn [fst users groups categories] in Hus, Hgs, Hcs.
  eexists; eexists.
  split; [exact Hus|].
  split.
  { unfold findUser. rewrite Hus. apply find_app_fresh; [exact Hu|].
    cbn [lineUserId]. apply str_eqb_refl. }
  split; [reflexivity|].
  split.
  { cbn [displayName]. unfold orElse.
    destruct (isEmpty (profile_displayName _)) eqn:E.
    - vm_compute. discriminate.
    - intros H. rewrite H in E. discriminate. }
  do 4 (split; [reflexivity|]).
  split; [exact Hgs|].
  do 4 (split; [reflexivity|]).
  split.
  { unfold populatedGroupId. cbn [currentGroupId]. rewrite Hgs, existsb_app.
    cbn [existsb group_id]. now rewrite N.eqb_refl, orb_true_r. }
  unfold findCategories. rewrite Hcs, filter_app.
  rewrite filter_none.
  2:{ intros c Hc. cbn [option_eqb]. apply N.eqb_neq. now apply Hfresh. }
  pose proof (createDefaultCategories_spec (nextObjectId db) (nextObjectId db + 1)%N)
    as (Hn & Hty & Hf).
  rewrite filter_all.
  2:{ intros c Hc. cbn [option_eqb]. apply N.eqb_eq.
      rewrite Forall_forall in Hf. now apply Hf. }
  cbn [app]. repeat split; auto.
  eapply Forall_impl; [|exact Hf]. cbv beta. tauto.
Qed.

End FirstContact.

Lemma first_contact_registers_witness :
  exists user,
    findUser (fst (@handleEvent plainRuntime (mkDb [] [] [] [] 1%N) demoClock None
                     (textEvent "อาหาร 150")))
             demoUserId = Some user
    /\ currentGroupId user = Some 1%N.
Proof.
  destruct (@first_contact_registers plainRuntime (mkDb [] [] [] [] 1%N) demoClock
              None (textEvent "อาหาร 150"))
    as (user & wallet & _ & Hf & _ & _ & _ & _ & _ & Hg & _).
  - reflexivity.
  - reflexivity.
  - simpl. contradiction.
  - exists user. split; [exact Hf|exact Hg].
Defined.

Section MissingCategory.
Context {R : Runtime}.

(** The ["category missing"] reply of [classify] needs a wallet without a
    category of the type at hand. *)
Lemma classify_missing db clk user uid text db' :
  classify db clk user uid text = Ok (db', Some categoryMissingReply) ->
  exists ty, noneWith (ofType ty) (findCategories db (currentGroupId user)).
Proof.
  unfold classify.
  destruct (_ || _); [discriminate|].
  destruct (numberPattern text) as [[before [amountMatch after]]|]; [|discriminate].
  destruct (detectKeyword _ _) as [ti|]; simpl; [|discriminate].
  destruct (resolveCategory _ _ _ _) as [[category|] type] eqn:Hr.
  - destruct (saveTransaction _ _ _); simpl; discriminate.
  - intros _. apply resolveCategory_none in Hr. destruct Hr as [_ Hn]. eauto.
Qed.

(** X3.  The reply that no category could be found and nothing was
    recorded is only ever given to a sender who was registered before the
    message and whose current wallet holds no category at all of one of the
    two types.  In particular it is never the answer to a first message:
    the wallet made at registration has categories of both types. *)
Theorem missing_category_reply_cause
    (db db' : Db) (clk : Clock) (profile : option Profile) (event : Event) :
  handleEvent db clk profile event = (db', Some categoryMissingReply) ->
  exists user ty,
    findUser db (source_userId event) = Some user
    /\ forall c, In c (categories db) ->
                 Some (cat_groupId c) = currentGroupId user ->
                 cat_type c <> ty.
Proof.
  intros H.
  destruct (isTextMessage event) eqn:Ht.
  2:{ unfold handleEvent in H. rewrite Ht in H. discriminate. }
  destruct (findUser db (source_userId event)) as [user|] eqn:Hu.
  - rewrite (handleEvent_registered _ _ _ _ Hu), Ht in H. cbn [negb] in H.
    destruct (classify _ _ _ _ _) as [[db1 reply]|e] eqn:Hc; [|discriminate].
    injection H as -> ->. apply classify_missing in Hc. destruct Hc as [ty Hn].
    exists user, ty. split; [reflexivity|]. intros c Hin Hg Hty.
    assert (Hc : In c (findCategories db (currentGroupId user))).
    { unfold findCategories. apply filter_In. split; [exact Hin|].
      rewrite <- Hg. cbn [option_eqb]. apply N.eqb_refl. }
    apply Hn in Hc. unfold ofType in Hc. rewrite Hty in Hc.
    destruct ty; discriminate.
  - exfalso. rewrite (@handleEvent_unregistered R db clk profile event Ht Hu) in H.
    destruct (classify _ _ _ _ _) as [[db1 reply]|e] eqn:Hc; [|discriminate].
    injection H as -> ->. apply classify_missing in Hc. destruct Hc as [ty Hn].
    destruct (createDefaultCategories_both (nextObjectId db) (nextObjectId db + 1)%N ty)
      as (c & Hin & Hty).
    assert (Hc : In c (findCategories (fst (registerUser db profile (source_userId event)))
                         (currentGroupId (snd (registerUser db profile
                                                 (source_userId event)))))).
    { unfold findCategories, registerUser. cbn [fst snd categories currentGroupId].
      apply filter_In. split; [apply in_or_app; now right|].
      pose proof (createDefaultCategories_spec (nextObjectId db) (nextObjectId db + 1)%N)
        as (_ & _ & Hf).
      rewrite Forall_forall in Hf. destruct (Hf c Hin) as [Hg _].
      cbn [option_eqb]. rewrite Hg. apply N.eqb_refl. }
    apply Hn in Hc. unfold ofType in Hc. rewrite Hty in Hc.
    destruct ty; discriminate.
Qed.

End MissingCategory.

Lemma missing_category_reply_cause_witness :
  exists user ty,
    findUser incomeOnlyDb (source_userId (textEvent "กาแฟ 50")) = Some user
    /\ forall c, In c (categories incomeOnlyDb) ->
                 Some (cat_groupId c) = currentGroupId user ->
                 cat_type c <> ty.
Proof.
  apply (@missing_category_reply_cause plainRuntime incomeOnlyDb incomeOnlyDb
           demoClock None (textEvent "กาแฟ 50")).
  vm_compute. reflexivity.
Defined.

(** ** What [handleEvent] stores, and what the summary then counts *)

Lemma saveTransaction_ok db clk t db' :
  saveTransaction db clk t = Ok db' ->
  exists g q,
    tx_groupId t = Some g /\ tx_amount t = Some q /\ Qle_bool 0%Q q = true
    /\ db' = mkDb (users db) (groups db) (categories db)
               (transactions db
                ++ [mkTransaction (tx_groupId t) (tx_userId t) (tx_type t)
                      (tx_amount t) (tx_categoryId t) (tx_date t)
                      (getCurrentMonthStr clk) (tx_note t)])
               (nextObjectId db).
Proof.
  unfold saveTransaction.
  destruct (tx_groupId t) as [g|]; [|discriminate].
  destruct (tx_amount t) as [q|]; [|discriminate].
  destruct (Qle_bool 0%Q q) eqn:E; [|discriminate].
  intros [= <-]. exists g, q. auto.
Qed.

Section Recorded.
Context {R : Runtime}.

Lemma resolveCategory_In cats categoryName textWithoutNumber ty c ty' :
  resolveCategory cats categoryName textWithoutNumber ty = (Some c, ty') ->
  In c cats.
Proof.
  unfold resolveCategory.
  destruct (find (fun c0 => negb (isEmpty textWithoutNumber) && _) cats)
    as [e|] eqn:He.
  { intros [= <- _]. now apply find_some in He. }
  destruct (find (sameName categoryName) cats) as [c1|] eqn:H1.
  { intros [= <- _]. now apply find_some in H1. }
  destruct (find (fun c0 => TxType_eqb (cat_type c0) ty && _) cats)
    as [c2|] eqn:H2.
  { intros [= <- _]. now apply find_some in H2. }
  destruct (find (fun c0 => TxType_eqb (cat_type c0) ty) cats) as [c3|] eqn:H3;
    [|discriminate].
  intros [= <- _]. now apply find_some in H3.
Qed.

Lemma classify_recorded db clk user uid text db' ty a h cname f :
  classify db clk user uid text = Ok (db', Some (RecordedFlex ty a h cname f)) ->
  exists g q cat,
    currentGroupId user = Some g /\ a = Some q /\ Qle_bool 0%Q q = true
    /\ In cat (categories db) /\ cat_groupId cat = g /\ cname = cat_name cat
    /\ db' = mkDb (users db) (groups db) (categories db)
               (transactions db
                ++ [mkTransaction (Some g) uid ty (Some q) (cat_id cat)
                      (nowMs clk) (getCurrentMonthStr clk) text])
               (nextObjectId db).
Proof.
  unfold classify.
  destruct (_ || _); [discriminate|].
  destruct (numberPattern text) as [[before [amountMatch after]]|]; [|discriminate].
  destruct (detectKeyword _ _) as [ti|]; simpl; [|discriminate].
  destruct (resolveCategory _ _ _ _) as [[category|] type] eqn:Hr; [|discriminate].
  destruct (saveTransaction _ _ _) as [db1|] eqn:Hs; simpl; [|discriminate].
  intros [= <- <- <- _ <- _].
  apply saveTransaction_ok in Hs. cbn [tx_groupId tx_amount tx_userId tx_type
    tx_categoryId tx_date tx_note] in Hs.
  destruct Hs as (g & q & Hg & Hq & Hle & ->).
  apply resolveCategory_In, findCategories_group in Hr. destruct Hr as [Hcg Hin].
  exists g, q, category. rewrite Hg, Hq. repeat split; auto.
  rewrite Hg in Hcg. now injection Hcg as ->.
Qed.

(** X4.  What a "recorded" card of [handleEvent] stands for.  When the
    handler answers a registered sender with the card, exactly one
    transaction has been stored and nothing else has changed: it is filed
    under the sender's current wallet and the sender's identifier, its
    category is a category of that same wallet (never of another one) whose
    name the card shows, its amount is the number on the card and is not
    negative, its date is the instant of the request and its month key the
    local month of that instant. *)
Theorem recorded_card_is_in_the_senders_wallet
    (db db' : Db) (clk : Clock) (profile : option Profile) (event : Event)
    (user : User) (ty : TxType) (a : option Q) (h cname f : jsstring) :
  findUser db (source_userId event) = Some user ->
  handleEvent db clk profile event = (db', Some (RecordedFlex ty a h cname f)) ->
  exists g q cat,
    currentGroupId user = Some g
    /\ a = Some q /\ (0 <= q)%Q
    /\ In cat (categories db) /\ cat_groupId cat = g /\ cname = cat_name cat
    /\ db' = mkDb (users db) (groups db) (categories db)
               (transactions db
                ++ [mkTransaction (Some g) (source_userId event) ty (Some q)
                      (cat_id cat) (nowMs clk) (getCurrentMonthStr clk)
                      (trim (message_text event))])
               (nextObjectId db).
Proof.
  intros Hu H. rewrite (handleEvent_registered _ _ _ _ Hu) in H.
  destruct (negb (isTextMessage event)); [discriminate|].
  destruct (classify _ _ _ _ _) as [[db1 reply]|e] eqn:Hc; [|discriminate].
  injection H as -> ->. apply classify_recorded in Hc.
  destruct Hc as (g & q & cat & Hg & Ha & Hle & Hin & Hcg & Hn & Hdb).
  exists g, q, cat. repeat split; auto. now apply Qle_bool_iff.
Qed.

(** X5.  The summary and the month key.  The summary command counts the
    transactions of the sender's wallet whose month key is the current
    month in UTC, but the key a transaction is stored under is the local
    month of the server.  So right after a "recorded" card, at the same
    instant: when the two months agree the summary counts one transaction
    more than before; when they differ (around the turn of a month, on a
    server whose time zone is not UTC) the summary is exactly what it was
    before, the new transaction is not in it. *)
Theorem summary_counts_by_utc_month
    (db db' : Db) (clk : Clock) (user : User) (uid text : jsstring)
    (ty : TxType) (a : option Q) (h cname f : jsstring) :
  classify db clk user uid text = Ok (db', Some (RecordedFlex ty a h cname f)) ->
  (getCurrentMonthStr clk = utcMonthStr clk ->
   exists i e n i' e',
     summaryReply db clk user = SummaryFlex i e n
     /\ summaryReply db' clk user = SummaryFlex i' e' (S n))
  /\ (getCurrentMonthStr clk <> utcMonthStr clk ->
      summaryReply db' clk user = summaryReply db clk user).
Proof.
  intros Hc. apply classify_recorded in Hc.
  destruct Hc as (g & q & cat & Hg & _ & _ & _ & _ & _ & ->).
  unfold summaryReply. cbn [transactions]. rewrite filter_app.
  cbn [filter tx_groupId tx_monthStr]. rewrite Hg. cbn [option_eqb].
  rewrite N.eqb_refl. cbn [andb]. split.
  - intros Hm. rewrite Hm, str_eqb_refl. do 5 eexists. split; [reflexivity|].
    rewrite length_app. cbn [List.length]. rewrite Nat.add_1_r. reflexivity.
  - intros Hm. apply str_eqb_neq in Hm. rewrite Hm. now rewrite app_nil_r.
Qed.

End Recorded.

Lemma recorded_card_is_in_the_senders_wallet_witness :
  findUser demoDb (source_userId (textEvent "อาหาร 150")) = Some demoUser
  /\ exists g q cat,
       currentGroupId demoUser = Some g
       /\ Some (150 # 1)%Q = Some q /\ (0 <= q)%Q
       /\ In cat (categories demoDb) /\ cat_groupId cat = g
       /\ utf16 "อาหาร" = cat_name cat
       /\ fst (@handleEvent plainRuntime demoDb demoClock None
                 (textEvent "อาหาร 150"))
          = mkDb (users demoDb) (groups demoDb) (categories demoDb)
              (transactions demoDb
               ++ [mkTransaction (Some g) demoUserId expense (Some q)
                     (cat_id cat) (nowMs demoClock)
                     (getCurrentMonthStr demoClock) (utf16 "อาหาร 150")])
              (nextObjectId demoDb).
Proof.
  split; [reflexivity|].
  destruct (@recorded_card_is_in_the_senders_wallet plainRuntime demoDb
              (fst (@handleEvent plainRuntime demoDb demoClock None
                      (textEvent "อาหาร 150")))
              demoClock None (textEvent "อาหาร 150") demoUser expense
              (Some (150 # 1)%Q) (utf16 "อาหาร") (utf16 "อาหาร") (utf16 "อาหาร"))
    as (g & q & cat & H).
  - reflexivity.
  - vm_compute. reflexivity.
  - exists g, q, cat. exact H.
Defined.

Lemma summary_counts_by_utc_month_witness :
  getCurrentMonthStr demoClock = utcMonthStr demoClock
  /\ exists i e n i' e',
       summaryReply demoDb demoClock demoUser = SummaryFlex i e n
       /\ summaryReply
            (fst (@handleEvent plainRuntime demoDb demoClock None
                    (textEvent "อาหาร 150")))
            demoClock demoUser = SummaryFlex i' e' (S n).
Proof.
  split; [reflexivity|].
  apply (@summary_counts_by_utc_month plainRuntime demoDb
           (fst (@handleEvent plainRuntime demoDb demoClock None
                   (textEvent "อาหาร 150")))
           demoClock demoUser demoUserId (utf16 "อาหาร 150") expense
           (Some (150 # 1)%Q) (utf16 "อาหาร") (utf16 "อาหาร") (utf16 "อาหาร")).
  - vm_compute. reflexivity.
  - reflexivity.
Defined.

(** ** The Smart Input pattern and what can go wrong after it *)

Lemma isPlainAmount_intro ip :
  ip <> [] -> forallb isDigit ip = true ->
  isPlainAmount ip = true
  /\ forall fp, fp <> [] -> forallb isDigit fp = true ->
               isPlainAmount (ip ++ utf16 "." ++ fp) = true.
Proof.
  intros Hne Hd. split.
  - unfold isPlainAmount. rewrite <- (app_nil_r ip) at 1.
    rewrite (span_app isDigit ip [] Hd I). destruct ip; [congruence|reflexivity].
  - intros fp Hfp Hfd. unfold isPlainAmount.
    rewrite (span_app isDigit ip (utf16 "." ++ fp) Hd) by reflexivity.
    change (utf16 "." ++ fp) with (46%N :: fp). cbv iota. rewrite Hfd.
    destruct ip; [congruence|]. destruct fp; [congruence|]. reflexivity.
Qed.

Lemma noteTail_some cn am r x :
  noteTail cn am r = Some x ->
  (r = [] /\ x = (cn, am, None))
  \/ exists sep2 note,
       r = sep2 ++ note /\ isSeparator sep2 = true
       /\ forallb isDot note = true /\ x = (cn, am, Some note).
Proof.
  unfold noteTail. intros H. apply alt_some in H.
  destruct H as [H|[_ H]].
  - right. apply greedy_some in H. destruct H as (sep2 & r1 & -> & Hw & Hl & H).
    apply greedy_some in H. destruct H as (note & r2 & -> & Hn & _ & H).
    apply eos_some in H. destruct H as [-> ->].
    exists sep2, note. rewrite app_nil_r. repeat split; auto.
    unfold isSeparator. rewrite Hw. destruct sep2; [simpl in Hl; lia|reflexivity].
  - left. apply eos_some in H. tauto.
Qed.

Lemma smartInputPattern_some text cn am note :
  smartInputPattern text = Some (cn, am, note) ->
  cn <> [] /\ forallb isDot cn = true /\ isPlainAmount am = true
  /\ exists sep,
       isSeparator sep = true
       /\ match note with
          | None => text = cn ++ sep ++ am
          | Some n =>
              forallb isDot n = true
              /\ exists sep2, isSeparator sep2 = true
                              /\ text = cn ++ sep ++ am ++ sep2 ++ n
          end.
Proof.
  unfold smartInputPattern. intros H.
  apply lazyPlus_some in H. destruct H as (cn' & r & -> & Hne & Hdot & H).
  apply greedy_some in H. destruct H as (sep & r2 & -> & Hw & Hl & H).
  assert (Hsep : isSeparator sep = true).
  { unfold isSeparator. rewrite Hw. destruct sep; [simpl in Hl; lia|reflexivity]. }
  unfold amountAndNote in H.
  apply greedy_some in H. destruct H as (ip & r3 & -> & Hd & Hli & H).
  assert (Hip : ip <> []) by (destruct ip; [simpl in Hli; lia|discriminate]).
  destruct (isPlainAmount_intro Hip Hd) as [Hp1 Hp2].
  assert (Hfin : forall am0 r0,
            isPlainAmount am0 = true ->
            noteTail cn' am0 r0 = Some (cn, am, note) ->
            cn <> [] /\ forallb isDot cn = true /\ isPlainAmount am = true
            /\ exists sep0,
                 isSeparator sep0 = true
                 /\ match note with
                    | None => cn' ++ sep ++ am0 ++ r0 = cn ++ sep0 ++ am
                    | Some n =>
                        forallb isDot n = true
                        /\ exists sep2, isSeparator sep2 = true
                             /\ cn' ++ sep ++ am0 ++ r0
                                = cn ++ sep0 ++ am ++ sep2 ++ n
                    end).
  { intros am0 r0 Hp Hn. apply noteTail_some in Hn.
    destruct Hn as [[-> [= -> -> ->]]|(sep2 & n & -> & Hs2 & Hnd & [= -> -> ->])].
    - repeat split; auto. exists sep. split; [exact Hsep|]. now rewrite app_nil_r.
    - repeat split; auto. exists sep. split; [exact Hsep|]. split; [exact Hnd|].
      exists sep2. auto. }
  apply alt_some in H. destruct H as [H|[_ H]].
  - apply lit_exact_some in H. destruct H as (r4 & -> & H).
    apply greedy_some in H. destruct H as (fp & r5 & -> & Hfd & Hlf & H).
    assert (Hfp : fp <> []) by (destruct fp; [simpl in Hlf; lia|discriminate]).
    specialize (Hfin _ _ (Hp2 fp Hfp Hfd) H).
    now rewrite <- !app_assoc in Hfin.
  - exact (Hfin _ _ Hp1 H).
Qed.

(** X6.  The Smart Input pattern, read backwards.  Whenever the pattern of
    the second handler and of the simulator takes a text, the text really
    is a category name, white space, an amount and possibly white space and
    a note, in that order and with nothing else: the name is not empty and
    stays on one line, the amount is digits with at most one decimal part
    (no sign, no comma, no exponent), and the note stays on one line.  So
    the number the handlers parse is never [NaN] and never negative. *)
Theorem smart_input_pattern_is_sound (text cn am : jsstring) (note : option jsstring) :
  smartInputPattern text = Some (cn, am, note) ->
  cn <> [] /\ forallb isDot cn = true
  /\ isPlainAmount am = true
  /\ (exists q, parseFloat am = Some q /\ (0 <= q)%Q)
  /\ exists sep,
       isSeparator sep = true
       /\ match note with
          | None => text = cn ++ sep ++ am
          | Some n =>
              forallb isDot n = true
              /\ exists sep2, isSeparator sep2 = true
                              /\ text = cn ++ sep ++ am ++ sep2 ++ n
          end.
Proof.
  intros H. apply smartInputPattern_some in H.
  destruct H as (Hne & Hdot & Hp & Hs). repeat split; auto.
  destruct (isPlainAmount_parse _ Hp) as (q & Hq & Hle).
  exists q. split; [exact Hq|]. now apply Qle_bool_iff.
Qed.

Section SmartInputFailure.
Context {R : Runtime}.

Lemma saveTransaction_plain db clk g uid ty am cid note :
  isPlainAmount am = true ->
  exists db', saveTransaction db clk
                (mkTransaction (Some g) uid ty (parseFloat am) cid (nowMs clk)
                               (getCurrentMonthStr clk) note) = Ok db'.
Proof.
  intros Hp. destruct (isPlainAmount_parse _ Hp) as (q & Hq & Hle).
  unfold saveTransaction. cbn [tx_groupId tx_amount]. rewrite Hq, Hle. eauto.
Qed.

(** X7.  The only way Smart Input fails.  In the second handler and in the
    simulator alike, the Smart Input block raises an exception exactly when
    the text has the Smart Input shape and its category name is not a valid
    regular expression; the exception is then the [SyntaxError] of the
    [RegExp] constructor.  The store never rejects the transaction: the
    validation of the amount cannot fail after the pattern has matched. *)
Theorem smart_input_fails_only_on_the_category_expression
    (db : Db) (clk : Clock) (user : User) (groupId : ObjectId)
    (uid text : jsstring) (e : Exn) :
  let badName :=
    e = SyntaxError
    /\ exists cn am note,
         smartInputPattern text = Some (cn, am, note) /\ regexSearch cn = None in
  (smartInput db clk user groupId uid text = Throw e <-> badName)
  /\ (simulateSmartInput db clk user groupId uid text = Throw e <-> badName).
Proof.
  cbv zeta. unfold smartInput, simulateSmartInput, findCategoryByRegex.
  destruct (smartInputPattern text) as [[[cn am] note]|] eqn:Hp.
  2:{ split; (split; [discriminate|]); intros (_ & cn & am & note & H & _);
        discriminate. }
  apply smartInputPattern_some in Hp. destruct Hp as (_ & _ & Ham & _).
  destruct (regexSearch cn) as [test|] eqn:Hre; cbn [bind].
  - destruct (find _ (categories db)) as [category|].
    + destruct (@saveTransaction_plain db clk groupId uid (cat_type category)
                  am (cat_id category) (noteOrEmpty note) Ham) as [db1 ->].
      cbn [bind].
      split; (split; [|intros (_ & cn' & am' & note' & [= <- _ _] & H);
                        congruence]).
      * destruct (updateStreak_webhook clk user); discriminate.
      * destruct (updateStreak_simulate clk user); discriminate.
    + split; (split; [discriminate|]);
        intros (_ & cn' & am' & note' & [= <- _ _] & H); congruence.
  - split; (split; [intros [= <-]; split; [reflexivity|]; eauto|reflexivity
                    || (intros [-> _]; reflexivity)]).
Qed.

End SmartInputFailure.

Lemma smart_input_pattern_is_sound_witness :
  smartInputPattern (utf16 "กาแฟ 65.50 เย็น")
  = Some (utf16 "กาแฟ", utf16 "65.50", Some (utf16 "เย็น"))
  /\ isPlainAmount (utf16 "65.50") = true.
Proof.
  split; [vm_compute; reflexivity|].
  apply (@smart_input_pattern_is_sound (utf16 "กาแฟ 65.50 เย็น") (utf16 "กาแฟ")
           (utf16 "65.50") (Some (utf16 "เย็น"))).
  vm_compute. reflexivity.
Defined.

(** ** Badges under the streak update *)

Lemma unlock_self id l : In id (unlock id l).
Proof.
  unfold unlock. destruct (existsb (str_eqb id) l) eqn:E.
  - now apply existsb_str_eqb_In.
  - apply in_or_app. right. now left.
Qed.

Lemma unlock_inv id x l : In id (unlock x l) -> In id l \/ id = x.
Proof.
  unfold unlock. destruct (existsb (str_eqb x) l); [now left|].
  intros H. apply in_app_or in H. destruct H as [H|[H|[]]]; auto.
Qed.

Lemma unlock_NoDup x l : NoDup l -> NoDup (unlock x l).
Proof.
  intros Hl. unfold unlock. destruct (existsb (str_eqb x) l) eqn:E; [exact Hl|].
  assert (Hx : ~ In x l).
  { intros Hin. apply existsb_str_eqb_In in Hin. congruence. }
  clear E. induction Hl as [|y l Hy Hl IH]; simpl.
  - constructor; [tauto|constructor].
  - constructor.
    + intros Hin. apply in_app_or in Hin. destruct Hin as [Hin|[ -> |[]]].
      * contradiction.
      * apply Hx. now left.
    + apply IH. intros Hin. apply Hx. now right.
Qed.

Lemma badgesKept_steps user u' (week month : bool) :
  achievements u'
  = unlock (utf16 "first_record")
      (let a1 := if week then unlock (utf16 "week_streak") (achievements user)
                 else achievements user in
       if month then unlock (utf16 "month_streak") a1 else a1) ->
  badgesKept user u'.
Proof.
  intros H. unfold badgesKept, streakBadges. rewrite H. clear H. cbv zeta.
  split; [apply unlock_self|]. split; [|split].
  - intros id Hid. apply unlock_In.
    destruct week, month; repeat apply unlock_In; exact Hid.
  - intros id Hid. apply unlock_inv in Hid.
    destruct Hid as [Hid | ->]; [|right; simpl; tauto].
    destruct week, month;
      repeat (apply unlock_inv in Hid; destruct Hid as [Hid | ->];
              [|right; simpl; tauto]);
      now left.
  - intros Hn. apply unlock_NoDup.
    destruct week, month; repeat apply unlock_NoDup; exact Hn.
Qed.

(** X8.  Badges under the streak update.  When the streak block of the
    second handler or of the simulator runs, the user it saves has the
    "first record" badge; every badge held before is still held; a badge
    that is new is one of the three streak badges; a badge list without
    repetitions stays without repetitions; the streak is at least 1 if it
    was not negative; the last-record date is today; and the identity,
    profile, current wallet and total saved of the user are untouched. *)
Theorem streak_update_keeps_badges (clk : Clock) (user u' : User) :
  updateStreak_webhook clk user = Some u'
  \/ updateStreak_simulate clk user = Some u' ->
  badgesKept user u'
  /\ (0 <= streak user -> 1 <= streak u')%Z
  /\ lastRecordDate u' = Some (getTodayStr clk)
  /\ lineUserId u' = lineUserId user /\ displayName u' = displayName user
  /\ pictureUrl u' = pictureUrl user
  /\ currentGroupId u' = currentGroupId user
  /\ totalSaved u' = totalSaved user.
Proof.
  assert (Hs : (0 <= streak user -> 1 <= nextStreak clk user)%Z).
  { unfold nextStreak. destruct (option_eqb _ _ _); lia. }
  unfold updateStreak_webhook, updateStreak_simulate.
  destruct (option_eqb str_eqb (lastRecordDate user) (Some (getTodayStr clk))).
  { intros [H|H]; discriminate. }
  cbv zeta. intros [[= <-]|[= <-]]; cbn [streak lastRecordDate lineUserId
    displayName pictureUrl currentGroupId totalSaved withGamification];
    (split; [|repeat split; auto]).
  - apply badgesKept_steps
      with (week := (nextStreak clk user =? 7)%Z)
           (month := (nextStreak clk user =? 30)%Z).
    reflexivity.
  - apply badgesKept_steps
      with (week := (nextStreak clk user =? 7)%Z) (month := false).
    reflexivity.
Qed.

(** ** The simulator against the second handler *)

Lemma updateStreak_agree clk user :
  (lastRecordDate user <> Some (getTodayStr clk) ->
   nextStreak clk user = 30%Z ->
   In (utf16 "month_streak") (achievements user)) ->
  updateStreak_simulate clk user = updateStreak_webhook clk user.
Proof.
  intros H. unfold updateStreak_simulate, updateStreak_webhook.
  destruct (option_eqb str_eqb (lastRecordDate user) (Some (getTodayStr clk)))
    eqn:E; [reflexivity|].
  cbv zeta. destruct (Z.eqb_spec (nextStreak clk user) 30) as [H30|_];
    [|reflexivity].
  assert (Hm : In (utf16 "month_streak") (achievements user)).
  { apply H; [|exact H30]. intros Hl. rewrite Hl in E. cbn [option_eqb] in E.
    now rewrite str_eqb_refl in E. }
  rewrite H30. cbn [Z.eqb Pos.eqb]. now rewrite (unlock_member _ _ Hm).
Qed.

Section Agreement.
Context {R : Runtime}.

(** X9.  The simulator is faithful to the second handler except for the
    30-day badge.  Unless this message is the one that brings the streak to
    30 for a user without the "month streak" badge, the Smart Input of the
    simulator and that of the second handler do the same on the same store
    and text: both fail with the same exception, or both leave the same
    store and give answers that say the same thing (nothing matched;
    category not found, with the same suggestions; or recorded, with the
    same category, amount, note, streak and number of badges). *)
Theorem simulator_agrees_with_second_handler
    (db : Db) (clk : Clock) (user : User) (groupId : ObjectId)
    (uid text : jsstring) :
  (lastRecordDate user <> Some (getTodayStr clk) ->
   nextStreak clk user = 30%Z ->
   In (utf16 "month_streak") (achievements user)) ->
  match smartInput db clk user groupId uid text,
        simulateSmartInput db clk user groupId uid text with
  | Ok (db1, reply), Ok (db2, response) =>
      db1 = db2 /\ sameAnswer text reply response
  | Throw e1, Throw e2 => e1 = e2
  | _, _ => False
  end.
Proof.
  intros H. unfold smartInput, simulateSmartInput.
  rewrite (updateStreak_agree clk user H).
  destruct (smartInputPattern text) as [[[cn am] note]|]; [|split; reflexivity].
  destruct (findCategoryByRegex db groupId cn) as [[category|]|e]; cbn [bind].
  - destruct (saveTransaction _ _ _) as [db1|e]; cbn [bind]; [|reflexivity].
    destruct (updateStreak_webhook clk user) as [u'|]; split; auto;
      cbn [sameAnswer]; auto.
  - split; [reflexivity|]. cbn [sameAnswer]. eauto.
  - reflexivity.
Qed.

End Agreement.

Lemma simulator_agrees_with_second_handler_witness :
  match @smartInput plainRuntime demoDb demoClock demoUser demoGroupId
          demoUserId (utf16 "อาหาร 150"),
        @simulateSmartInput plainRuntime demoDb demoClock demoUser demoGroupId
          demoUserId (utf16 "อาหาร 150") with
  | Ok (db1, reply), Ok (db2, response) =>
      db1 = db2 /\ sameAnswer (utf16 "อาหาร 150") reply response
  | Throw e1, Throw e2 => e1 = e2
  | _, _ => False
  end.
Proof.
  apply (@simulator_agrees_with_second_handler plainRuntime).
  intros _ H. vm_compute in H. discriminate.
Defined.

(** ** Logging in and switching wallets *)

Lemma truthy_some field s : truthy field = Some s -> field = Some s /\ s <> [].
Proof.
  destruct field as [t|]; simpl; [|discriminate].
  destruct t; simpl; [discriminate|]. intros [= <-]. split; [reflexivity|discriminate].
Qed.

Lemma replaceUser_same uid u l :
  find (fun v => str_eqb (lineUserId v) uid) l = Some u -> replaceUser u l = l.
Proof.
  induction l as [|v l IH]; simpl; [discriminate|].
  destruct (str_eqb (lineUserId v) uid) eqn:E.
  - intros [= ->]. now rewrite str_eqb_refl.
  - intros H. pose proof (find_some _ _ H) as [_ Hu]. apply str_eqb_eq in Hu.
    rewrite Hu, E. f_equal. now apply IH.
Qed.

Lemma find_replaceUser_other uid u' l :
  lineUserId u' <> uid ->
  find (fun v => str_eqb (lineUserId v) uid) (replaceUser u' l)
  = find (fun v => str_eqb (lineUserId v) uid) l.
Proof.
  intros Hne. induction l as [|v l IH]; simpl; [reflexivity|].
  destruct (str_eqb (lineUserId v) (lineUserId u')) eqn:E; simpl.
  - apply str_eqb_eq in E. rewrite E.
    apply str_eqb_neq in Hne. now rewrite Hne.
  - destruct (str_eqb (lineUserId v) uid); [reflexivity|exact IH].
Qed.

Lemma find_app_other {X : Type} (f : X -> bool) (l : list X) (x : X) :
  f x = false -> find f (l ++ [x]) = find f l.
Proof.
  intros Hx. induction l as [|y l IH]; simpl; [now rewrite Hx|].
  destruct (f y); [reflexivity|exact IH].
Qed.

Lemma saveUser_same db uid u : findUser db uid = Some u -> saveUser db u = db.
Proof.
  unfold findUser, saveUser. intros H. rewrite (replaceUser_same _ _ H).
  now destruct db.
Qed.

(** X10.  One account, two doors.  For a sender the store does not know,
    logging in through the application with an identifier, a name and
    possibly a picture creates exactly the account, personal wallet and
    default categories that a first chat message creates when the
    messaging platform reports that name and picture; the response shows
    the new user with the wallet the store resolves for them. *)
Theorem login_registers_like_chat
    (db : Db) (body : LoginBody) (uid name : jsstring) :
  truthy (body_lineUserId body) = Some uid ->
  truthy (body_displayName body) = Some name ->
  findUser db uid = None ->
  let picture := match truthy (body_pictureUrl body) with
                 | Some p => p
                 | None => []
                 end in
  let registered := registerUser db (Some (mkProfile name picture)) uid in
  login db body
  = Login200 (fst registered) (snd registered)
             (populateGroup (fst registered) (currentGroupId (snd registered))).
Proof.
  intros Hid Hname Hu. cbv zeta. unfold login, registerUser.
  rewrite Hid, Hname, Hu. cbn [fst snd profile_displayName profile_pictureUrl].
  apply truthy_some in Hname. destruct Hname as [_ Hname].
  assert (Hn : orElse name (utf16 "ผู้ใช้") = name).
  { unfold orElse. destruct name; [congruence|reflexivity]. }
  assert (Hp : orElse (match truthy (body_pictureUrl body) with
                       | Some p => p
                       | None => []
                       end) [] =
               match truthy (body_pictureUrl body) with
               | Some p => p
               | None => []
               end).
  { unfold orElse. now destruct (match truthy _ with Some p => p | None => [] end). }
  now rewrite Hn, Hp.
Qed.

Lemma login_registers_like_chat_witness :
  login (mkDb [] [] [] [] 1%N)
        (mkLoginBody (Some demoUserId) (Some (utf16 "Mali")) None)
  = Login200
      (fst (registerUser (mkDb [] [] [] [] 1%N)
              (Some (mkProfile (utf16 "Mali") [])) demoUserId))
      (snd (registerUser (mkDb [] [] [] [] 1%N)
              (Some (mkProfile (utf16 "Mali") [])) demoUserId))
      (populateGroup
         (fst (registerUser (mkDb [] [] [] [] 1%N)
                 (Some (mkProfile (utf16 "Mali") [])) demoUserId))
         (Some 1%N)).
Proof.
  apply (@login_registers_like_chat (mkDb [] [] [] [] 1%N)
           (mkLoginBody (Some demoUserId) (Some (utf16 "Mali")) None)
           demoUserId (utf16 "Mali"));
    reflexivity.
Defined.

(** What a successful login leaves for the identifier it was given. *)
Lemma login_found db body db' user group :
  login db body = Login200 db' user group ->
  exists uid name,
    truthy (body_lineUserId body) = Some uid
    /\ truthy (body_displayName body) = Some name
    /\ lineUserId user = uid /\ displayName user = name
    /\ findUser db' uid = Some user
    /\ group = populateGroup db' (currentGroupId user)
    /\ transactions db' = transactions db
    /\ (forall other, other <> uid -> findUser db' other = findUser db other)
    /\ match findUser db uid with
       | Some before =>
           db' = saveUser db user
           /\ currentGroupId user = currentGroupId before
           /\ streak user = streak before
           /\ lastRecordDate user = lastRecordDate before
           /\ achievements user = achievements before
           /\ totalSaved user = totalSaved before
           /\ pictureUrl user = match truthy (body_pictureUrl body) with
                                | Some p => p
                                | None => pictureUrl before
                                end
       | None =>
           users db' = users db ++ [user]
           /\ pictureUrl user = match truthy (body_pictureUrl body) with
                                | Some p => p
                                | None => []
                                end
       end.
Proof.
  unfold login.
  destruct (truthy (body_lineUserId body)) as [uid|] eqn:Hid; [|discriminate].
  destruct (truthy (body_displayName body)) as [name|] eqn:Hname; [|discriminate].
  destruct (findUser db uid) as [before|] eqn:Hu.
  - intros [= <- <- <-]. exists uid, name. rewrite Hu. unfold userIdOf.
    pose proof (findUser_id _ _ Hu) as Hb.
    cbn [lineUserId displayName currentGroupId streak lastRecordDate
         achievements totalSaved pictureUrl].
    repeat split; auto.
    + unfold findUser, saveUser. cbn [users].
      now apply find_replaceUser with (u := before).
    + intros other Hne. unfold findUser, saveUser. cbn [users].
      apply find_replaceUser_other. cbn [lineUserId]. congruence.
  - intros [= <- <- <-]. exists uid, name. rewrite Hu.
    cbn [lineUserId displayName currentGroupId users transactions pictureUrl].
    repeat split; auto.
    + unfold findUser. cbn [users]. apply find_app_fresh; [exact Hu|].
      cbn [lineUserId]. apply str_eqb_refl.
    + intros other Hne. unfold findUser. cbn [users]. apply find_app_other.
      cbn [lineUserId]. apply str_eqb_neq. congruence.
Qed.

(** X11.  Logging in again changes nothing.  After a successful login, the
    same request is answered in the same way and leaves the store exactly
    as the first one left it: no second account, wallet or set of
    categories, whatever the store held before. *)
Theorem login_is_idempotent
    (db db' : Db) (body : LoginBody) (user : User) (group : option Group) :
  login db body = Login200 db' user group ->
  login db' body = Login200 db' user group.
Proof.
  intros H. apply login_found in H.
  destruct H as (uid & name & Hid & Hname & Hl & Hd & Hf & -> & _ & _ & Hcase).
  unfold login. rewrite Hid, Hname, Hf. unfold userIdOf.
  assert (Hsame :
    mkUser (lineUserId user) name
      (match truthy (body_pictureUrl body) with
       | Some p => p
       | None => pictureUrl user
       end)
      (currentGroupId user) (streak user) (lastRecordDate user)
      (achievements user) (totalSaved user) = user).
  { assert (Hp : match truthy (body_pictureUrl body) with
                 | Some p => p
                 | None => pictureUrl user
                 end = pictureUrl user).
    { destruct (findUser db uid);
        [destruct Hcase as (_ & _ & _ & _ & _ & _ & Hp)|destruct Hcase as (_ & Hp)];
        rewrite Hp; now destruct (truthy (body_pictureUrl body)). }
    rewrite Hp, <- Hd. now destruct user. }
  rewrite Hsame, (saveUser_same _ _ Hf). reflexivity.
Qed.

Lemma login_is_idempotent_witness :
  let body := mkLoginBody (Some demoUserId) (Some (utf16 "Mali B.")) None in
  match login demoDb body with
  | Login200 db' user group => login db' body = Login200 db' user group
  | Login400 => False
  end.
Proof.
  cbv zeta.
  destruct (login demoDb
              (mkLoginBody (Some demoUserId) (Some (utf16 "Mali B.")) None))
    as [|db' user group] eqn:E.
  - vm_compute in E. discriminate.
  - now apply (@login_is_idempotent demoDb db'
                 (mkLoginBody (Some demoUserId) (Some (utf16 "Mali B.")) None)
                 user group).
Defined.

(** X12.  What a login may touch.  A successful login ends with the
    identifier it was given accepted by [requireAuth], as the user the
    response shows.  It never touches a transaction or the account of
    anyone else.  For a user who existed before, it rewrites the display
    name, and the picture when one is sent, and nothing else: the current
    wallet, the streak, the last-record date, the badges and the total
    saved are kept, and no group or category is added. *)
Theorem login_keeps_the_account
    (db db' : Db) (body : LoginBody) (user : User) (group : option Group) :
  login db body = Login200 db' user group ->
  requireAuth db' (Some (lineUserId user))
  = Authorized user (lineUserId user)
  /\ transactions db' = transactions db
  /\ (forall other, other <> lineUserId user ->
                    findUser db' other = findUser db other)
  /\ forall before,
       findUser db (lineUserId user) = Some before ->
       groups db' = groups db /\ categories db' = categories db
       /\ currentGroupId user = currentGroupId before
       /\ streak user = streak before
       /\ lastRecordDate user = lastRecordDate before
       /\ achievements user = achievements before
       /\ totalSaved user = totalSaved before.
Proof.
  intros H. apply login_found in H.
  destruct H as (uid & name & Hid & Hname & Hl & Hd & Hf & _ & Ht & Ho & Hcase).
  rewrite Hl. split; [|split; [exact Ht|split; [exact Ho|]]].
  - unfold requireAuth. apply truthy_some in Hid. destruct Hid as [_ Hne].
    destruct uid; [congruence|]. cbn [isEmpty]. now rewrite Hf.
  - intros before Hb. rewrite Hb in Hcase.
    destruct Hcase as (-> & H1 & H2 & H3 & H4 & H5 & _). repeat split; auto.
Qed.

Lemma login_keeps_the_account_witness :
  let body := mkLoginBody (Some demoUserId) (Some (utf16 "Mali B.")) None in
  match login (withUser day29User) body with
  | Login200 db' user group =>
      requireAuth db' (Some (lineUserId user)) = Authorized user (lineUserId user)
  | Login400 => False
  end.
Proof.
  cbv zeta.
  destruct (login (withUser day29User)
              (mkLoginBody (Some demoUserId) (Some (utf16 "Mali B.")) None))
    as [|db' user group] eqn:E.
  - vm_compute in E. discriminate.
  - now apply (@login_keeps_the_account (withUser day29User) db'
                 (mkLoginBody (Some demoUserId) (Some (utf16 "Mali B.")) None)
                 user group).
Defined.

Lemma groupsSwitch_ok db header groupId db' group :
  groupsSwitch db header groupId = Switch200 db' group ->
  exists uid user,
    header = Some uid /\ findUser db uid = Some user
    /\ groupId = Some (group_id group)
    /\ In group (groups db) /\ In uid (members group)
    /\ db' = saveUser db
               (mkUser (lineUserId user) (displayName user) (pictureUrl user)
                       (Some (group_id group)) (streak user)
                       (lastRecordDate user) (achievements user)
                       (totalSaved user)).
Proof.
  unfold groupsSwitch, requireAuth.
  destruct header as [uid|]; [|discriminate].
  destruct (isEmpty uid); [discriminate|].
  destruct (findUser db uid) as [user|] eqn:Hu; [|discriminate].
  destruct groupId as [gid|]; [|discriminate].
  destruct (find _ (groups db)) as [g|] eqn:Hg; [|discriminate].
  intros [= <- <-]. apply find_some in Hg. destruct Hg as [Hin Hg].
  apply andb_true_iff in Hg. destruct Hg as [Hid Hm].
  apply N.eqb_eq in Hid. apply existsb_str_eqb_In in Hm.
  exists uid, user. unfold userIdOf. subst gid. repeat split; auto.
Qed.

(** X13.  Switching wallets needs membership.  The switch succeeds only
    for a wallet of the store that lists the authenticated user among its
    members; a wallet that does not list them can never become their
    current wallet this way.  A successful switch changes the current
    wallet of that user and nothing else: their profile, streak, last-record
    date, badges and total saved, every other user, and all groups,
    categories and transactions stay as they were. *)
Theorem switch_needs_membership
    (db db' : Db) (header : option jsstring) (groupId : option ObjectId)
    (group : Group) :
  groupsSwitch db header groupId = Switch200 db' group ->
  exists uid before after,
    header = Some uid
    /\ findUser db uid = Some before /\ findUser db' uid = Some after
    /\ In group (groups db) /\ groupId = Some (group_id group)
    /\ In uid (members group)
    /\ currentGroupId after = Some (group_id group)
    /\ displayName after = displayName before
    /\ pictureUrl after = pictureUrl before
    /\ streak after = streak before
    /\ lastRecordDate after = lastRecordDate before
    /\ achievements after = achievements before
    /\ totalSaved after = totalSaved before
    /\ (forall other, other <> uid -> findUser db' other = findUser db other)
    /\ groups db' = groups db /\ categories db' = categories db
    /\ transactions db' = transactions db.
Proof.
  intros H. apply groupsSwitch_ok in H.
  destruct H as (uid & user & -> & Hu & -> & Hin & Hm & ->).
  pose proof (findUser_id _ _ Hu) as Hid.
  exists uid, user. eexists. split; [reflexivity|]. split; [exact Hu|].
  split.
  { unfold findUser, saveUser. cbn [users].
    apply find_replaceUser with (u := user); [exact Hu|exact Hid]. }
  repeat split; auto.
  intros other Hne. unfold findUser, saveUser. cbn [users].
  apply find_replaceUser_other. cbn [lineUserId]. congruence.
Qed.

Lemma switch_needs_membership_witness :
  exists after,
    findUser (saveUser demoDb
                (mkUser demoUserId (utf16 "Mali") [] (Some demoGroupId) 0%Z
                        None [] 0%Q))
             demoUserId = Some after
    /\ In demoUserId (members demoGroup).
Proof.
  destruct (@switch_needs_membership demoDb
              (saveUser demoDb
                 (mkUser demoUserId (utf16 "Mali") [] (Some demoGroupId) 0%Z
                         None [] 0%Q))
              (Some demoUserId) (Some demoGroupId) demoGroup)
    as (uid & before & after & Hh & _ & Ha & _ & _ & Hm & _).
  - vm_compute. reflexivity.
  - injection Hh as <-. exists after. split; [exact Ha|exact Hm].
Defined.

Section SimulatorRecords.
Context {R : Runtime}.

Lemma findCategoryByRegex_some db groupId cn category :
  findCategoryByRegex db groupId cn = Ok (Some category) ->
  In category (categories db) /\ cat_groupId category = groupId.
Proof.
  unfold findCategoryByRegex. destruct (regexSearch cn) as [test|]; [|discriminate].
  intros [= H]. apply find_some in H. destruct H as [Hin H].
  apply andb_true_iff in H. destruct H as [Hg _]. apply N.eqb_eq in Hg. auto.
Qed.

(** The transaction that Smart Input saves for the category it found. *)
Lemma stored_under_category db clk groupId uid cn am note category db1 :
  findCategoryByRegex db groupId cn = Ok (Some category) ->
  saveTransaction db clk
    (mkTransaction (Some groupId) uid (cat_type category) (parseFloat am)
       (cat_id category) (nowMs clk) (getCurrentMonthStr clk)
       (noteOrEmpty note)) = Ok db1 ->
  In category (categories db) /\ cat_groupId category = groupId
  /\ (exists q, parseFloat am = Some q /\ (0 <= q)%Q)
  /\ transactions db1
     = transactions db
       ++ [mkTransaction (Some groupId) uid (cat_type category)
             (parseFloat am) (cat_id category) (nowMs clk)
             (getCurrentMonthStr clk) (noteOrEmpty note)]
  /\ groups db1 = groups db /\ categories db1 = categories db.
Proof.
  intros Hf Hs. apply findCategoryByRegex_some in Hf.
  apply saveTransaction_ok in Hs.
  cbn [tx_groupId tx_amount tx_userId tx_type tx_categoryId tx_date tx_note] in Hs.
  destruct Hs as (g & q & _ & Hq & Hle & ->). cbn [transactions groups categories].
  destruct Hf as [Hin Hg]. repeat split; auto.
  exists q. split; [exact Hq|]. now apply Qle_bool_iff.
Qed.

Lemma simulateSmartInput_stores db clk user groupId uid text db' c a n s b :
  simulateSmartInput db clk user groupId uid text
  = Ok (db', SimTransaction c a n s b) ->
  cat_groupId c = groupId
  /\ transactions db'
     = transactions db
       ++ [mkTransaction (Some groupId) uid (cat_type c) a (cat_id c)
             (nowMs clk) (getCurrentMonthStr clk) n].
Proof.
  unfold simulateSmartInput.
  destruct (smartInputPattern text) as [[[cn am] note]|]; [|discriminate].
  destruct (findCategoryByRegex db groupId cn) as [[category|]|e] eqn:Hf;
    cbn [bind]; [|discriminate|discriminate].
  destruct (saveTransaction _ _ _) as [db1|e] eqn:Hs; cbn [bind]; [|discriminate].
  destruct (@stored_under_category db clk groupId uid cn am note category db1
              Hf Hs) as (_ & Hg & _ & Ht & _).
  destruct (updateStreak_simulate clk user); intros [= <- <- <- <- _ _];
    split; auto.
Qed.

(** X14.  What a "recorded" answer of Smart Input stands for, in the
    second handler and in the simulator alike: one transaction has been
    appended, in the wallet the handler resolved for the sender and under
    the sender's identifier; its category is the one the answer shows, a
    category of that same wallet; its type is always the type of that
    category; its amount is the number of the answer and is not negative;
    its note is the note of the answer; its month key is the local month.
    Groups and categories are untouched. *)
Theorem smart_input_records_under_the_category
    (db : Db) (clk : Clock) (user : User) (groupId : ObjectId)
    (uid text : jsstring) (db' : Db) (c : Category) (a : option Q)
    (n : jsstring) (s : Z) (b : nat) :
  smartInput db clk user groupId uid text
  = Ok (db', Some (SmartInputFlex c a n s b))
  \/ simulateSmartInput db clk user groupId uid text
     = Ok (db', SimTransaction c a n s b) ->
  In c (categories db) /\ cat_groupId c = groupId
  /\ (exists q, a = Some q /\ (0 <= q)%Q)
  /\ transactions db'
     = transactions db
       ++ [mkTransaction (Some groupId) uid (cat_type c) a (cat_id c)
             (nowMs clk) (getCurrentMonthStr clk) n]
  /\ groups db' = groups db /\ categories db' = categories db.
Proof.
  unfold smartInput, simulateSmartInput.
  destruct (smartInputPattern text) as [[[cn am] note]|].
  2:{ intros [H|H]; discriminate. }
  destruct (findCategoryByRegex db groupId cn) as [[category|]|e] eqn:Hf;
    cbn [bind].
  2,3: intros [H|H]; discriminate.
  destruct (saveTransaction _ _ _) as [db1|e] eqn:Hs; cbn [bind].
  2:{ intros [H|H]; discriminate. }
  pose proof (@stored_under_category db clk groupId uid cn am note category db1
                Hf Hs) as Hcore.
  intros [H|H].
  - destruct (updateStreak_webhook clk user); injection H as <- <- <- <- _ _;
      exact Hcore.
  - destruct (updateStreak_simulate clk user); injection H as <- <- <- <- _ _;
      exact Hcore.
Qed.

(** X15.  After a switch, the simulator files under the new wallet.  Once
    [/api/groups/switch] has succeeded for a user, a Smart Input message
    they send to the simulator is resolved against the categories of the
    wallet they switched to, of which they are a member, and the
    transaction it records is stored in that wallet. *)
Theorem switch_then_simulate_records_in_new_wallet
    (db db1 db2 : Db) (clk : Clock) (uid message : jsstring)
    (groupId : option ObjectId) (group : Group)
    (c : Category) (a : option Q) (n : jsstring) (s : Z) (b : nat) :
  groupsSwitch db (Some uid) groupId = Switch200 db1 group ->
  simulateLine db1 clk uid message = Http200 db2 (SimTransaction c a n s b) ->
  In uid (members group)
  /\ cat_groupId c = group_id group
  /\ exists stored,
       transactions db2 = transactions db ++ [stored]
       /\ tx_groupId stored = Some (group_id group)
       /\ tx_userId stored = uid
       /\ tx_categoryId stored = cat_id c.
Proof.
  intros Hsw Hsim. apply groupsSwitch_ok in Hsw.
  destruct Hsw as (uid' & user & [= <-] & Hu & -> & Hin & Hm & ->).
  pose proof (findUser_id _ _ Hu) as Hid.
  unfold simulateLine in Hsim.
  destruct (isEmpty message); [discriminate|].
  assert (Hf : findUser
                 (saveUser db
                    (mkUser (lineUserId user) (displayName user) (pictureUrl user)
                       (Some (group_id group)) (streak user)
                       (lastRecordDate user) (achievements user)
                       (totalSaved user))) uid
               = Some (mkUser (lineUserId user) (displayName user)
                         (pictureUrl user) (Some (group_id group)) (streak user)
                         (lastRecordDate user) (achievements user)
                         (totalSaved user))).
  { unfold findUser, saveUser. cbn [users].
    apply find_replaceUser with (u := user); [exact Hu|exact Hid]. }
  rewrite Hf in Hsim.
  assert (Hp : populatedGroupId
                 (saveUser db
                    (mkUser (lineUserId user) (displayName user) (pictureUrl user)
                       (Some (group_id group)) (streak user)
                       (lastRecordDate user) (achievements user)
                       (totalSaved user)))
                 (mkUser (lineUserId user) (displayName user)
                    (pictureUrl user) (Some (group_id group)) (streak user)
                    (lastRecordDate user) (achievements user) (totalSaved user))
               = Some (group_id group)).
  { unfold populatedGroupId, saveUser. cbn [currentGroupId groups].
    assert (He : existsb (fun gr => (group_id gr =? group_id group)%N) (groups db)
                 = true).
    { apply existsb_exists. exists group. split; [exact Hin|apply N.eqb_refl]. }
    now rewrite He. }
  rewrite Hp in Hsim.
  destruct (simulateCommand _); [discriminate|].
  destruct (simulateSmartInput _ _ _ _ _ _) as [[db' response]|e] eqn:Hs;
    [|discriminate].
  injection Hsim as -> ->.
  apply simulateSmartInput_stores in Hs. destruct Hs as [Hg Ht].
  split; [exact Hm|]. split; [exact Hg|].
  eexists. split; [exact Ht|]. cbn [tx_groupId tx_userId tx_categoryId]. auto.
Qed.

End SimulatorRecords.

(** ** When [handleEvent] answers with the error text, and when it records *)

Lemma removeAll_single c s :
  removeAll [c] s = filter (fun x => negb (c =? x)%N) s.
Proof.
  unfold removeAll. induction s as [|x s IH]; [reflexivity|].
  cbn [removeAllFrom isPrefix List.length Nat.sub filter].
  destruct (c =? x)%N; cbn [andb negb]; [exact IH|now rewrite IH].
Qed.

Lemma filter_comma_digits (ip : jsstring) :
  forallb isAmountChar ip = true ->
  forallb isDigit (filter (fun x => negb (44 =? x)%N) ip) = true.
Proof.
  induction ip as [|c ip IH]; [reflexivity|]. cbn [forallb filter].
  intros H. apply andb_true_iff in H. destruct H as [Hc H].
  destruct (N.eqb_spec 44 c) as [<-|Hne]; cbn [negb forallb]; [now apply IH|].
  rewrite IH by exact H. unfold isAmountChar in Hc.
  apply orb_true_iff in Hc. destruct Hc as [Hc|Hc]; [now rewrite Hc|].
  apply N.eqb_eq in Hc. congruence.
Qed.

Lemma filter_comma_empty (ip : jsstring) :
  filter (fun x => negb (44 =? x)%N) ip = [] ->
  forallb (fun c => (c =? 44)%N) ip = true.
Proof.
  induction ip as [|c ip IH]; [reflexivity|]. cbn [forallb filter].
  destruct (N.eqb_spec 44 c) as [<-|Hne]; cbn [negb]; [exact IH|discriminate].
Qed.

(** The amount of [handleEvent] is [NaN] only for a number made of commas. *)
Lemma amount_nan_commas m after :
  longestNumber (m ++ after) = Some (m, after) ->
  parseFloat (removeAll (utf16 ",") m) = None ->
  forallb (fun c => (c =? 44)%N) m = true.
Proof.
  intros Hl Hp. apply longestNumber_some in Hl.
  destruct Hl as (_ & _ & ip & Hip & [[-> _]|(fp & Hfp & Hfd & -> & _)]);
    change (utf16 ",") with [44%N] in Hp; rewrite removeAll_single in Hp.
  - apply filter_comma_empty. pose proof (filter_comma_digits _ Hip) as Hd.
    unfold parseFloat in Hp. rewrite (@span_all isDigit _ Hd) in Hp.
    destruct (filter (fun x => negb (44 =? x)%N) ip); [reflexivity|discriminate].
  - exfalso. rewrite !filter_app in Hp.
    pose proof (filter_comma_digits _ Hip) as Hd.
    rewrite (@filter_all codeunit (fun x : N => negb (44 =? x)%N) fp) in Hp.
    2:{ intros x Hx. rewrite forallb_forall in Hfd.
        specialize (Hfd x Hx).
        destruct (N.eqb_spec 44 x) as [<-|]; [discriminate|reflexivity]. }
    change (filter (fun x : N => negb (44 =? x)%N) (utf16 ".")) with [46%N] in Hp.
    unfold parseFloat in Hp.
    rewrite span_app in Hp; [|exact Hd|reflexivity].
    cbn [app] in Hp. change (46 =? 46)%N with true in Hp. cbv iota in Hp.
    rewrite (@span_all isDigit _ Hfd) in Hp. cbn [fst] in Hp.
    destruct fp; [congruence|]. rewrite andb_false_r in Hp. discriminate.
Qed.

Lemma includes_plus text :
  forallb (fun c => negb (c =? 43)%N) text = true ->
  includes text (utf16 "+") = false.
Proof.
  change (utf16 "+") with [43%N].
  induction text as [|c text IH]; [reflexivity|].
  cbn [forallb includes isPrefix]. intros H. apply andb_true_iff in H.
  destruct H as [Hc H]. rewrite (IH H), N.eqb_sym.
  destruct (c =? 43)%N; [discriminate|reflexivity].
Qed.

Section ErrorReply.
Context {R : Runtime}.

(** A category can only be resolved in a wallet: without a current wallet
    the sender has no category, the handler answers that none was found, and
    the transaction is never built. *)
Lemma classify_throws db clk user uid text e :
  classify db clk user uid text = Throw e ->
  includes text (utf16 "+") = true
  \/ (exists before m after,
        numberPattern text = Some (before, (m, after))
        /\ forallb (fun c => (c =? 44)%N) m = true).
Proof.
  unfold classify.
  destruct (_ || _); [discriminate|].
  destruct (numberPattern text) as [[before [m after]]|] eqn:Hn; [|discriminate].
  destruct (includes text (utf16 "+")) eqn:Hplus; [now left|].
  cbv zeta. destruct (detectKeyword_ok text (trim (before ++ after)) Hplus) as [ti ->].
  cbn [bind].
  destruct (resolveCategory _ _ _ _) as [[category|] type] eqn:Hr; [|discriminate].
  apply resolveCategory_In, findCategories_group in Hr. destruct Hr as [Hg _].
  unfold saveTransaction. cbn [tx_groupId tx_amount]. rewrite Hg.
  destruct (parseFloat (removeAll (utf16 ",") m)) as [q|] eqn:Hq.
  - rewrite (parseFloat_nonneg _ Hq). discriminate.
  - intros _. right. exists before, m, after. split; [reflexivity|].
    apply numberPattern_sound in Hn. destruct Hn as (_ & _ & Hl).
    exact (@amount_nan_commas m after Hl Hq).
Qed.

Lemma classify_reply_not_error db clk user uid text db' :
  classify db clk user uid text <> Ok (db', Some errorReply).
Proof.
  unfold classify.
  destruct (_ || _); [discriminate|].
  destruct (numberPattern text) as [[before [m after]]|]; [|discriminate].
  destruct (detectKeyword _ _) as [ti|]; cbn [bind]; [|discriminate].
  destruct (resolveCategory _ _ _ _) as [[category|] type].
  - destruct (saveTransaction _ _ _); cbn [bind]; discriminate.
  - intros H. discriminate H.
Qed.

(** X16.  The two causes of the error reply.  For a text message that
    carries a sender identifier, [handleEvent] answers with the error text
    only if the text holds a plus sign (the income keyword that is not a
    valid regular expression), or the first number of the text is made of
    commas only (its amount is [NaN] and the store refuses it).  Nothing
    else in the handler fails: a sender without a current wallet has no
    category and gets the "category not found" reply before any
    transaction is built, and a sender registered by this very message has
    a wallet. *)
Theorem error_reply_causes
    (db db' : Db) (clk : Clock) (profile : option Profile) (event : Event) :
  source_userId event <> [] ->
  handleEvent db clk profile event = (db', Some errorReply) ->
  let text := trim (message_text event) in
  includes text (utf16 "+") = true
  \/ (exists before m after,
        numberPattern text = Some (before, (m, after))
        /\ forallb (fun c => (c =? 44)%N) m = true).
Proof.
  intros _ H. cbv zeta.
  destruct (isTextMessage event) eqn:Ht.
  2:{ unfold handleEvent in H. rewrite Ht in H. discriminate. }
  destruct (findUser db (source_userId event)) as [user|] eqn:Hu.
  - rewrite (handleEvent_registered _ _ _ _ Hu), Ht in H. cbn [negb] in H.
    destruct (classify _ _ _ _ _) as [[db1 reply]|e] eqn:Hc.
    + injection H as -> ->. now apply classify_reply_not_error in Hc.
    + now apply classify_throws in Hc.
  - rewrite (@handleEvent_unregistered R db clk profile event Ht Hu) in H.
    destruct (classify _ _ _ _ _) as [[db1 reply]|e] eqn:Hc.
    + injection H as -> ->. now apply classify_reply_not_error in Hc.
    + now apply classify_throws in Hc.
Qed.

Lemma classify_records db clk user uid text g :
  currentGroupId user = Some g ->
  (forall ty, exists c, In c (categories db) /\ cat_groupId c = g
                        /\ cat_type c = ty) ->
  str_eqb (toLowerCase text) (utf16 "สรุป")
  || str_eqb (toLowerCase text) (utf16 "summary") = false ->
  existsb isDigit text = true ->
  forallb (fun c => negb (c =? 43)%N && negb (c =? 44)%N) text = true ->
  exists db' ty q h cname f,
    classify db clk user uid text
    = Ok (db', Some (RecordedFlex ty (Some q) h cname f)).
Proof.
  intros Hg Hcats Hsum Hdigit Hplain.
  assert (Hplus : includes text (utf16 "+") = false).
  { apply includes_plus. rewrite forallb_forall in Hplain |- *.
    intros c Hc. specialize (Hplain c Hc). apply andb_true_iff in Hplain. tauto. }
  assert (Hcomma : forall c, In c text -> c <> 44%N).
  { intros c Hc ->. rewrite forallb_forall in Hplain. specialize (Hplain _ Hc).
    discriminate. }
  destruct (numberPattern text) as [[before [m after]]|] eqn:Hn.
  2:{ exfalso. apply (@numberPattern_finds text); [|exact Hn].
      apply existsb_exists in Hdigit. destruct Hdigit as (c & Hc & Hd).
      apply existsb_exists. exists c. split; [exact Hc|].
      unfold isAmountChar. now rewrite Hd. }
  pose proof (numberPattern_sound _ Hn) as (Htext & _ & Hl).
  destruct (parseFloat (removeAll (utf16 ",") m)) as [q|] eqn:Hq.
  2:{ exfalso. pose proof (@amount_nan_commas m after Hl Hq) as Hall.
      apply longestNumber_some in Hl. destruct Hl as (_ & Hs & _).
      destruct m as [|c m]; [discriminate|]. cbn [forallb] in Hall.
      apply andb_true_iff in Hall. destruct Hall as [Hc _].
      apply N.eqb_eq in Hc. apply (Hcomma c); [|exact Hc].
      rewrite Htext. apply in_or_app. right. now left. }
  unfold classify. rewrite Hsum, Hn. cbv zeta.
  destruct (detectKeyword_ok text (trim (before ++ after)) Hplus) as [ti ->].
  cbn [bind].
  destruct (resolveCategory _ _ _ _) as [[category|] type] eqn:Hr.
  2:{ exfalso. apply resolveCategory_none in Hr. destruct Hr as [_ Hnone].
      destruct (Hcats (fst ti)) as (c & Hin & Hcg & Hty).
      assert (Hc : In c (findCategories db (currentGroupId user))).
      { unfold findCategories. apply filter_In. split; [exact Hin|].
        rewrite Hg, Hcg. cbn [option_eqb]. apply N.eqb_refl. }
      apply Hnone in Hc. unfold ofType in Hc. rewrite Hty in Hc.
      destruct (fst ti); discriminate. }
  unfold saveTransaction. cbn [tx_groupId tx_amount]. rewrite Hg, Hq.
  rewrite (parseFloat_nonneg _ Hq). cbn [bind]. eauto 10.
Qed.

(** X17.  Every text with a digit is taken for a transaction.  For a
    registered sender whose current wallet has a category of each type, a
    text message that is not the summary command, holds a digit and holds
    neither a plus sign nor a comma is always recorded: the reply is the
    "recorded" card with a proper amount, and exactly one transaction is
    appended, with the whole text as its note. *)
Theorem text_with_a_digit_is_recorded
    (db : Db) (clk : Clock) (profile : option Profile) (event : Event)
    (user : User) (g : ObjectId) :
  isTextMessage event = true ->
  findUser db (source_userId event) = Some user ->
  currentGroupId user = Some g ->
  (forall ty, exists c, In c (categories db) /\ cat_groupId c = g
                        /\ cat_type c = ty) ->
  let text := trim (message_text event) in
  str_eqb (toLowerCase text) (utf16 "สรุป")
  || str_eqb (toLowerCase text) (utf16 "summary") = false ->
  existsb isDigit text = true ->
  forallb (fun c => negb (c =? 43)%N && negb (c =? 44)%N) text = true ->
  exists db' ty q h cname f stored,
    handleEvent db clk profile event
    = (db', Some (RecordedFlex ty (Some q) h cname f))
    /\ transactions db' = transactions db ++ [stored]
    /\ tx_note stored = text /\ tx_amount stored = Some q.
Proof.
  intros Ht Hu Hg Hcats text Hsum Hdigit Hplain.
  destruct (classify_records db clk user (source_userId event) text Hg Hcats
              Hsum Hdigit Hplain) as (db' & ty & q & h & cname & f & Hc).
  rewrite (handleEvent_registered _ _ _ _ Hu), Ht. cbn [negb].
  fold text. rewrite Hc.
  apply classify_recorded in Hc.
  destruct Hc as (g' & q' & cat & _ & [= <-] & _ & _ & _ & _ & ->).
  do 6 eexists. eexists. split; [reflexivity|]. cbn [transactions].
  split; [reflexivity|]. split; reflexivity.
Qed.

Lemma endsWith_exists p s : endsWith p s = true -> existsb p s = true.
Proof.
  unfold endsWith. destruct (rev s) as [|c r] eqn:E; [discriminate|].
  intros Hc. apply existsb_exists. exists c. split; [|exact Hc].
  apply in_rev. rewrite E. now left.
Qed.

(** X18.  The chat commands with an amount, in the handler that serves the
    webhook.  A text that the second handler would read as "set budget",
    "create goal" or "add to goal" (a verb, a name and a final amount), or
    as the mood command, ends in a digit; the handler that actually serves
    [POST /webhook] knows none of these commands, so under the conditions
    of X17 it records the text as a transaction instead of running the
    command. *)
Theorem amount_commands_are_recorded_as_transactions
    (db : Db) (clk : Clock) (profile : option Profile) (event : Event)
    (user : User) (g : ObjectId) :
  isTextMessage event = true ->
  findUser db (source_userId event) = Some user ->
  currentGroupId user = Some g ->
  (forall ty, exists c, In c (categories db) /\ cat_groupId c = g
                        /\ cat_type c = ty) ->
  let text := trim (message_text event) in
  str_eqb (toLowerCase text) (utf16 "สรุป")
  || str_eqb (toLowerCase text) (utf16 "summary") = false ->
  forallb (fun c => negb (c =? 43)%N && negb (c =? 44)%N) text = true ->
  (exists verb name digits,
     In verb amountVerbs /\ verbNameAmount verb text = Some (name, digits))
  \/ (exists d, moodPattern text = Some d) ->
  routePost "/webhook" = Some WebhookHandleEvent
  /\ exists db' ty q h cname f stored,
       handleEvent db clk profile event
       = (db', Some (RecordedFlex ty (Some q) h cname f))
       /\ transactions db' = transactions db ++ [stored]
       /\ tx_note stored = text.
Proof.
  intros Ht Hu Hg Hcats text Hsum Hplain Hcmd. split; [reflexivity|].
  assert (Hdigit : existsb isDigit text = true).
  { apply endsWith_exists.
    destruct Hcmd as [(verb & name & digits & _ & Hv)|(d & Hm)].
    - apply endsWithAmountToken_digit. exact (verbNameAmount_some _ _ Hv).
    - exact (moodPattern_some _ Hm). }
  destruct (classify_records db clk user (source_userId event) text Hg Hcats
              Hsum Hdigit Hplain) as (db' & ty & q & h & cname & f & Hc).
  rewrite (handleEvent_registered _ _ _ _ Hu), Ht. cbn [negb].
  fold text. rewrite Hc.
  apply classify_recorded in Hc.
  destruct Hc as (g' & q' & cat & _ & _ & _ & _ & _ & _ & ->).
  do 6 eexists. eexists. split; [reflexivity|]. cbn [transactions].
  split; reflexivity.
Qed.

End ErrorReply.

(** ** What the simulator may touch *)

Section SimulatorFrame.
Context {R : Runtime}.

Lemma simulateSmartInput_frame db clk user groupId uid text db' response :
  lineUserId user = uid ->
  simulateSmartInput db clk user groupId uid text = Ok (db', response) ->
  groups db' = groups db /\ categories db' = categories db
  /\ (forall other, other <> uid -> findUser db' other = findUser db other)
  /\ match response with
     | SimTransaction c a n s b =>
         exists stored, transactions db' = transactions db ++ [stored]
     | _ => db' = db
     end.
Proof.
  intros Hid. unfold simulateSmartInput.
  destruct (smartInputPattern text) as [[[cn am] note]|].
  2:{ intros [= <- <-]. auto. }
  destruct (findCategoryByRegex db groupId cn) as [[category|]|e]; cbn [bind].
  3: discriminate.
  2:{ intros [= <- <-]. auto. }
  destruct (saveTransaction _ _ _) as [db1|e] eqn:Hs; cbn [bind]; [|discriminate].
  apply saveTransaction_ok in Hs. destruct Hs as (g & q & _ & _ & _ & ->).
  destruct (updateStreak_simulate clk user) as [u'|] eqn:Hup;
    intros [= <- <-]; cbn [groups categories transactions saveUser];
    repeat split; eauto.
  intros other Hne. unfold findUser. cbn [users saveUser].
  apply find_replaceUser_other.
  rewrite (updateStreak_simulate_id _ _ Hup). congruence.
Qed.

(** X19.  What the simulator may touch.  A request to
    [/api/simulate-line] that is answered with a response changes the store
    only when the response is a recorded transaction: then one transaction
    has been appended and at most the sender's own user document rewritten.
    Every other response (a command, "category not found", "not
    understood", "please register") leaves the store exactly as it was.  In
    no case does the simulator touch a group, a category or the account of
    another user. *)
Theorem simulator_frame
    (db db' : Db) (clk : Clock) (uid message : jsstring)
    (response : SimResponse) :
  simulateLine db clk uid message = Http200 db' response ->
  groups db' = groups db /\ categories db' = categories db
  /\ (forall other, other <> uid -> findUser db' other = findUser db other)
  /\ match response with
     | SimTransaction c a n s b =>
         exists stored, transactions db' = transactions db ++ [stored]
     | _ => db' = db
     end.
Proof.
  unfold simulateLine. destruct (isEmpty message); [discriminate|].
  destruct (findUser db uid) as [user|] eqn:Hu.
  2:{ intros [= <- <-]. auto. }
  destruct (populatedGroupId db user) as [groupId|].
  2:{ intros [= <- <-]. auto. }
  destruct (simulateCommand _) as [c|].
  { intros [= <- <-]. auto. }
  destruct (simulateSmartInput _ _ _ _ _ _) as [[db1 r]|e] eqn:Hs; [|discriminate].
  intros [= <- <-].
  exact (simulateSmartInput_frame _ _ _ _ _ (findUser_id _ _ Hu) Hs).
Qed.

End SimulatorFrame.

Lemma simulator_frame_witness :
  exists db' c a n s b stored,
    @simulateLine plainRuntime demoDb demoClock demoUserId (utf16 "อาหาร 150")
    = Http200 db' (SimTransaction c a n s b)
    /\ transactions db' = transactions demoDb ++ [stored].
Proof.
  destruct (@simulateLine plainRuntime demoDb demoClock demoUserId
              (utf16 "อาหาร 150")) as [|db' response|] eqn:E.
  - vm_compute in E. discriminate.
  - destruct response as [t|c|m l|c a n s b|m];
      try (vm_compute in E; discriminate).
    destruct (@simulator_frame plainRuntime demoDb db' demoClock demoUserId
                (utf16 "อาหาร 150") (SimTransaction c a n s b) E)
      as (_ & _ & _ & stored & Hst).
    exists db', c, a, n, s, b, stored. split; [reflexivity|exact Hst].
  - vm_compute in E. discriminate.
Defined.

(** ** Badge lists across the handlers *)

Lemma Forall_replaceUser (P : User -> Prop) u' l :
  Forall P l -> P u' -> Forall P (replaceUser u' l).
Proof.
  intros Hl Hu. induction Hl as [|v l Hv Hl IH]; simpl; [constructor|].
  destruct (str_eqb (lineUserId v) (lineUserId u')); constructor; auto.
Qed.

Lemma Forall_findUser (P : User -> Prop) db uid u :
  Forall P (users db) -> findUser db uid = Some u -> P u.
Proof.
  intros Hl Hu. unfold findUser in Hu. apply find_some in Hu.
  rewrite Forall_forall in Hl. now apply Hl.
Qed.

Lemma streakBadges_known : incl streakBadges achievementIds.
Proof.
  intros id Hid. unfold streakBadges in Hid. cbn [In] in Hid.
  unfold achievementIds. cbn [map In].
  destruct Hid as [<-|[<-|[<-|[]]]]; tauto.
Qed.

Lemma badgesKept_wellFormed user u' :
  badgesKept user u' ->
  NoDup (achievements user) /\ incl (achievements user) achievementIds ->
  NoDup (achievements u') /\ incl (achievements u') achievementIds.
Proof.
  intros (_ & _ & Hnew & Hnd) [Hn Hi]. split; [now apply Hnd|].
  intros id Hid. destruct (Hnew id Hid) as [H|H]; [now apply Hi|].
  now apply streakBadges_known.
Qed.

Section BadgeInvariant.
Context {R : Runtime}.

Lemma simulateLine_users db clk uid message db' response :
  simulateLine db clk uid message = Http200 db' response ->
  users db' = users db
  \/ exists user u', findUser db uid = Some user
                     /\ updateStreak_simulate clk user = Some u'
                     /\ users db' = replaceUser u' (users db).
Proof.
  unfold simulateLine. destruct (isEmpty message); [discriminate|].
  destruct (findUser db uid) as [user|] eqn:Hu.
  2:{ intros [= <- <-]. now left. }
  destruct (populatedGroupId db user) as [groupId|].
  2:{ intros [= <- <-]. now left. }
  destruct (simulateCommand _) as [c|].
  { intros [= <- <-]. now left. }
  destruct (simulateSmartInput _ _ _ _ _ _) as [[db1 r]|e] eqn:Hs; [|discriminate].
  intros [= <- <-]. destruct r as [t|c|m l|c a n s b|m].
  1,2,3,5: left;
    destruct (simulateSmartInput_frame _ _ _ _ _ (findUser_id _ _ Hu) Hs)
      as (_ & _ & _ & ->); reflexivity.
  apply simulateSmartInput_recorded in Hs.
  destruct (updateStreak_simulate clk user) as [u'|] eqn:Hup; [|now left].
  right. exists user, u'. auto.
Qed.

(** X20.  Badge lists stay well formed.  If every stored user holds each
    badge at most once and only badges of the achievements table, the same
    is true after any request to the handler of the webhook, to the login,
    to the wallet switch and to the simulator: no handler duplicates a
    badge or invents one, and a user created on the way starts with
    none. *)
Theorem badges_stay_well_formed (db : Db) (clk : Clock) :
  badgesWellFormed db ->
  (forall profile event,
     badgesWellFormed (fst (handleEvent db clk profile event)))
  /\ (forall body db' user group,
        login db body = Login200 db' user group -> badgesWellFormed db')
  /\ (forall header groupId db' group,
        groupsSwitch db header groupId = Switch200 db' group ->
        badgesWellFormed db')
  /\ (forall uid message db' response,
        simulateLine db clk uid message = Http200 db' response ->
        badgesWellFormed db').
Proof.
  intros Hwf. unfold badgesWellFormed in *.
  assert (Hnew : forall u, achievements u = [] ->
            Forall (fun u => NoDup (achievements u)
                             /\ incl (achievements u) achievementIds)
                   (users db ++ [u])).
  { intros u Hu. apply Forall_app. split; [exact Hwf|].
    constructor; [|constructor]. rewrite Hu. split; [constructor|].
    intros x []. }
  repeat split.
  - intros profile event.
    destruct (isTextMessage event) eqn:Ht.
    2:{ unfold handleEvent. rewrite Ht. exact Hwf. }
    destruct (findUser db (source_userId event)) as [user|] eqn:Hu.
    + rewrite (handleEvent_registered _ _ _ _ Hu), Ht. cbn [negb].
      destruct (classify _ _ _ _ _) as [[db1 reply]|e] eqn:Hc; [|exact Hwf].
      apply classify_frame in Hc. cbn [fst]. destruct Hc as (-> & _). exact Hwf.
    + destruct (@handleEvent_unregistered_store R db clk profile event Ht Hu)
        as (-> & _).
      unfold registerUser. cbn [fst users]. now apply Hnew.
  - intros body db' user group H. unfold login in H.
    destruct (truthy (body_lineUserId body)) as [uid|]; [|discriminate].
    destruct (truthy (body_displayName body)) as [name|]; [|discriminate].
    destruct (findUser db uid) as [before|] eqn:Hu; injection H as <- _ _.
    + cbn [saveUser users]. apply Forall_replaceUser; [exact Hwf|].
      cbn [achievements]. exact (@Forall_findUser _ _ _ _ Hwf Hu).
    + cbn [users]. now apply Hnew.
  - intros header groupId db' group H. apply groupsSwitch_ok in H.
    destruct H as (uid & user & _ & Hu & _ & _ & _ & ->).
    cbn [saveUser users]. apply Forall_replaceUser; [exact Hwf|].
    cbn [achievements]. exact (@Forall_findUser _ _ _ _ Hwf Hu).
  - intros uid message db' response H. apply simulateLine_users in H.
    destruct H as [->|(user & u' & Hu & Hup & ->)]; [exact Hwf|].
    apply Forall_replaceUser; [exact Hwf|].
    apply badgesKept_wellFormed with (user := user).
    + unfold updateStreak_simulate in Hup.
      destruct (option_eqb _ _ _); [discriminate|]. injection Hup as <-.
      apply badgesKept_steps
        with (week := (nextStreak clk user =? 7)%Z) (month := false).
      reflexivity.
    + exact (@Forall_findUser _ _ _ _ Hwf Hu).
Qed.

End BadgeInvariant.

Lemma badges_stay_well_formed_witness :
  badgesWellFormed (withUser day29User)
  /\ forall db' response,
       @simulateLine plainRuntime (withUser day29User) demoClock demoUserId
         (utf16 "อาหาร 150") = Http200 db' response ->
       badgesWellFormed db'.
Proof.
  assert (H : badgesWellFormed (withUser day29User)).
  { unfold badgesWellFormed. cbn [withUser users]. constructor; [|constructor].
    cbn [day29User achievements]. split.
    - constructor; [|constructor; [intros []|constructor]].
      intros [E|[]]. vm_compute in E. discriminate.
    - intros id Hid. cbn [In] in Hid. unfold achievementIds. cbn [map In].
      destruct Hid as [<-|[<-|[]]]; tauto. }
  split; [exact H|].
  intros db' response.
  destruct (@badges_stay_well_formed plainRuntime (withUser day29User) demoClock H)
    as (_ & _ & _ & Hsim).
  apply Hsim.
Defined.

Lemma count_true_map {X : Type} (f : X -> bool) (l : list X) :
  List.length (filter (fun b : bool => b) (map f l)) = List.length (filter f l).
Proof.
  induction l as [|x l IH]; simpl; [reflexivity|].
  destruct (f x); simpl; now rewrite IH.
Qed.

Lemma achievementIds_NoDup : NoDup achievementIds.
Proof.
  apply (NoDup_count_occ' jsstring_dec). intros x Hx.
  unfold achievementIds in *. cbn [map In] in Hx.
  repeat (destruct Hx as [<-|Hx]; [vm_compute; reflexivity|]).
  contradiction.
Qed.

Lemma unlocked_flags_length (l : list jsstring) :
  NoDup l -> incl l achievementIds ->
  List.length (filter (fun id => existsb (str_eqb id) l) achievementIds)
  = List.length l.
Proof.
  intros Hn Hi. apply Nat.le_antisymm.
  - apply NoDup_incl_length.
    + apply NoDup_filter, achievementIds_NoDup.
    + intros x Hx. apply filter_In in Hx. destruct Hx as [_ Hx].
      now apply existsb_str_eqb_In.
  - apply NoDup_incl_length; [exact Hn|].
    intros x Hx. apply filter_In. split; [now apply Hi|].
    now apply existsb_str_eqb_In.
Qed.

(** X21.  The badge counter of the achievements page.  When the badge
    lists are well formed, the number of unlocked badges that
    [GET /api/achievements] reports is exactly the number of table entries
    it marks as unlocked, and it never exceeds the reported total, which is
    the ten entries of the table. *)
Theorem achievements_page_counts
    (db : Db) (header : option jsstring) (data : AchievementsData) :
  badgesWellFormed db ->
  getAchievements db header = Achievements200 data ->
  unlockedCount data
  = List.length (filter (fun unlocked : bool => unlocked) (data_unlocked data))
  /\ (unlockedCount data <= totalCount data)%nat
  /\ totalCount data = 10%nat
  /\ List.length (data_unlocked data) = 10%nat.
Proof.
  intros Hwf. unfold getAchievements, requireAuth.
  destruct header as [uid|]; [|discriminate].
  destruct (isEmpty uid); [discriminate|].
  destruct (findUser db uid) as [user|] eqn:Hu; [|discriminate].
  rewrite Hu. intros H.
  replace data
    with (mkAchievementsData
            (map (fun id => existsb (str_eqb id) (achievements user))
                 achievementIds)
            (List.length (achievements user)) (List.length achievementIds)
            (streak user) (totalSaved user))
    by congruence.
  clear H. cbn [unlockedCount totalCount data_unlocked].
  destruct (@Forall_findUser _ _ _ _ Hwf Hu) as [Hn Hi].
  rewrite count_true_map, (unlocked_flags_length Hn Hi), length_map.
  repeat split; try reflexivity.
  apply NoDup_incl_length; assumption.
Qed.

Lemma achievements_page_counts_witness :
  exists data,
    getAchievements (withUser day29User) (Some demoUserId) = Achievements200 data
    /\ unlockedCount data
       = List.length (filter (fun unlocked : bool => unlocked) (data_unlocked data)).
Proof.
  eexists. split; [vm_compute; reflexivity|].
  apply (@achievements_page_counts (withUser day29User) (Some demoUserId)).
  - unfold badgesWellFormed. cbn [withUser users]. constructor; [|constructor].
    cbn [day29User achievements]. split.
    + constructor; [|constructor; [intros []|constructor]].
      intros [E|[]]. vm_compute in E. discriminate.
    + intros id Hid. cbn [In] in Hid. unfold achievementIds. cbn [map In].
      destruct Hid as [<-|[<-|[]]]; tauto.
  - vm_compute. reflexivity.
Defined.

(** ** The wallets a user sees are the wallets they can switch to *)

(** X22.  Listing and switching agree.  Every wallet that
    [GET /api/groups] lists for a user can be made their current wallet by
    [POST /api/groups/switch] with its identifier: the switch succeeds and
    answers with a wallet of that identifier that lists the user.  And a
    switch that succeeds always answers with a wallet from that list. *)
Theorem listed_wallets_can_be_switched_to
    (db : Db) (header : option jsstring) (listed : list Group) :
  getGroups db header = Some listed ->
  (forall g, In g listed ->
     exists db' g',
       groupsSwitch db header (Some (group_id g)) = Switch200 db' g'
       /\ group_id g' = group_id g /\ In g' listed)
  /\ (forall groupId db' g',
        groupsSwitch db header groupId = Switch200 db' g' -> In g' listed).
Proof.
  unfold getGroups, groupsSwitch.
  destruct (requireAuth db header) as [m|user uid]; [discriminate|].
  intros [= <-]. split.
  - intros g Hg. apply filter_In in Hg. destruct Hg as [Hin Hm].
    destruct (find_first
                (fun g0 => (group_id g0 =? group_id g)%N
                           && existsb (str_eqb uid) (members g0))
                (groups db) g Hin) as (g' & Hf & Hin' & Hg').
    { now rewrite N.eqb_refl, Hm. }
    rewrite Hf. apply andb_true_iff in Hg'. destruct Hg' as [Hid Hm'].
    apply N.eqb_eq in Hid. do 2 eexists. split; [reflexivity|].
    split; [exact Hid|]. apply filter_In. auto.
  - intros [gid|] db' g'; [|discriminate].
    destruct (find _ (groups db)) as [g0|] eqn:Hf; [|discriminate].
    intros [= _ <-]. apply find_some in Hf. destruct Hf as [Hin Hg].
    apply andb_true_iff in Hg. apply filter_In. tauto.
Qed.

Lemma listed_wallets_can_be_switched_to_witness :
  getGroups demoDb (Some demoUserId) = Some [demoGroup]
  /\ exists db' g',
       groupsSwitch demoDb (Some demoUserId) (Some (group_id demoGroup))
       = Switch200 db' g'
       /\ group_id g' = group_id demoGroup /\ In g' [demoGroup].
Proof.
  split; [vm_compute; reflexivity|].
  destruct (@listed_wallets_can_be_switched_to demoDb (Some demoUserId)
              [demoGroup]) as [H _].
  - vm_compute. reflexivity.
  - apply H. now left.
Defined.

(** ** Smart Input takes the first amount *)

Lemma tryShortest_prefix {A : Type} p (k : jsstring -> matcher A) a :
  forall pre r x,
    forallb p a = true -> k (pre ++ a) r = Some x ->
    exists y a1 a2,
      a = a1 ++ a2 /\ tryShortest p k pre (a ++ r) = Some y
      /\ k (pre ++ a1) (a2 ++ r) = Some y.
Proof.
  induction a as [|c a IH]; intros pre r x Hp Hk.
  - rewrite app_nil_r in Hk. exists x, [], []. rewrite !app_nil_r. cbn [app].
    repeat split; auto. now apply tryShortest_first.
  - cbn [forallb] in Hp. apply andb_true_iff in Hp. destruct Hp as [Hc Hp].
    cbn [app tryShortest].
    destruct (k pre (c :: a ++ r)) as [y|] eqn:E.
    + exists y, [], (c :: a). rewrite app_nil_r. auto.
    + rewrite Hc.
      destruct (IH (pre ++ [c]) r x Hp) as (y & a1 & a2 & -> & Ht & Hy).
      { now rewrite <- app_assoc. }
      exists y, (c :: a1), a2. rewrite <- app_assoc in Hy. auto.
Qed.

Lemma amountAndNote_name cn r x :
  amountAndNote cn r = Some x -> fst (fst x) = cn.
Proof.
  unfold amountAndNote. intros H.
  apply greedy_some in H. destruct H as (ip & r3 & -> & _ & _ & H).
  assert (Hn : forall am0 r0, noteTail cn am0 r0 = Some x -> fst (fst x) = cn).
  { intros am0 r0 Hn. apply noteTail_some in Hn.
    destruct Hn as [[_ ->]|(sep2 & n & _ & _ & _ & ->)]; reflexivity. }
  apply alt_some in H. destruct H as [H|[_ H]]; [|now apply Hn in H].
  apply lit_exact_some in H. destruct H as (r4 & _ & H).
  apply greedy_some in H. destruct H as (fp & r5 & _ & _ & _ & H).
  now apply Hn in H.
Qed.

(** X23.  Smart Input takes the first amount.  Every text that can be
    read as a category name, white space, an amount and then nothing or
    white space and a note is taken by the Smart Input pattern; and the
    category name the pattern takes is the shortest possible one: it is a
    prefix of (or equal to) the name of any such reading.  So when a text
    holds several numbers, the amount is the first number that stands
    between white space and white space or the end, and everything after
    it is the note. *)
Theorem smart_input_takes_the_first_amount
    (name sep amount : jsstring) (tail : option (jsstring * jsstring)) :
  name <> [] -> forallb isDot name = true ->
  isSeparator sep = true -> isPlainAmount amount = true ->
  match tail with
  | None => True
  | Some (sep2, note) => isSeparator sep2 = true /\ isNote note = true
  end ->
  let text := name ++ sep ++ amount
              ++ match tail with
                 | None => []
                 | Some (sep2, note) => sep2 ++ note
                 end in
  exists cn am note rest,
    smartInputPattern text = Some (cn, am, note) /\ name = cn ++ rest.
Proof.
  intros Hne Hdot Hsep Ham Htail text.
  set (tl := match tail with None => [] | Some (sep2, note) => sep2 ++ note end)
    in *.
  assert (Hk : exists x,
    greedy isWhiteSpace 1 (fun _ => amountAndNote name) (sep ++ amount ++ tl)
    = Some x).
  { assert (Hnt : exists x, noteTail name amount tl = Some x
                /\ match tl with [] => True | c :: _ => isWhiteSpace c = true end).
    { subst tl. destruct tail as [[sep2 note]|].
      - destruct Htail as [Hs2 Hn]. eexists. split; [now apply noteTail_note|].
        unfold isSeparator in Hs2. apply andb_true_iff in Hs2.
        destruct Hs2 as [Hs2 Hw]. destruct sep2 as [|c sep2]; [discriminate|].
        cbn [app]. cbn [forallb] in Hw. apply andb_true_iff in Hw. tauto.
      - eexists. split; [apply noteTail_end|exact I]. }
    destruct Hnt as (x & Hx & Hh). exists x.
    unfold isSeparator in Hsep. apply andb_true_iff in Hsep.
    destruct Hsep as [Hs Hw].
    apply greedy_first; auto.
    - pose proof (isPlainAmount_head _ Ham) as Hd.
      destruct amount as [|d amount]; [contradiction|].
      cbn [app]. now apply digit_not_whiteSpace.
    - destruct sep; [discriminate|simpl; lia].
    - now apply amountAndNote_amount. }
  destruct Hk as (x & Hk).
  destruct name as [|c a]; [congruence|].
  cbn [forallb] in Hdot. apply andb_true_iff in Hdot. destruct Hdot as [Hc Hdot].
  destruct (@tryShortest_prefix _ isDot
              (fun categoryName =>
                 greedy isWhiteSpace 1 (fun _ => amountAndNote categoryName))
              a [c] (sep ++ amount ++ tl) x Hdot Hk)
    as (y & a1 & a2 & -> & Ht & Hy).
  destruct y as [[cn am] note].
  apply greedy_some in Hy. destruct Hy as (w & r2 & _ & _ & _ & Hy).
  apply amountAndNote_name in Hy. cbn [fst] in Hy. subst cn.
  exists ([c] ++ a1), am, note, a2. split; [|reflexivity].
  unfold text, smartInputPattern, lazyPlus. cbn [app]. rewrite Hc. exact Ht.
Qed.

Lemma smart_input_takes_the_first_amount_witness :
  exists cn am note rest,
    smartInputPattern (utf16 "กาแฟ 2 แก้ว 100") = Some (cn, am, note)
    /\ utf16 "กาแฟ 2 แก้ว" = cn ++ rest.
Proof.
  apply (@smart_input_takes_the_first_amount (utf16 "กาแฟ 2 แก้ว") (utf16 " ")
           (utf16 "100") None).
  - vm_compute. discriminate.
  - vm_compute. reflexivity.
  - vm_compute. reflexivity.
  - vm_compute. reflexivity.
  - exact I.
Defined.

(** ** The type of a recorded message *)

Lemma detectKeyword_type text itemName ti :
  detectKeyword text itemName = Ok ti ->
  fst ti = if existsb (includes text) incomeKeywords then income else expense.
Proof.
  unfold detectKeyword.
  destruct (find (includes text) incomeKeywords) as [kw|] eqn:Hf.
  - apply find_some in Hf.
    assert (He : existsb (includes text) incomeKeywords = true)
      by (apply existsb_exists; eauto).
    rewrite He. destruct (stripKeyword kw itemName); cbn [bind]; [|discriminate].
    now intros [= <-].
  - assert (He : existsb (includes text) incomeKeywords = false).
    { destruct (existsb (includes text) incomeKeywords) eqn:E; [|reflexivity].
      apply existsb_exists in E. destruct E as (kw & Hin & Hk).
      now rewrite (find_none _ _ Hf kw Hin) in Hk. }
    rewrite He. destruct (find (includes text) expenseKeywords) as [kw|].
    + destruct (stripKeyword kw itemName); cbn [bind]; [|discriminate].
      now intros [= <-].
    + now intros [= <-].
Qed.

Section TypeRule.
Context {R : Runtime}.

Lemma find_nonempty_label label cats :
  find (fun c => negb (isEmpty label) && sameName label c) cats
  = if isEmpty label then None else find (sameName label) cats.
Proof.
  destruct label; cbn [isEmpty negb andb].
  - induction cats; simpl; auto.
  - induction cats as [|c0 cats IH]; simpl; [reflexivity|].
    now rewrite IH.
Qed.

(** X24.  The type of a recorded message.  When [handleEvent] records a
    text, the type on the card is decided as follows.  If the text without
    its number, trimmed, is not empty and is the name of a category of the
    sender's wallet (ignoring case), the type is the type of the first such
    category and that category is the one on the card.  Otherwise the type
    is income exactly when the text contains one of the income keywords,
    and expense in every other case, whether or not an expense keyword is
    present. *)
Theorem recorded_type_rule
    (db db' : Db) (clk : Clock) (user : User) (uid text : jsstring)
    (ty : TxType) (a : option Q) (h cname f : jsstring) :
  classify db clk user uid text = Ok (db', Some (RecordedFlex ty a h cname f)) ->
  exists before m after,
    numberPattern text = Some (before, (m, after))
    /\ let label := trim (before ++ after) in
       let cats := findCategories db (currentGroupId user) in
       (exists c0, label <> [] /\ find (sameName label) cats = Some c0
                   /\ ty = cat_type c0 /\ cname = cat_name c0)
       \/ ((label = [] \/ find (sameName label) cats = None)
           /\ ty = if existsb (includes text) incomeKeywords
                   then income else expense).
Proof.
  unfold classify.
  destruct (_ || _); [discriminate|].
  destruct (numberPattern text) as [[before [m after]]|]; [|discriminate].
  cbv zeta. intros H. exists before, m, after. split; [reflexivity|].
  destruct (detectKeyword text (trim (before ++ after))) as [ti|] eqn:Hd;
    cbn [bind] in H; [|discriminate].
  apply detectKeyword_type in Hd.
  unfold resolveCategory in H. rewrite find_nonempty_label in H.
  destruct (isEmpty (trim (before ++ after))) eqn:He.
  - right. split; [left; now destruct (trim (before ++ after))|].
    rewrite <- Hd.
    destruct (match find (sameName _) _ with Some c => Some c | None => _ end)
      as [category|]; [|discriminate].
    destruct (saveTransaction _ _ _); cbn [bind] in H; [|discriminate].
    now injection H as _ <- _ _ _ _.
  - destruct (find (sameName (trim (before ++ after))) _) as [c0|] eqn:Hf.
    + left. exists c0.
      destruct (saveTransaction _ _ _); cbn [bind] in H; [|discriminate].
      injection H as _ <- _ _ <- _. repeat split; auto.
      intros E. rewrite E in He. discriminate.
    + right. split; [now right|]. rewrite <- Hd.
      destruct (match find (sameName _) _ with Some c => Some c | None => _ end)
        as [category|]; [|discriminate].
      destruct (saveTransaction _ _ _); cbn [bind] in H; [|discriminate].
      now injection H as _ <- _ _ _ _.
Qed.

End TypeRule.

Lemma recorded_type_rule_witness :
  exists before m after,
    numberPattern (utf16 "ขายของเก่า 300") = Some (before, (m, after))
    /\ ((exists c0, trim (before ++ after) <> []
           /\ find (@sameName plainRuntime (trim (before ++ after)))
                   (findCategories demoDb (currentGroupId demoUser)) = Some c0
           /\ income = cat_type c0 /\ utf16 "อื่นๆ" = cat_name c0)
        \/ ((trim (before ++ after) = []
             \/ find (@sameName plainRuntime (trim (before ++ after)))
                     (findCategories demoDb (currentGroupId demoUser)) = None)
            /\ income = if existsb (includes (utf16 "ขายของเก่า 300"))
                                   incomeKeywords
                        then income else expense)).
Proof.
  apply (@recorded_type_rule plainRuntime demoDb
           (fst (@handleEvent plainRuntime demoDb demoClock None
                   (textEvent "ขายของเก่า 300")))
           demoClock demoUser demoUserId (utf16 "ขายของเก่า 300") income
           (Some (300 # 1)%Q) (utf16 "เก่า") (utf16 "อื่นๆ")
           (utf16 "ขายของเก่า")).
  vm_compute. reflexivity.
Defined.

(** ** Sample runs of the properties above *)

Lemma streak_update_keeps_badges_witness :
  exists u',
    updateStreak_webhook demoClock day29User = Some u'
    /\ badgesKept day29User u' /\ streak u' = 30%Z.
Proof.
  eexists. split; [vm_compute; reflexivity|].
  edestruct (@streak_update_keeps_badges demoClock day29User) as (Hb & _).
  - left. vm_compute. reflexivity.
  - split; [exact Hb|reflexivity].
Defined.

Lemma smart_input_records_under_the_category_witness :
  exists db' c a n s b,
    @simulateSmartInput plainRuntime demoDb demoClock demoUser demoGroupId
      demoUserId (utf16 "อาหาร 150") = Ok (db', SimTransaction c a n s b)
    /\ cat_groupId c = demoGroupId
    /\ transactions db'
       = transactions demoDb
         ++ [mkTransaction (Some demoGroupId) demoUserId (cat_type c) a
               (cat_id c) (nowMs demoClock) (getCurrentMonthStr demoClock) n].
Proof.
  do 6 eexists. split; [vm_compute; reflexivity|].
  edestruct (@smart_input_records_under_the_category plainRuntime demoDb
               demoClock demoUser demoGroupId demoUserId (utf16 "อาหาร 150"))
    as (_ & Hg & _ & Ht & _).
  - right. vm_compute. reflexivity.
  - split; [exact Hg|exact Ht].
Defined.

Lemma switch_then_simulate_records_in_new_wallet_witness :
  groupsSwitch demoDb (Some demoUserId) (Some demoGroupId)
  = Switch200 (saveUser demoDb demoUser) demoGroup
  /\ match @simulateLine plainRuntime (saveUser demoDb demoUser) demoClock
             demoUserId (utf16 "อาหาร 150") with
     | Http200 db2 (SimTransaction c a n s b) =>
         exists stored,
           transactions db2 = transactions demoDb ++ [stored]
           /\ tx_groupId stored = Some (group_id demoGroup)
     | _ => False
     end.
Proof.
  assert (E1 : groupsSwitch demoDb (Some demoUserId) (Some demoGroupId)
               = Switch200 (saveUser demoDb demoUser) demoGroup)
    by (vm_compute; reflexivity).
  split; [exact E1|].
  destruct (@simulateLine plainRuntime (saveUser demoDb demoUser) demoClock
              demoUserId (utf16 "อาหาร 150")) as [|db2 response|] eqn:E2;
    try (vm_compute in E2; discriminate).
  destruct response as [t|c|m l|c a n s b|m];
    try (vm_compute in E2; discriminate).
  destruct (@switch_then_simulate_records_in_new_wallet plainRuntime demoDb
              (saveUser demoDb demoUser) db2 demoClock demoUserId
              (utf16 "อาหาร 150") (Some demoGroupId) demoGroup c a n s b E1 E2)
    as (_ & _ & stored & Ht & Hg & _).
  exists stored. split; [exact Ht|exact Hg].
Defined.

Lemma error_reply_causes_witness :
  @handleEvent plainRuntime demoDb demoClock None (textEvent "hello, world")
  = (demoDb, Some errorReply)
  /\ (includes (trim (message_text (textEvent "hello, world"))) (utf16 "+") = true
      \/ exists before m after,
           numberPattern (trim (message_text (textEvent "hello, world")))
           = Some (before, (m, after))
           /\ forallb (fun c => (c =? 44)%N) m = true).
Proof.
  assert (H : @handleEvent plainRuntime demoDb demoClock None
                (textEvent "hello, world") = (demoDb, Some errorReply))
    by (vm_compute; reflexivity).
  split; [exact H|].
  apply (@error_reply_causes plainRuntime demoDb demoDb demoClock None
           (textEvent "hello, world")); [|exact H].
  vm_compute. discriminate.
Defined.

Lemma demoDb_both_types (ty : TxType) :
  exists c, In c (categories demoDb) /\ cat_groupId c = demoGroupId
            /\ cat_type c = ty.
Proof.
  destruct (createDefaultCategories_both demoGroupId 101%N ty) as (c & Hin & Hty).
  exists c. split; [exact Hin|]. split; [|exact Hty].
  pose proof (createDefaultCategories_spec demoGroupId 101%N) as (_ & _ & Hf).
  rewrite Forall_forall in Hf. now destruct (Hf c Hin).
Defined.

Lemma text_with_a_digit_is_recorded_witness :
  exists db' ty q h cname f stored,
    @handleEvent plainRuntime demoDb demoClock None (textEvent "ข้าวมันไก่ 45.50")
    = (db', Some (RecordedFlex ty (Some q) h cname f))
    /\ transactions db' = transactions demoDb ++ [stored]
    /\ tx_note stored = utf16 "ข้าวมันไก่ 45.50" /\ tx_amount stored = Some q.
Proof.
  apply (@text_with_a_digit_is_recorded plainRuntime demoDb demoClock None
           (textEvent "ข้าวมันไก่ 45.50") demoUser demoGroupId).
  - reflexivity.
  - reflexivity.
  - reflexivity.
  - exact demoDb_both_types.
  - vm_compute. reflexivity.
  - vm_compute. reflexivity.
  - vm_compute. reflexivity.
Defined.

Lemma amount_commands_are_recorded_as_transactions_witness :
  routePost "/webhook" = Some WebhookHandleEvent
  /\ exists db' ty q h cname f stored,
       @handleEvent plainRuntime demoDb demoClock None
         (textEvent "ออม เที่ยวญี่ปุ่น 500")
       = (db', Some (RecordedFlex ty (Some q) h cname f))
       /\ transactions db' = transactions demoDb ++ [stored]
       /\ tx_note stored = utf16 "ออม เที่ยวญี่ปุ่น 500".
Proof.
  apply (@amount_commands_are_recorded_as_transactions plainRuntime demoDb
           demoClock None (textEvent "ออม เที่ยวญี่ปุ่น 500") demoUser
           demoGroupId).
  - reflexivity.
  - reflexivity.
  - reflexivity.
  - exact demoDb_both_types.
  - vm_compute. reflexivity.
  - vm_compute. reflexivity.
  - left. exists "ออม"%string, (utf16 "เที่ยวญี่ปุ่น"), (utf16 "500").
    split; [right; right; now left|vm_compute; reflexivity].
Defined.
